(** * gemini-agent: the research pipeline and its retry wrapper

    A shallow embedding of the TypeScript sources of the command line tool
    and the properties that its specification states about them.  The
    sources have two variants of the pipeline.  The one embedded first is
    the one that calls the model directly: the driver index.ts that reads
    [--topic] and [--output], the client initializer src/ai.ts and the
    agents of src/agents/index.ts with their retry wrapper.  The other one,
    built on the agents of the [ai] package, is embedded in the module
    [V2]: its driver, [runAgentStream] and the search tool
    src/tools/search.ts.

    Conventions of the embedding.
    - A JavaScript string is a [string]: its UTF-8 bytes.
    - A JavaScript number is a binary64 [float]; counters and millisecond
      delays, which stay small integers, are [nat] and [Z].
    - A value of unknown type (a thrown error, a parsed JSON document) is a
      [JsValue]; an object is the list of its own properties.
    - An async function is a program [Prog A]: a function of the state of the
      process that yields an outcome (a value, a thrown error, or the exit of
      the process) and the next state.  Everything the program does to the
      outside is appended to the [trace] of the state, and everything the
      outside answers is read from the [world] through the oracles of [Host].
    - Time is the time slept: a [Sleep] event of the trace for each
      [setTimeout] awaited.
    - An async function that runs while other promises are pending is a
      task [Task A]: it runs until it awaits the outside, and goes on when
      the event loop resumes it.  Which of the pending tasks the event loop
      resumes next is one more oracle of the host.  The functions that the
      research phase runs together are embedded a second time, as tasks, in
      the module [Concurrent]. *)

From Stdlib Require Import ZArith Floats Lia Ascii.
From stdpp Require Import base tactics option list strings pretty.

Open Scope Z_scope.
Set Warnings "-register-all".

(** ** JavaScript values *)

Inductive JsValue : Type :=
| JUndefined
| JNull
| JBool (b : bool)
| JNum (n : float)
| JStr (s : string)
| JArr (items : list JsValue)
| JObj (props : list (string * JsValue)).

Module Js.

(** [typeof v] *)
Definition typeof (v : JsValue) : string :=
  match v with
  | JUndefined => "undefined"
  | JNull => "object"
  | JBool _ => "boolean"
  | JNum _ => "number"
  | JStr _ => "string"
  | JArr _ | JObj _ => "object"
  end.

(** ToBoolean: what [if (v)], [!v] and [v && w] test. *)
Definition truthy (v : JsValue) : bool :=
  match v with
  | JUndefined | JNull => false
  | JBool b => b
  | JNum n => negb (PrimFloat.eqb n 0%float || PrimFloat.is_nan n)
  | JStr s => negb (String.eqb s "")
  | JArr _ | JObj _ => true
  end.

Fixpoint lookup_prop (k : string) (props : list (string * JsValue)) : option JsValue :=
  match props with
  | [] => None
  | (k', v) :: rest => if String.eqb k' k then Some v else lookup_prop k rest
  end.

(** [v.k] for a named property [k]: a missing property reads [undefined];
    an array has no named property but [length], which the sources never
    read from a value of unknown type. *)
Definition get (v : JsValue) (k : string) : JsValue :=
  match v with
  | JObj props => default JUndefined (lookup_prop k props)
  | _ => JUndefined
  end.

(** [v === x] for a number [x]: a number that compares equal to [x]. *)
Definition strict_eq_num (v : JsValue) (x : float) : bool :=
  match v with
  | JNum n => PrimFloat.eqb n x
  | _ => false
  end.

End Js.

(** ** Strings of the console *)

Definition ESC : string := String "027"%char "".
Definition LF : string := String "010"%char "".
Definition DQ : string := String "034"%char "".

(** ** The types of @google/genai that the sources read and build

    Only the fields that the sources touch are kept; an optional field is an
    [option]. *)

Record Part := { part_text : option string }.

Record Content := { content_role : option string; content_parts : option (list Part) }.

Record WebChunk := { web_uri : option string; web_title : option string }.

Record GroundingChunk := { chunk_web : option WebChunk }.

Record GroundingMetadata := { groundingChunks : option (list GroundingChunk) }.

Record Candidate := {
  candidate_content : option Content;
  candidate_groundingMetadata : option GroundingMetadata
}.

Record GenerateContentResponse := { candidates : option (list Candidate) }.

Variant Tool := GoogleSearch.

Record GenerateContentConfig := {
  systemInstruction : string;
  maxOutputTokens : Z;
  tools : option (list Tool);
  responseMimeType : option string;
  responseJsonSchema : option JsValue
}.

Record GenerateContentParameters := {
  model : string;
  contents : list Content;
  config : GenerateContentConfig
}.

(** A response stream: the chunks that arrive, in arrival order, and how the
    stream ends (normally, or with an error thrown by the iteration). *)
Record ResponseStream := {
  stream_chunks : list GenerateContentResponse;
  stream_failure : option JsValue
}.

(** ** Zod schemas, as far as the sources build them *)

Inductive ZSchema : Type :=
| ZString
| ZArray (item : ZSchema)
| ZObject (shape : list (string * ZSchema))
| ZDescribe (inner : ZSchema) (description : string).

(** ** Outcomes and effects *)

(** How a promise of the outside world settles. *)
Variant Settled (A : Type) : Type :=
| Fulfilled (a : A)
| Rejected (reason : JsValue).
Arguments Fulfilled {A} a.
Arguments Rejected {A} reason.

(** How a piece of the program ends: normally, by a thrown value, or because
    [process.exit] ended the process. *)
Variant Res (A : Type) : Type :=
| Ok (a : A)
| Throw (error : JsValue)
| Exit (code : Z).
Arguments Ok {A} a.
Arguments Throw {A} error.
Arguments Exit {A} code.

(** What the process does to the outside, in the order it does it.  The
    last event, [Invoke], is not one of the program: it marks the invocation
    of an operation that a statement hands to the retry wrapper. *)
Variant Event : Type :=
| ConsoleClear
| ConsoleLog (msg : string)
| ConsoleError (msg : string) (detail : option JsValue)
| StdoutWrite (text : string)
| Sleep (ms : Z)
| RlQuestion (prompt : string)
| RlClose
| CreateContentGeneratorConfig
| CreateContentGenerator
| GenerateContent (request : GenerateContentParameters) (promptId : string)
| GenerateContentStream (request : GenerateContentParameters) (promptId : string)
| Mkdir (path : string)
| WriteFile (path : string) (data : string)
| Invoke (label : string).

(** The collaborators of the program that are not code of the repository:
    @google/gemini-cli-core and the client it creates, node's crypto,
    readline, fs and path, [JSON.parse], zod's JSON schema printer and the
    event loop.  [World] is whatever they depend on and change;
    [rl_answer prompt] is the line that [rl.question(prompt)] resolves to. *)
Class Host := {
  World : Type;
  GcConfig : Type;
  ContentGeneratorConfig : Type;
  ContentGenerator : Type;
  makeFakeConfig : GcConfig;
  createContentGeneratorConfig :
    GcConfig -> World -> Settled ContentGeneratorConfig * World;
  createContentGenerator :
    ContentGeneratorConfig -> GcConfig -> World -> Settled ContentGenerator * World;
  client_generateContent :
    ContentGenerator -> GenerateContentParameters -> string ->
    World -> Settled GenerateContentResponse * World;
  client_generateContentStream :
    ContentGenerator -> GenerateContentParameters -> string ->
    World -> Settled ResponseStream * World;
  crypto_randomUUID : World -> string * World;
  rl_answer : string -> World -> string * World;
  fs_mkdir : string -> World -> Settled unit * World;
  fs_writeFile : string -> string -> World -> Settled unit * World;
  path_dirname : string -> string;
  JSON_parse : string -> Settled JsValue;
  z_toJSONSchema : ZSchema -> JsValue;
  (** the event loop: of [n] pending promises, which one settles next *)
  next_settled : nat -> World -> nat * World
}.

Section Program.

Context `{host : Host}.

(** The state of the process: the outside world, what was done to it so
    far, and the two module variables of src/ai.ts. *)
Record State := {
  world : World;
  trace : list Event;
  contentGenerator : option ContentGenerator;
  generatorConfig : option ContentGeneratorConfig
}.

Definition Prog (A : Type) : Type := State -> Res A * State.

Definition ret {A} (a : A) : Prog A := fun s => (Ok a, s).

Definition bind {A B} (m : Prog A) (f : A -> Prog B) : Prog B :=
  fun s =>
    match m s with
    | (Ok a, s') => f a s'
    | (Throw e, s') => (Throw e, s')
    | (Exit c, s') => (Exit c, s')
    end.

(** [throw e] *)
Definition throw {A} (e : JsValue) : Prog A := fun s => (Throw e, s).

(** [process.exit(code)]: nothing of the program runs after it. *)
Definition process_exit {A} (code : Z) : Prog A := fun s => (Exit code, s).

Definition emit (ev : Event) : Prog unit :=
  fun s =>
    (Ok tt, {| world := world s; trace := trace s ++ [ev];
               contentGenerator := contentGenerator s;
               generatorConfig := generatorConfig s |}).

(** Ask the outside world and await its answer. *)
Definition await {A} (oracle : World -> Settled A * World) : Prog A :=
  fun s =>
    let '(r, w) := oracle (world s) in
    let s' := {| world := w; trace := trace s;
                 contentGenerator := contentGenerator s;
                 generatorConfig := generatorConfig s |} in
    match r with
    | Fulfilled a => (Ok a, s')
    | Rejected e => (Throw e, s')
    end.

(** Ask the outside world for something that cannot fail. *)
Definition ask {A} (oracle : World -> A * World) : Prog A :=
  fun s =>
    let '(a, w) := oracle (world s) in
    (Ok a, {| world := w; trace := trace s;
              contentGenerator := contentGenerator s;
              generatorConfig := generatorConfig s |}).

(** [try { m } catch (error) { handler error }] *)
Definition try_catch {A} (m : Prog A) (handler : JsValue -> Prog A) : Prog A :=
  fun s =>
    match m s with
    | (Throw e, s') => handler e s'
    | other => other
    end.

(** [try { m } finally { cleanup }]: the cleanup runs however [m] ends,
    unless the process has exited; when the cleanup itself throws or
    exits, that is how the statement ends. *)
Definition try_finally {A} (m : Prog A) (cleanup : Prog unit) : Prog A :=
  fun s =>
    match m s with
    | (Exit c, s') => (Exit c, s')
    | (r, s') =>
        match cleanup s' with
        | (Ok _, s'') => (r, s'')
        | (Throw e, s'') => (Throw e, s'')
        | (Exit c, s'') => (Exit c, s'')
        end
    end.

End Program.

Notation "x <- m ;; f" := (bind m (fun x => f))
  (at level 100, m at next level, right associativity, only parsing).
Notation "m ;;; f" := (bind m (fun _ => f))
  (at level 100, right associativity, only parsing).

(** ** State updates *)

Section StateUpdates.

Context `{host : Host}.

Definition log_events (evs : list Event) (s : State) : State :=
  {| world := world s; trace := trace s ++ evs;
     contentGenerator := contentGenerator s;
     generatorConfig := generatorConfig s |}.

Definition set_world (w : World) (s : State) : State :=
  {| world := w; trace := trace s;
     contentGenerator := contentGenerator s;
     generatorConfig := generatorConfig s |}.

Definition console_log (msg : string) : Prog unit := emit (ConsoleLog msg).

Definition console_error (msg : string) (detail : option JsValue) : Prog unit :=
  emit (ConsoleError msg detail).

End StateUpdates.

(** ** src/agents/index.ts: the retry wrapper *)

Definition MAX_RETRIES : nat := 5.
Definition INITIAL_DELAY_MS : Z := 1000.

(** [isRateLimitError]: an object whose [status] or [code] is the number 429. *)
Definition isRateLimitError (error : JsValue) : bool :=
  if Js.truthy error && String.eqb (Js.typeof error) "object" then
    Js.strict_eq_num (Js.get error "status") 429%float
    || Js.strict_eq_num (Js.get error "code") 429%float
  else false.

(** [INITIAL_DELAY_MS * Math.pow(2, attempt)] *)
Definition retry_delay (attempt : nat) : Z := INITIAL_DELAY_MS * 2 ^ Z.of_nat attempt.

Definition retry_message (context : string) (delay : Z) (attempt : nat) : string :=
  ESC +:+ "[33m[Retry]" +:+ ESC +:+ "[0m Rate limited on " +:+ context
  +:+ ", waiting " +:+ pretty delay +:+ "ms (attempt " +:+ pretty (attempt + 1)%nat
  +:+ "/" +:+ pretty MAX_RETRIES +:+ ")...".

Section Retry.

Context `{host : Host}.

(** [sleep(ms)] *)
Definition sleep (ms : Z) : Prog unit := emit (Sleep ms).

(** The loop of [withRetry], from iteration [attempt] on; [remaining] is
    [MAX_RETRIES - attempt], the number of iterations left, and the loop
    ends when it reaches 0 ([attempt < MAX_RETRIES] fails). *)
Fixpoint withRetry_loop {T} (fn : Prog T) (context : string)
    (remaining attempt : nat) (lastError : JsValue) : Prog T :=
  match remaining with
  | O => throw lastError
  | S remaining' =>
      try_catch fn (fun error =>
        if negb (isRateLimitError error) then throw error
        else
          (if (attempt <? MAX_RETRIES - 1)%nat then
             let delay := retry_delay attempt in
             console_log (retry_message context delay attempt) ;;;
             sleep delay
           else ret tt) ;;;
          withRetry_loop fn context remaining' (S attempt) error)
  end.

Definition withRetry {T} (fn : Prog T) (context : string) : Prog T :=
  withRetry_loop fn context MAX_RETRIES 0 JUndefined.

End Retry.

(** ** src/ai.ts: the client initializer *)

Definition DEFAULT_MODEL : string := "gemini-3-flash-preview".

Section Ai.

Context `{host : Host}.

Definition read_contentGenerator : Prog (option ContentGenerator) :=
  fun s => (Ok (contentGenerator s), s).

Definition read_generatorConfig : Prog (option ContentGeneratorConfig) :=
  fun s => (Ok (generatorConfig s), s).

Definition write_generatorConfig (c : ContentGeneratorConfig) : Prog unit :=
  fun s =>
    (Ok tt, {| world := world s; trace := trace s;
               contentGenerator := contentGenerator s;
               generatorConfig := Some c |}).

Definition write_contentGenerator (c : ContentGenerator) : Prog unit :=
  fun s =>
    (Ok tt, {| world := world s; trace := trace s;
               contentGenerator := Some c;
               generatorConfig := generatorConfig s |}).

(** [initializeClient]: both module variables hold an object, or the
    client is created and stored. *)
Definition initializeClient : Prog (ContentGenerator * ContentGeneratorConfig) :=
  cached_client <- read_contentGenerator ;;
  cached_config <- read_generatorConfig ;;
  match cached_client, cached_config with
  | Some client, Some config => ret (client, config)
  | _, _ =>
      let gcConfig := makeFakeConfig in
      config <- (emit CreateContentGeneratorConfig ;;;
                 await (createContentGeneratorConfig gcConfig)) ;;
      write_generatorConfig config ;;;
      client <- (emit CreateContentGenerator ;;;
                 await (createContentGenerator config gcConfig)) ;;
      write_contentGenerator client ;;;
      ret (client, config)
  end.

End Ai.

(** ** src/agents/index.ts: schemas *)

(** A zod schema of values of type [A]: how it parses an input ([None] when
    [parse] would throw a ZodError) and the shape it describes. *)
Record Schema (A : Type) := {
  z_parse : JsValue -> option A;
  z_shape : ZSchema
}.
Arguments z_parse {A} _ _.
Arguments z_shape {A} _.

(** [z.string()] *)
Definition z_string : Schema string :=
  {| z_parse := fun input => match input with JStr s => Some s | _ => None end;
     z_shape := ZString |}.

(** [z.array(item)] *)
Definition z_array {A} (item : Schema A) : Schema (list A) :=
  {| z_parse := fun input =>
       match input with
       | JArr items => mapM (z_parse item) items
       | _ => None
       end;
     z_shape := ZArray (z_shape item) |}.

(** [schema.describe(description)] *)
Definition z_describe {A} (schema : Schema A) (description : string) : Schema A :=
  {| z_parse := z_parse schema;
     z_shape := ZDescribe (z_shape schema) description |}.

(** [z.object({ k1: s1, k2: s2 })]: the input is an object that is neither
    null nor an array, each key is read from it and parsed, and the other
    keys are dropped. *)
Definition z_object2 {A B R} (k1 : string) (s1 : Schema A) (k2 : string) (s2 : Schema B)
    (mk : A -> B -> R) : Schema R :=
  {| z_parse := fun input =>
       match input with
       | JObj _ =>
           match z_parse s1 (Js.get input k1), z_parse s2 (Js.get input k2) with
           | Some a, Some b => Some (mk a b)
           | _, _ => None
           end
       | _ => None
       end;
     z_shape := ZObject [(k1, z_shape s1); (k2, z_shape s2)] |}.

(** [ResearchPlan = z.infer<typeof researchPlanSchema>] *)
Record ResearchPlan := { questions : list string; rationale : string }.

Definition researchPlanSchema : Schema ResearchPlan :=
  z_object2
    "questions" (z_describe (z_array z_string) "List of research questions.")
    "rationale" (z_describe z_string "Research strategy.")
    Build_ResearchPlan.

(** The ZodError that [parse] throws; its list of issues is left out. *)
Definition ZodError : JsValue := JObj [("name", JStr "ZodError")].

Record Source := { title : option string; uri : option string }.

Record ResearchResult := {
  question : string;
  findings : string;
  sources : list Source
}.

Record Finding := { finding_question : string; finding_findings : string }.

(** ** src/agents/index.ts: calls to the model *)

Record GenerateOptions := {
  useGoogleSearch : option bool;
  jsonSchema : option JsValue
}.

(** [response.candidates?.[0]] *)
Definition first_candidate (response : GenerateContentResponse) : option Candidate :=
  match candidates response with
  | Some cs => cs !! 0%nat
  | None => None
  end.

(** [candidate?.content?.parts] *)
Definition candidate_parts (candidate : option Candidate) : option (list Part) :=
  match candidate with
  | Some c =>
      match candidate_content c with
      | Some content => content_parts content
      | None => None
      end
  | None => None
  end.

(** [x || ""] for an optional string [x] *)
Definition or_empty (x : option string) : string :=
  match x with
  | Some s => if negb (String.eqb s "") then s else ""
  | None => ""
  end.

(** The second half of [generateContent]: the text of the first candidate
    and its grounding metadata. *)
Definition read_response (response : GenerateContentResponse)
  : string * option GroundingMetadata :=
  let candidate := first_candidate response in
  let text :=
    match candidate_parts candidate with
    | Some parts =>
        or_empty (Some (String.concat "" (map (fun p => or_empty (part_text p)) parts)))
    | None => ""
    end in
  (text,
   match candidate with
   | Some c => candidate_groundingMetadata c
   | None => None
   end).

Definition user_contents (userPrompt : string) : list Content :=
  [ {| content_role := Some "user";
       content_parts := Some [ {| part_text := Some userPrompt |} ] |} ].

Section Agents.

Context `{host : Host}.

Record StreamOptions := {
  stream_useGoogleSearch : option bool;
  onText : option (string -> Prog unit);
  onGrounding : option (GroundingMetadata -> Prog unit)
}.

(** [callback?.(x)] *)
Definition call_optional {A} (callback : option (A -> Prog unit)) (x : A) : Prog unit :=
  match callback with
  | Some f => f x
  | None => ret tt
  end.

(** The first half of [generateContent]: the request is built and sent
    through the retry wrapper. *)
Definition request_content (systemInstruction userPrompt : string)
    (options : GenerateOptions) : Prog GenerateContentResponse :=
  initialized <- initializeClient ;;
  let client := fst initialized in
  let contents := user_contents userPrompt in
  let config :=
    {| systemInstruction := systemInstruction;
       maxOutputTokens := 8192;
       tools := if default false (useGoogleSearch options)
                then Some [GoogleSearch] else None;
       responseMimeType :=
         match jsonSchema options with
         | Some schema => if Js.truthy schema then Some "application/json" else None
         | None => None
         end;
       responseJsonSchema :=
         match jsonSchema options with
         | Some schema => if Js.truthy schema then Some schema else None
         | None => None
         end |} in
  let request := {| model := DEFAULT_MODEL; contents := contents; config := config |} in
  withRetry
    (promptId <- ask crypto_randomUUID ;;
     emit (GenerateContent request promptId) ;;;
     await (client_generateContent client request promptId))
    "generateContent".

Definition generateContent (systemInstruction userPrompt : string)
    (options : GenerateOptions) : Prog (string * option GroundingMetadata) :=
  response <- request_content systemInstruction userPrompt options ;;
  ret (read_response response).

(** The inner loop of [streamContent]: [for (const part of parts)]. *)
Fixpoint stream_parts (options : StreamOptions) (parts : list Part)
    (fullText : string) : Prog string :=
  match parts with
  | [] => ret fullText
  | part :: rest =>
      match part_text part with
      | Some text =>
          if negb (String.eqb text "") then
            let fullText := fullText +:+ text in
            call_optional (onText options) text ;;;
            stream_parts options rest fullText
          else stream_parts options rest fullText
      | None => stream_parts options rest fullText
      end
  end.

(** The outer loop of [streamContent]: [for await (const chunk of stream)]. *)
Fixpoint stream_chunks_loop (options : StreamOptions)
    (chunks : list GenerateContentResponse) (fullText : string) : Prog string :=
  match chunks with
  | [] => ret fullText
  | chunk :: rest =>
      let candidate := first_candidate chunk in
      fullText <- match candidate_parts candidate with
                  | Some parts => stream_parts options parts fullText
                  | None => ret fullText
                  end ;;
      match candidate with
      | Some c =>
          match candidate_groundingMetadata c with
          | Some metadata => call_optional (onGrounding options) metadata
          | None => ret tt
          end
      | None => ret tt
      end ;;;
      stream_chunks_loop options rest fullText
  end.

(** The first half of [streamContent]: the request is built and the
    stream is opened through the retry wrapper. *)
Definition request_stream (systemInstruction userPrompt : string)
    (options : StreamOptions) : Prog ResponseStream :=
  initialized <- initializeClient ;;
  let client := fst initialized in
  let contents := user_contents userPrompt in
  let config :=
    {| systemInstruction := systemInstruction;
       maxOutputTokens := 8192;
       tools := if default false (stream_useGoogleSearch options)
                then Some [GoogleSearch] else None;
       responseMimeType := None;
       responseJsonSchema := None |} in
  let request := {| model := DEFAULT_MODEL; contents := contents; config := config |} in
  withRetry
    (promptId <- ask crypto_randomUUID ;;
     emit (GenerateContentStream request promptId) ;;;
     await (client_generateContentStream client request promptId))
    "streamContent".

(** The second half: the stream is read to its end. *)
Definition read_stream (options : StreamOptions) (stream : ResponseStream) : Prog string :=
  let fullText := "" in
  fullText <- stream_chunks_loop options (stream_chunks stream) fullText ;;
  match stream_failure stream with
  | Some error => throw error
  | None => ret fullText
  end.

Definition streamContent (systemInstruction userPrompt : string)
    (options : StreamOptions) : Prog string :=
  stream <- request_stream systemInstruction userPrompt options ;;
  read_stream options stream.

End Agents.

(** ** src/agents/index.ts: the three agents *)

Definition coordinator_instruction : string :=
  "You are a Research Coordinator." +:+ LF
  +:+ "Plan research with 5 focused, searchable questions." +:+ LF
  +:+ "Return your response as JSON matching the schema provided.".

Definition researcher_instruction : string :=
  "You are an expert Research Agent." +:+ LF
  +:+ "Use the Google Search tool to find current, accurate information." +:+ LF
  +:+ "Summarize your findings with citations from the search results." +:+ LF
  +:+ "Be thorough but concise.".

Definition writer_instruction : string :=
  "You are a Senior Technical Writer." +:+ LF
  +:+ "Write a well-structured Markdown report based on the research findings provided." +:+ LF
  +:+ "Include an executive summary, main sections for each finding, and a conclusion." +:+ LF
  +:+ "Use proper markdown formatting with headers, lists, and emphasis where appropriate.".

(** The loop of [runResearcher] over [meta.groundingChunks], pushing one
    source for each chunk that has a [web] field. *)
Fixpoint push_sources (chunks : list GroundingChunk) (sources : list Source) : list Source :=
  match chunks with
  | [] => sources
  | chunk :: rest =>
      match chunk_web chunk with
      | Some web =>
          push_sources rest (sources ++ [ {| title := web_title web; uri := web_uri web |} ])
      | None => push_sources rest sources
      end
  end.

Definition extract_sources (groundingMetadata : option GroundingMetadata) : list Source :=
  let sources := [] in
  match groundingMetadata with
  | Some meta =>
      match groundingChunks meta with
      | Some chunks =>
          if negb (length chunks =? 0)%nat then push_sources chunks sources else sources
      | None => sources
      end
  | None => sources
  end.

(** The prompt of [runWriter]: one block for each finding, joined by rules. *)
Definition writer_context (findings : list Finding) : string :=
  String.concat (LF +:+ LF +:+ "---" +:+ LF +:+ LF)
    (map (fun d => "### Question: " +:+ finding_question d +:+ LF +:+ LF
                   +:+ "Findings:" +:+ LF +:+ finding_findings d) findings).

Definition coordinator_banner (topic : string) : string :=
  LF +:+ ESC +:+ "[36m[Coordinator]" +:+ ESC
  +:+ "[0m Planning research for " +:+ DQ +:+ topic +:+ DQ +:+ "...".

Definition researcher_prompt (question : string) : string :=
  "Research this question: " +:+ question.

Definition researcher_options : GenerateOptions :=
  {| useGoogleSearch := Some true; jsonSchema := None |}.

Definition writer_banner : string :=
  LF +:+ ESC +:+ "[36m[Writer]" +:+ ESC +:+ "[0m Creating report...".

Definition writer_prompt (topic : string) (findings : list Finding) : string :=
  let context := writer_context findings in
  "Topic: " +:+ topic +:+ LF +:+ LF +:+ "Research Findings:" +:+ LF +:+ context.

Section TheAgents.

Context `{host : Host}.

Definition coordinator_options : GenerateOptions :=
  {| useGoogleSearch := None;
     jsonSchema := Some (z_toJSONSchema (z_shape researchPlanSchema)) |}.

Definition runCoordinator (topic : string) : Prog ResearchPlan :=
  console_log (coordinator_banner topic) ;;;
  generated <- generateContent coordinator_instruction ("Topic: " +:+ topic)
                 coordinator_options ;;
  let text := fst generated in
  document <- await (fun w => (JSON_parse text, w)) ;;
  match z_parse researchPlanSchema document with
  | Some plan => ret plan
  | None => throw ZodError
  end.

Definition runResearcher (question : string) : Prog ResearchResult :=
  generated <- generateContent researcher_instruction (researcher_prompt question)
                 researcher_options ;;
  let text := fst generated in
  let groundingMetadata := snd generated in
  let sources := extract_sources groundingMetadata in
  ret {| question := question; findings := text; sources := sources |}.

(** The options of the writer: each fragment goes to the standard output. *)
Definition writer_options : StreamOptions :=
  {| stream_useGoogleSearch := None;
     onText := Some (fun text => emit (StdoutWrite text));
     onGrounding := None |}.

Definition runWriter (topic : string) (findings : list Finding) : Prog string :=
  console_log writer_banner ;;;
  result <- streamContent writer_instruction (writer_prompt topic findings)
              writer_options ;;
  console_log LF ;;;
  ret result.

End TheAgents.

(** ** Async functions that run while other promises are pending

    An async function that is called while other promises are pending is a
    task: it runs until it awaits the outside (a request, a timer), and goes
    on, from the state that the process has reached by then, when the event
    loop resumes it.  An [await] of a promise of the program itself lets
    nothing of the outside in, and is not a point of suspension. *)

Section Tasks.

Context `{host : Host}.

(** A task has ended, or it waits for the outside; [resume] is the rest of
    it, from the state in which it is resumed to its next suspension. *)
Inductive Task (A : Type) : Type :=
| Finished (r : Res A)
| Pending (resume : State -> Task A * State).

(** An async function, from its call to its first suspension. *)
Definition Async (A : Type) : Type := State -> Task A * State.

End Tasks.

Arguments Finished {host A} r.
Arguments Pending {host A} resume.

Section TaskOperations.

Context `{host : Host}.

(** A piece of the program that does not wait for the outside. *)
Definition sync {A} (m : Prog A) : Async A :=
  fun s => let '(r, s') := m s in (Finished r, s').

(** Ask the outside world and await its answer: the call is made now, and
    the task goes on when the promise has settled. *)
Definition settle {A} (oracle : World -> Settled A * World) : Async A :=
  fun s =>
    let '(r, w) := oracle (world s) in
    (Pending (fun s' =>
                (Finished match r with
                          | Fulfilled a => Ok a
                          | Rejected e => Throw e
                          end, s')),
     {| world := w; trace := trace s;
        contentGenerator := contentGenerator s;
        generatorConfig := generatorConfig s |}).

Fixpoint task_then {A B} (t : Task A) (f : A -> Async B) : Async B :=
  fun s =>
    match t with
    | Finished (Ok a) => f a s
    | Finished (Throw e) => (Finished (Throw e), s)
    | Finished (Exit c) => (Finished (Exit c), s)
    | Pending resume =>
        (Pending (fun s' => let '(t', s'') := resume s' in task_then t' f s''), s)
    end.

(** [const a = await m; f a] *)
Definition and_then {A B} (m : Async A) (f : A -> Async B) : Async B :=
  fun s => let '(t, s') := m s in task_then t f s'.

Fixpoint task_catch {A} (t : Task A) (handler : JsValue -> Async A) : Async A :=
  fun s =>
    match t with
    | Finished (Throw e) => handler e s
    | Finished r => (Finished r, s)
    | Pending resume =>
        (Pending (fun s' => let '(t', s'') := resume s' in task_catch t' handler s''), s)
    end.

(** [try { return await m } catch (error) { handler error }] *)
Definition catching {A} (m : Async A) (handler : JsValue -> Async A) : Async A :=
  fun s => let '(t, s') := m s in task_catch t handler s'.

(** A task that nothing interrupts: it is resumed as soon as it waits. *)
Fixpoint run_task {A} (t : Task A) : Prog A :=
  fun s =>
    match t with
    | Finished r => (r, s)
    | Pending resume => let '(t', s') := resume s in run_task t' s'
    end.

Definition alone {A} (m : Async A) : Prog A :=
  fun s => let '(t, s') := m s in run_task t s'.

(** A part of a task, from a call or a resumption to the next suspension;
    [process.exit] ends the process there. *)
Definition run_part {A} (part : State -> Task A * State) : Prog (Task A) :=
  fun s =>
    let '(t, s') := part s in
    match t with
    | Finished (Exit c) => (Exit c, s')
    | _ => (Ok t, s')
    end.

End TaskOperations.

Notation "x <~ m ;; f" := (and_then m (fun x => f))
  (at level 100, m at next level, right associativity, only parsing).
Notation "m ;;~ f" := (and_then m (fun _ => f))
  (at level 100, right associativity, only parsing).

(** The functions that the research phase of index.ts runs together, as
    tasks: [initializeClient] of src/ai.ts, and [sleep], [withRetry],
    [generateContent] and [runResearcher] of src/agents/index.ts. *)
Module Concurrent.

Section Functions.

Context `{host : Host}.

(** [sleep(ms)]: the timer is set, and the task goes on when it fires. *)
Definition sleep (ms : Z) : Async unit :=
  sync (emit (Sleep ms)) ;;~
  fun s => (Pending (fun s' => (Finished (Ok tt), s')), s).

Fixpoint withRetry_loop {T} (fn : Async T) (context : string)
    (remaining attempt : nat) (lastError : JsValue) : Async T :=
  match remaining with
  | O => sync (throw lastError)
  | S remaining' =>
      catching fn (fun error =>
        if negb (isRateLimitError error) then sync (throw error)
        else
          (if (attempt <? MAX_RETRIES - 1)%nat then
             let delay := retry_delay attempt in
             sync (console_log (retry_message context delay attempt)) ;;~
             sleep delay
           else sync (ret tt)) ;;~
          withRetry_loop fn context remaining' (S attempt) error)
  end.

Definition withRetry {T} (fn : Async T) (context : string) : Async T :=
  withRetry_loop fn context MAX_RETRIES 0 JUndefined.

(** [initializeClient]: what it returns is read from the module variables,
    which another task may have written since this one wrote them. *)
Definition initializeClient : Async (ContentGenerator * ContentGeneratorConfig) :=
  cached_client <~ sync read_contentGenerator ;;
  cached_config <~ sync read_generatorConfig ;;
  match cached_client, cached_config with
  | Some client, Some config => sync (ret (client, config))
  | _, _ =>
      let gcConfig := makeFakeConfig in
      config <~ (sync (emit CreateContentGeneratorConfig) ;;~
                 settle (createContentGeneratorConfig gcConfig)) ;;
      sync (write_generatorConfig config) ;;~
      client <~ (sync (emit CreateContentGenerator) ;;~
                 settle (createContentGenerator config gcConfig)) ;;
      sync (write_contentGenerator client) ;;~
      stored_client <~ sync read_contentGenerator ;;
      stored_config <~ sync read_generatorConfig ;;
      sync (ret (default client stored_client, default config stored_config))
  end.

Definition generateContent (systemInstruction userPrompt : string)
    (options : GenerateOptions) : Async (string * option GroundingMetadata) :=
  initialized <~ initializeClient ;;
  let client := fst initialized in
  let contents := user_contents userPrompt in
  let config :=
    {| systemInstruction := systemInstruction;
       maxOutputTokens := 8192;
       tools := if default false (useGoogleSearch options)
                then Some [GoogleSearch] else None;
       responseMimeType :=
         match jsonSchema options with
         | Some schema => if Js.truthy schema then Some "application/json" else None
         | None => None
         end;
       responseJsonSchema :=
         match jsonSchema options with
         | Some schema => if Js.truthy schema then Some schema else None
         | None => None
         end |} in
  let request := {| model := DEFAULT_MODEL; contents := contents; config := config |} in
  response <~ withRetry
                (promptId <~ sync (ask crypto_randomUUID) ;;
                 sync (emit (GenerateContent request promptId)) ;;~
                 settle (client_generateContent client request promptId))
                "generateContent" ;;
  sync (ret (read_response response)).

Definition runResearcher (question : string) : Async ResearchResult :=
  generated <~ generateContent researcher_instruction (researcher_prompt question)
                 researcher_options ;;
  let text := fst generated in
  let groundingMetadata := snd generated in
  let sources := extract_sources groundingMetadata in
  sync (ret {| question := question; findings := text; sources := sources |}).

End Functions.

End Concurrent.

(** ** [String.prototype.trim]

    The white space and line terminator code points of ECMAScript, as the
    UTF-8 byte sequences that encode them: U+0009 to U+000D, U+0020, U+00A0,
    U+1680, U+2000 to U+200A, U+2028, U+2029, U+202F, U+205F, U+3000 and
    U+FEFF. *)

Definition utf8 (bytes : list nat) : list ascii := map ascii_of_nat bytes.

Definition whitespace : list (list ascii) :=
  [ utf8 [9%nat]; utf8 [10%nat]; utf8 [11%nat]; utf8 [12%nat]; utf8 [13%nat];
    utf8 [32%nat];
    utf8 [194; 160]%nat;
    utf8 [225; 154; 128]%nat;
    utf8 [226; 128; 128]%nat; utf8 [226; 128; 129]%nat; utf8 [226; 128; 130]%nat;
    utf8 [226; 128; 131]%nat; utf8 [226; 128; 132]%nat; utf8 [226; 128; 133]%nat;
    utf8 [226; 128; 134]%nat; utf8 [226; 128; 135]%nat; utf8 [226; 128; 136]%nat;
    utf8 [226; 128; 137]%nat; utf8 [226; 128; 138]%nat;
    utf8 [226; 128; 168]%nat; utf8 [226; 128; 169]%nat;
    utf8 [226; 128; 175]%nat;
    utf8 [226; 129; 159]%nat;
    utf8 [227; 128; 128]%nat;
    utf8 [239; 187; 191]%nat ].

(** [strip_prefix tok s]: the rest of [s] after its prefix [tok]. *)
Fixpoint strip_prefix (tok s : list ascii) : option (list ascii) :=
  match tok with
  | [] => Some s
  | c :: tok' =>
      match s with
      | d :: s' => if Ascii.eqb c d then strip_prefix tok' s' else None
      | [] => None
      end
  end.

Fixpoint strip_any (toks : list (list ascii)) (s : list ascii) : option (list ascii) :=
  match toks with
  | [] => None
  | tok :: rest =>
      match strip_prefix tok s with
      | Some r => Some r
      | None => strip_any rest s
      end
  end.

(** Drop leading tokens as long as there is one; [fuel] bounds the number of
    tokens dropped, and the length of the string is enough. *)
Fixpoint drop_tokens (toks : list (list ascii)) (fuel : nat) (s : list ascii) : list ascii :=
  match fuel with
  | O => s
  | S fuel' =>
      match strip_any toks s with
      | Some r => drop_tokens toks fuel' r
      | None => s
      end
  end.

Definition trimStart_bytes (s : list ascii) : list ascii :=
  drop_tokens whitespace (length s) s.

Definition trimEnd_bytes (s : list ascii) : list ascii :=
  rev (drop_tokens (map (@rev ascii) whitespace) (length s) (rev s)).

Definition trim (s : string) : string :=
  String.string_of_list_ascii
    (trimEnd_bytes (trimStart_bytes (String.list_ascii_of_string s))).

(** ** index.ts: the command line driver *)

(** The [values] of [parseArgs]: [output] has a default, [topic] is optional. *)
Record Values := { values_output : string; values_topic : option string }.

Definition default_output : string := "output/output.md".

Definition topic_prompt : string := LF +:+ "🎯 Enter a research topic: ".

(** [title || uri] inside a template literal *)
Definition source_label (source : Source) : string :=
  match title source with
  | Some t => if negb (String.eqb t "") then t else default "undefined" (uri source)
  | None => default "undefined" (uri source)
  end.

(** The [k]-th element of the non-empty list [x :: xs] (the last one when
    [k] is too large) and the list without it. *)
Fixpoint take_nth {A} (k : nat) (x : A) (xs : list A) : A * list A :=
  match k, xs with
  | S k', y :: ys => let '(e, r) := take_nth k' y ys in (e, x :: r)
  | _, _ => (x, xs)
  end.

(** Put [x] at position [k] of [xs] (at the end when [k] is too large). *)
Definition put_back {A} (k : nat) (x : A) (xs : list A) : list A :=
  take k xs ++ x :: drop k xs.

Section Driver.

Context `{host : Host}.

Fixpoint for_each {A} (l : list A) (body : A -> Prog unit) : Prog unit :=
  match l with
  | [] => ret tt
  | x :: rest => body x ;;; for_each rest body
  end.

(** [await rl.question(prompt)] *)
Definition rl_question (prompt : string) : Prog string :=
  emit (RlQuestion prompt) ;;; ask (rl_answer prompt).

(** The calls of [fns.map(fn => fn())]: each function runs to its first
    suspension, in order. *)
Fixpoint start_all {A} (fns : list (Async A)) : Prog (list (Task A)) :=
  match fns with
  | [] => ret []
  | fn :: rest =>
      task <- run_part fn ;;
      tasks <- start_all rest ;;
      ret (task :: tasks)
  end.

(** What [Promise.all] sees of the promises right after the calls: the
    values of those that are fulfilled and the promises that wait, or the
    first rejection. *)
Fixpoint seen_at_once {A} (index : nat) (tasks : list (Task A)) (values : list (option A))
  : Res (list (option A) * list (nat * (State -> Task A * State))) :=
  match tasks with
  | [] => Ok (values, [])
  | task :: rest =>
      match task with
      | Finished (Ok value) =>
          seen_at_once (S index) rest (<[index := Some value]> values)
      | Finished (Throw e) => Throw e
      | Finished (Exit c) => Exit c
      | Pending resume =>
          match seen_at_once (S index) rest values with
          | Ok (values', pending) => Ok (values', (index, resume) :: pending)
          | Throw e => Throw e
          | Exit c => Exit c
          end
      end
  end.

(** The event loop while [Promise.all] is awaited: of the promises that
    wait for the outside, the one that the event loop chooses is resumed
    and runs to its next suspension or to its end; the value of the promise
    at [index] is stored at [values[index]]; a rejection rejects the whole,
    and the promises that still wait are left behind.  [fuel] bounds the
    number of resumptions. *)
Fixpoint promise_all_loop {A} (pending : list (nat * (State -> Task A * State)))
    (fuel : nat) (values : list (option A)) : Prog (list (option A)) :=
  match fuel, pending with
  | S fuel', p :: ps =>
      k <- ask (next_settled (length pending)) ;;
      let '((index, resume), others) := take_nth k p ps in
      task <- run_part resume ;;
      match task with
      | Finished (Ok value) =>
          promise_all_loop others fuel' (<[index := Some value]> values)
      | Finished (Throw e) => throw e
      | Finished (Exit c) => process_exit c
      | Pending resume' =>
          promise_all_loop (put_back k (index, resume') others) fuel' values
      end
  | _, _ => ret values
  end.

(** [await Promise.all(fns.map(fn => fn()))]: every function is called,
    and then the promises settle as the event loop chooses. *)
Definition promise_all {A} (fuel : nat) (fns : list (Async A)) : Prog (list A) :=
  tasks <- start_all fns ;;
  match seen_at_once 0 tasks (replicate (length fns) None) with
  | Ok (values, pending) =>
      values <- promise_all_loop pending fuel values ;;
      ret (omap id values)
  | Throw e => throw e
  | Exit c => process_exit c
  end.

Definition show_result (result : ResearchResult) : Prog unit :=
  console_log (LF +:+ ESC +:+ "[36m[Research]" +:+ ESC +:+ "[0m " +:+ question result) ;;;
  console_log (findings result) ;;;
  (if (0 <? length (sources result))%nat then
     console_log (LF +:+ ESC +:+ "[32m[Sources]" +:+ ESC +:+ "[0m") ;;;
     for_each (sources result) (fun source => console_log ("  - " +:+ source_label source))
   else ret tt) ;;;
  console_log "-----------------------------------------------".

(** The research phase of [main]: one promise for each question, awaited
    together.  A researcher waits for the outside at most 11 times (twice
    when it creates the client, and in the retry wrapper for 5 requests
    and 4 timers), which the fuel covers. *)
Definition research_all (questions : list string) : Prog (list ResearchResult) :=
  let researchPromises :=
    imap (fun index question =>
            result <~ Concurrent.runResearcher question ;;
            sync (console_log ("  ✓ Q" +:+ pretty (index + 1)%nat +:+ ": " +:+ question)) ;;~
            sync (ret result)) questions in
  promise_all (12 * length questions) researchPromises.

(** The body of the [try] block of [main]. *)
Definition pipeline (topic outputFile : string) : Prog unit :=
  console_log (LF +:+ ESC +:+ "[36m[Phase 1: Planning]" +:+ ESC +:+ "[0m") ;;;
  plan <- runCoordinator topic ;;
  console_log (LF +:+ "📋 " +:+ ESC +:+ "[1mStrategy:" +:+ ESC +:+ "[0m " +:+ rationale plan) ;;;
  console_log ("❓ " +:+ ESC +:+ "[1mResearch Questions:" +:+ ESC +:+ "[0m") ;;;
  for_each (imap (fun i q => (i, q)) (questions plan))
    (fun iq => console_log ("   " +:+ pretty (fst iq + 1)%nat +:+ ". " +:+ snd iq)) ;;;
  console_log (LF +:+ ESC +:+ "[36m[Phase 2: Researching (with Google Search)]" +:+ ESC +:+ "[0m") ;;;
  console_log ("Researching " +:+ pretty (length (questions plan))
               +:+ " questions in parallel..." +:+ LF) ;;;
  results <- research_all (questions plan) ;;
  for_each results show_result ;;;
  let findings :=
    map (fun r => {| finding_question := question r; finding_findings := findings r |})
        results in
  console_log (LF +:+ ESC +:+ "[36m[Phase 3: Writing Report]" +:+ ESC +:+ "[0m") ;;;
  report <- runWriter topic findings ;;
  (emit (Mkdir (path_dirname outputFile)) ;;; await (fs_mkdir (path_dirname outputFile))) ;;;
  (emit (WriteFile outputFile report) ;;; await (fs_writeFile outputFile report)) ;;;
  console_log (LF +:+ "📁 Report saved to: " +:+ outputFile) ;;;
  console_log (LF +:+ "✅ " +:+ ESC +:+ "[1mProcess Complete!" +:+ ESC +:+ "[0m").

(** [!topic] for the optional string of the command line *)
Definition topic_missing (topic : option string) : bool :=
  match topic with
  | Some t => String.eqb t ""
  | None => true
  end.

(** The head of [main]: the banner, and the topic from the command line
    or, when there is none ([!topic]), from the prompt. *)
Definition read_topic (values : Values) : Prog string :=
  let outputFile := values_output values in
  emit ConsoleClear ;;;
  console_log ("🤖 " +:+ ESC +:+ "[1mGemini Agentic Research Framework (v3)" +:+ ESC +:+ "[0m") ;;;
  console_log "Using gemini-cli OAuth + Google Search Grounding" ;;;
  console_log "-----------------------------------------------" ;;;
  console_log ("📄 Output will be saved to: " +:+ outputFile) ;;;
  if topic_missing (values_topic values) then
    rl_question topic_prompt
  else
    let topic := default "" (values_topic values) in
    console_log (LF +:+ "🎯 Research topic: " +:+ topic) ;;;
    ret topic.

Definition main (values : Values) : Prog unit :=
  let outputFile := values_output values in
  topic <- read_topic values ;;
  (if String.eqb (trim topic) "" then
     console_error "❌ Topic is required." None ;;;
     process_exit 1
   else ret tt) ;;;
  try_finally
    (try_catch (pipeline topic outputFile)
       (fun error => console_error (LF +:+ "❌ An error occurred:") (Some error)))
    (emit RlClose ;;; process_exit 0).

End Driver.

(** ** The tool-calling variant of the pipeline

    The sources hold a second variant of the tool, built on the agents of
    the [ai] package: the search tool src/tools/search.ts, the agents and
    [runAgentStream] of src/agents/index.ts, and the driver index.ts that
    prints (v2).  The names of this variant live in the module [V2]. *)

(** [hay.includes(needle)] for strings *)
Fixpoint includes (needle hay : string) : bool :=
  String.prefix needle hay
  || match hay with
     | String _ rest => includes needle rest
     | EmptyString => false
     end.

(** The TypeError that reading a property of [undefined] or [null], or
    calling what is not a function, throws; its message is left out. *)
Definition TypeError : JsValue := JObj [("name", JStr "TypeError")].

(** [new Error(message)] *)
Definition new_Error (message : string) : JsValue :=
  JObj [("name", JStr "Error"); ("message", JStr message)].

(** How [error.message?.includes(needle)] ends for a caught value: a
    TypeError is thrown ([error] is [undefined] or [null], or the message
    has no [includes] method), the chain is cut short because there is no
    message, or [includes] answers. *)
Variant Chained : Type :=
| Raises
| Skipped
| Answers (b : bool).

Definition message_includes (error : JsValue) (needle : string) : Chained :=
  match error with
  | JUndefined | JNull => Raises
  | _ =>
      match Js.get error "message" with
      | JUndefined | JNull => Skipped
      | JStr message => Answers (includes needle message)
      | JArr items =>
          Answers (existsb (fun item => match item with
                                        | JStr s => String.eqb s needle
                                        | _ => false
                                        end) items)
      | _ => Raises
      end
  end.

Module V2.

(** *** The types of duck-duck-scrape and of the [ai] package that the
    sources read and build *)

Record SearchResult := { title : string; description : string; url : string }.

Record SearchResults := { results : option (list SearchResult) }.

Record SearchOptions := { safeSearch : string }.

(** What the search tool hands back to the agent: a message, or the hits. *)
Variant ToolOutput : Type :=
| Message (text : string)
| Hits (items : list SearchResult).

(** A part of the full stream of an agent, as [runAgentStream] reads it. *)
Record StreamPart := {
  type : string;
  textDelta : option string;
  toolName : option string;
  error : JsValue
}.

(** The full stream: the parts that arrive, in arrival order, and how the
    stream ends. *)
Record AgentStream := {
  fullStream : list StreamPart;
  fullStream_failure : option JsValue
}.

Record GenerateResult := { output : option ResearchPlan }.

Record ModelSettings := {
  modelId : string;
  maxOutputTokens : Z;
  includeThoughts : bool
}.

Section Types.

Context `{host : Host}.

(** [tool({ description, inputSchema, execute })] *)
Record ToolDef := {
  tool_description : string;
  inputSchema : ZSchema;
  execute : string -> Prog ToolOutput
}.

(** The settings of a [ToolLoopAgent]. *)
Record Agent := {
  agent_model : ModelSettings;
  instructions : string;
  agent_output : option ZSchema;
  tools : list (string * ToolDef);
  stopWhen : option nat
}.

End Types.

(** The collaborators of this variant that are not code of the repository:
    the search of duck-duck-scrape, the agents of the [ai] package (what an
    agent does while it runs, its calls of the tools included, belongs to
    the outside), and the string that a template literal makes of a value. *)
Class Sdk `{host : Host} := {
  search : string -> SearchOptions -> World -> Settled SearchResults * World;
  agent_generate : Agent -> string -> World -> Settled GenerateResult * World;
  agent_stream : Agent -> string -> World -> Settled AgentStream * World;
  template_string : JsValue -> string
}.

Section Tools.

Context `{host : Host} `{sdk : !Sdk}.

(** *** src/tools/search.ts *)

Definition sleep (ms : Z) : Prog unit := emit (Sleep ms).

Definition rate_limit_message : string :=
  "Search failed due to rate limits. Please summarize what you already know or try a very different query later.".

Definition searchTool : ToolDef :=
  {| tool_description := "Search the web for information about a specific topic.";
     inputSchema := ZObject [("query", ZString)];
     execute := fun query =>
       try_catch
         (console_log (LF +:+ "[Tool] Searching for: " +:+ DQ +:+ query +:+ DQ +:+ "...") ;;;
          sleep 3000 ;;;
          found <- await (search query {| safeSearch := "STRICT" |}) ;;
          match results found with
          | Some items =>
              if (length items =? 0)%nat then ret (Message "No results found.")
              else ret (Hits (map (fun r => {| title := title r;
                                               description := description r;
                                               url := url r |})
                                  (take 3 items)))
          | None => ret (Message "No results found.")
          end)
         (fun error =>
            match message_includes error "anomaly" with
            | Raises => throw TypeError
            | Answers true =>
                console_error "[Tool] Rate limited by DuckDuckGo. Try again later." None ;;;
                ret (Message rate_limit_message)
            | _ =>
                console_error "Search failed:" (Some error) ;;;
                ret (Message "An error occurred while searching.")
            end) |}.

(** *** src/agents/index.ts *)

Definition model (id : string) : ModelSettings :=
  {| modelId := id; maxOutputTokens := 8192; includeThoughts := false |}.

Definition defaultModel : ModelSettings := model "gemini-3-flash-preview".

Definition coordinatorAgent : Agent :=
  {| agent_model := defaultModel;
     instructions := "You are a Research Coordinator." +:+ LF
                     +:+ "  Plan research with 3 focused, searchable questions.";
     agent_output :=
       Some (ZObject [("questions", ZDescribe (ZArray ZString) "List of research questions.");
                      ("rationale", ZDescribe ZString "Research strategy.")]);
     tools := [];
     stopWhen := None |}.

Definition researcherAgent : Agent :=
  {| agent_model := defaultModel;
     instructions := "You are an expert Research Agent." +:+ LF
                     +:+ "  Use 'search' ONCE per question to find info. " +:+ LF
                     +:+ "  Summarize findings with citations.";
     agent_output := None;
     tools := [("search", searchTool)];
     stopWhen := Some 3%nat |}.

Definition writerAgent : Agent :=
  {| agent_model := defaultModel;
     instructions := "You are a Senior Technical Writer." +:+ LF
                     +:+ "  Write a Markdown report based on findings.";
     agent_output := None;
     tools := [];
     stopWhen := None |}.

(** [`${part.toolName}`] *)
Definition toolName_string (part : StreamPart) : string :=
  default "undefined" (toolName part).

(** The body of the loop of [runAgentStream] for one part. *)
Definition stream_part (part : StreamPart) (fullText : string) : Prog string :=
  if String.eqb (type part) "text-delta" && negb (String.eqb (default "" (textDelta part)) "")
  then
    let delta := default "" (textDelta part) in
    emit (StdoutWrite delta) ;;;
    ret (fullText +:+ delta)
  else if String.eqb (type part) "tool-call" then
    console_log (LF +:+ ESC +:+ "[33m[Agent Action: " +:+ toolName_string part +:+ "]" +:+ ESC +:+ "[0m") ;;;
    ret fullText
  else if String.eqb (type part) "tool-result" then
    console_log (ESC +:+ "[32m[Action Result: " +:+ toolName_string part +:+ "]" +:+ ESC +:+ "[0m") ;;;
    ret fullText
  else if String.eqb (type part) "error" then
    console_error (LF +:+ ESC +:+ "[31m[Agent Error]" +:+ ESC +:+ "[0m "
                   +:+ template_string (error part)) None ;;;
    ret fullText
  else ret fullText.

(** [for await (const part of result.fullStream)] *)
Fixpoint stream_loop (parts : list StreamPart) (fullText : string) : Prog string :=
  match parts with
  | [] => ret fullText
  | part :: rest =>
      fullText <- stream_part part fullText ;;
      stream_loop rest fullText
  end.

(** The second half of [runAgentStream]: the full stream is read to its
    end. *)
Definition read_fullStream (result : AgentStream) : Prog string :=
  let fullText := "" in
  fullText <- stream_loop (fullStream result) fullText ;;
  match fullStream_failure result with
  | Some error => throw error
  | None =>
      emit (StdoutWrite LF) ;;;
      ret fullText
  end.

Definition runAgentStream (agent : Agent) (prompt : string) : Prog string :=
  result <- await (agent_stream agent prompt) ;;
  read_fullStream result.

(** *** index.ts, the driver that prints (v2) *)

(** The loop of [main] over the questions of the plan. *)
Fixpoint research_loop (questions : list string) (findings : list Finding)
  : Prog (list Finding) :=
  match questions with
  | [] => ret findings
  | question :: rest =>
      console_log (LF +:+ "🔎 Investigating: " +:+ DQ +:+ question +:+ DQ) ;;;
      result <- runAgentStream researcherAgent ("Research this question: " +:+ question) ;;
      let findings :=
        findings ++ [ {| finding_question := question; finding_findings := result |} ] in
      console_log (LF +:+ "---------------------------------------") ;;;
      research_loop rest findings
  end.

(** The body of the [try] block of [main]. *)
Definition pipeline (topic : string) : Prog unit :=
  console_log (LF +:+ ESC +:+ "[36m[Phase 1: Planning]" +:+ ESC +:+ "[0m") ;;;
  console_log ("🤖 Coordinator: Planning research for " +:+ DQ +:+ topic +:+ DQ +:+ "...") ;;;
  generated <- await (agent_generate coordinatorAgent ("Topic: " +:+ topic)) ;;
  plan <- match output generated with
          | Some plan => ret plan
          | None => throw (new_Error "Failed to generate a research plan.")
          end ;;
  console_log (LF +:+ "📋 " +:+ ESC +:+ "[1mStrategy:" +:+ ESC +:+ "[0m " +:+ rationale plan) ;;;
  console_log ("❓ " +:+ ESC +:+ "[1mResearch Questions:" +:+ ESC +:+ "[0m") ;;;
  for_each (imap (fun i q => (i, q)) (questions plan))
    (fun iq => console_log ("   " +:+ pretty (fst iq + 1)%nat +:+ ". " +:+ snd iq)) ;;;
  let findings := [] in
  console_log (LF +:+ ESC +:+ "[36m[Phase 2: Researching]" +:+ ESC +:+ "[0m") ;;;
  findings <- research_loop (questions plan) findings ;;
  console_log (LF +:+ ESC +:+ "[36m[Phase 3: Writing Report]" +:+ ESC +:+ "[0m") ;;;
  let context := writer_context findings in
  runAgentStream writerAgent
    ("Topic: " +:+ topic +:+ LF +:+ LF +:+ "Research Findings:" +:+ LF +:+ context) ;;;
  console_log (LF +:+ "✅ " +:+ ESC +:+ "[1mProcess Complete!" +:+ ESC +:+ "[0m").

Definition main : Prog unit :=
  emit ConsoleClear ;;;
  console_log ("🤖 " +:+ ESC +:+ "[1mGemini Agentic Research Framework (v2)" +:+ ESC +:+ "[0m") ;;;
  console_log "---------------------------------------" ;;;
  topic <- rl_question (LF +:+ "🎯 Enter a research topic: ") ;;
  (if String.eqb (trim topic) "" then
     console_error "❌ Topic is required." None ;;;
     process_exit 1
   else ret tt) ;;;
  try_finally
    (try_catch (pipeline topic)
       (fun error => console_error (LF +:+ "❌ An error occurred:") (Some error)))
    (emit RlClose ;;; process_exit 0).

End Tools.

End V2.

(** ** Observations on traces and operations *)

(** The delays slept, in order. *)
Definition waits (tr : list Event) : list Z :=
  omap (fun ev => match ev with Sleep ms => Some ms | _ => None end) tr.

(** The total time slept. *)
Definition total_wait (tr : list Event) : Z := foldr Z.add 0 (waits tr).

Definition is_invocation (label : string) (ev : Event) : bool :=
  match ev with
  | Invoke l => String.eqb l label
  | _ => false
  end.

(** How often the operation labelled [label] was invoked. *)
Definition invocations (label : string) (tr : list Event) : nat :=
  length (List.filter (is_invocation label) tr).

(** What is written to the standard output, in order. *)
Definition stdout_writes (tr : list Event) : list string :=
  omap (fun ev => match ev with StdoutWrite text => Some text | _ => None end) tr.

(** Client initialization and requests to the model. *)
Definition is_network_call (ev : Event) : bool :=
  match ev with
  | CreateContentGeneratorConfig | CreateContentGenerator
  | GenerateContent _ _ | GenerateContentStream _ _ => true
  | _ => false
  end.

Definition network_calls (tr : list Event) : list Event := List.filter is_network_call tr.

(** The delays before the first [n] retries. *)
Definition backoff_delays (n : nat) : list Z := map retry_delay (seq 0 n).

Definition rate_limited {T} (outcome : Settled T) : bool :=
  match outcome with
  | Rejected e => isRateLimitError e
  | Fulfilled _ => false
  end.

(** How an outcome of the operation ends the wrapper. *)
Definition res_of_settled {T} (outcome : Settled T) : Res T :=
  match outcome with
  | Fulfilled v => Ok v
  | Rejected e => Throw e
  end.

Section Operations.

Context `{host : Host} {T : Type}.

(** An async operation handed to the wrapper: each invocation is recorded
    and settles as the outside world decides. *)
Definition operation (label : string) (oracle : World -> Settled T * World) : Prog T :=
  emit (Invoke label) ;;; await oracle.

(** The world after [n] invocations of the operation. *)
Fixpoint world_after (oracle : World -> Settled T * World) (n : nat) (w : World) : World :=
  match n with
  | O => w
  | S n' => world_after oracle n' (snd (oracle w))
  end.

(** How invocation number [n] (counting from 0) settles. *)
Definition nth_outcome (oracle : World -> Settled T * World) (n : nat) (w : World)
  : Settled T :=
  fst (oracle (world_after oracle n w)).

End Operations.

(** ** The vocabulary of the statements *)

(** What the wrapper does between a rate-limited invocation in iteration
    [attempt] and the next one. *)
Definition backoff_events (context : string) (attempt : nat) : list Event :=
  if (attempt <? MAX_RETRIES - 1)%nat then
    [ConsoleLog (retry_message context (retry_delay attempt) attempt);
     Sleep (retry_delay attempt)]
  else [].

Fixpoint failures_trace (label context : string) (n attempt : nat) : list Event :=
  match n with
  | O => []
  | S n' => Invoke label :: backoff_events context attempt
            ++ failures_trace label context n' (S attempt)
  end.

(** Round [a] of the wrapper on a rate-limited operation: the operation is
    invoked and fails, and the wrapper reports the retry and waits
    [1000 * 2 ^ a] ms. *)
Definition retry_round (label context : string) (a : nat) : list Event :=
  [Invoke label;
   ConsoleLog (retry_message context (1000 * 2 ^ Z.of_nat a) a);
   Sleep (1000 * 2 ^ Z.of_nat a)].

(** The first [k] rounds. *)
Definition retry_rounds (label context : string) (k : nat) : list Event :=
  concat (map (retry_round label context) (seq 0 k)).

Section RetrySpecs.

Context `{host : Host} {T : Type}.
Variables (label context : string) (oracle : World -> Settled T * World).

(** The state after one more invocation that settled. *)
Definition invoked (s : State) : State :=
  set_world (snd (oracle (world s))) (log_events [Invoke label] s).

(** The state after [n] invocations that failed with a rate-limit error,
    the first of them in iteration [a]. *)
Fixpoint after_failures (n a : nat) (s : State) : State :=
  match n with
  | O => s
  | S n' => after_failures n' (S a) (log_events (backoff_events context a) (invoked s))
  end.

End RetrySpecs.

(** A string made of tokens of [toks] only. *)
Inductive tokens_only (toks : list (list ascii)) : list ascii -> Prop :=
| tokens_nil : tokens_only toks []
| tokens_cons tok s :
    In tok toks -> tokens_only toks s -> tokens_only toks (tok ++ s).

(** Empty, or white space only. *)
Definition blank (s : string) : Prop :=
  tokens_only whitespace (String.list_ascii_of_string s).

(** No token is empty, and none is a proper prefix of another. *)
Definition prefix_free (toks : list (list ascii)) : bool :=
  forallb (fun t1 =>
    negb (length t1 =? 0)%nat
    && forallb (fun t2 =>
         match strip_prefix t1 t2 with
         | Some r => (length r =? 0)%nat
         | None => true
         end) toks) toks.

Definition exits {A} (r : Res A) : bool :=
  match r with
  | Exit _ => true
  | _ => false
  end.

Section ProgramSpecs.

Context `{host : Host}.

(** A piece of the program that never ends the process. *)
Definition no_exit {A} (m : Prog A) : Prop := forall s, exits (fst (m s)) = false.

(** Callbacks that never end the process. *)
Definition quiet_callbacks (options : StreamOptions) : Prop :=
  (forall f text, onText options = Some f -> no_exit (f text))
  /\ (forall f md, onGrounding options = Some f -> no_exit (f md)).

(** The topic of a run: the value of [--topic], or the line typed at the
    prompt when there is none or it is empty. *)
Definition run_topic (values : Values) (w : World) : string :=
  if topic_missing (values_topic values) then fst (rl_answer topic_prompt w)
  else default "" (values_topic values).

End ProgramSpecs.

(** The order in which promises that wait once settle when the event loop
    makes the given choices. *)
Fixpoint settling_order {A} (choices : list nat) (pending : list A) : list A :=
  match choices, pending with
  | k :: rest, p :: ps =>
      let '(e, pending') := take_nth k p ps in
      e :: settling_order rest pending'
  | _, _ => []
  end.

(** One source for each chunk that has a [web] field, in order. *)
Definition web_sources (chunks : list GroundingChunk) : list Source :=
  omap (fun chunk =>
          match chunk_web chunk with
          | Some web => Some {| title := web_title web; uri := web_uri web |}
          | None => None
          end) chunks.

(** The grounding metadata of a response: that of its first candidate. *)
Definition response_metadata (response : GenerateContentResponse) : option GroundingMetadata :=
  match candidates response with
  | Some (c :: _) => candidate_groundingMetadata c
  | _ => None
  end.

(** The text fragments of a chunk of a stream: the texts of the parts of
    its first candidate. *)
Definition chunk_fragments (chunk : GenerateContentResponse) : list string :=
  match candidates chunk with
  | Some (c :: _) =>
      match candidate_content c with
      | Some content =>
          match content_parts content with
          | Some parts => omap part_text parts
          | None => []
          end
      | None => []
      end
  | _ => []
  end.

(** All text fragments of a stream, in arrival order. *)
Definition stream_fragments (stream : ResponseStream) : list string :=
  concat (map chunk_fragments (stream_chunks stream)).

Definition nonempty (s : string) : bool := negb (String.eqb s "").

(** ** Specifications of programs by their traces *)

Section TraceSpecs.

Context `{host : Host}.

(** A property of states that depends on the module variables of src/ai.ts
    only. *)
Definition cache_only (I : State -> Prop) : Prop :=
  forall s s',
    contentGenerator s' = contentGenerator s ->
    generatorConfig s' = generatorConfig s ->
    I s -> I s'.

(** A piece of the program that keeps [I] and whose events all satisfy [P],
    however it ends. *)
Definition keeps {A} (I : State -> Prop) (P : Event -> Prop) (m : Prog A) : Prop :=
  forall s, I s ->
    I (snd (m s)) /\ exists evs, trace (snd (m s)) = trace s ++ evs /\ Forall P evs.

(** A piece of the program whose events, taken together, satisfy [R]. *)
Definition traces {A} (R : list Event -> Prop) (m : Prog A) : Prop :=
  forall s, exists evs, trace (snd (m s)) = trace s ++ evs /\ R evs.

Definition any_state (s : State) : Prop := True.

(** The module variables hold the given values. *)
Definition cache_is (client : option ContentGenerator)
    (config : option ContentGeneratorConfig) (s : State) : Prop :=
  contentGenerator s = client /\ generatorConfig s = config.

(** The client is initialized. *)
Definition cached (s : State) : Prop :=
  is_Some (contentGenerator s) /\ is_Some (generatorConfig s).

End TraceSpecs.

(** ** More observations on traces *)

(** The prompts shown at the terminal, in order. *)
Definition prompts (tr : list Event) : list string :=
  omap (fun ev => match ev with RlQuestion prompt => Some prompt | _ => None end) tr.

(** What is done to the file system, in order. *)
Definition is_fs_event (ev : Event) : bool :=
  match ev with
  | Mkdir _ | WriteFile _ _ => true
  | _ => false
  end.

Definition fs_events (tr : list Event) : list Event := List.filter is_fs_event tr.

(** The creations of a client, in order. *)
Definition is_creation (ev : Event) : bool :=
  match ev with
  | CreateContentGeneratorConfig | CreateContentGenerator => true
  | _ => false
  end.

Definition creations (tr : list Event) : list Event := List.filter is_creation tr.

Definition nocreate (ev : Event) : Prop := is_creation ev = false.

(** The requests sent to the model, in order. *)
Definition is_request (ev : Event) : bool :=
  match ev with
  | GenerateContent _ _ | GenerateContentStream _ _ => true
  | _ => false
  end.

Definition requests (tr : list Event) : list Event := List.filter is_request tr.

(** Events that are neither a prompt, nor a [process.stdout.write], nor
    one of the file system: what the program does before and after the
    writer, the prompt apart. *)
Definition is_plain (ev : Event) : bool :=
  match ev with
  | RlQuestion _ | StdoutWrite _ | Mkdir _ | WriteFile _ _ => false
  | _ => true
  end.

Definition plain (ev : Event) : Prop := is_plain ev = true.

(** A request for content: what the coordinator and the researchers send. *)
Definition is_research (ev : Event) : bool :=
  match ev with
  | GenerateContent _ _ => true
  | _ => false
  end.

(** What belongs to the writing of the report: the stream is opened, its
    text is written with [process.stdout.write], the report is saved. *)
Definition is_writing (ev : Event) : bool :=
  match ev with
  | GenerateContentStream _ _ | StdoutWrite _ | Mkdir _ | WriteFile _ _ => true
  | _ => false
  end.

Definition is_ok {A} (r : Res A) : bool :=
  match r with
  | Ok _ => true
  | _ => false
  end.

(** ** The requests that the agents send *)

(** The request that [generateContent] builds. *)
Definition content_request (systemInstruction userPrompt : string)
    (options : GenerateOptions) : GenerateContentParameters :=
  {| model := DEFAULT_MODEL;
     contents := user_contents userPrompt;
     config :=
       {| systemInstruction := systemInstruction;
          maxOutputTokens := 8192;
          tools := if default false (useGoogleSearch options)
                   then Some [GoogleSearch] else None;
          responseMimeType :=
            match jsonSchema options with
            | Some schema => if Js.truthy schema then Some "application/json" else None
            | None => None
            end;
          responseJsonSchema :=
            match jsonSchema options with
            | Some schema => if Js.truthy schema then Some schema else None
            | None => None
            end |} |}.

(** The request of the researcher for a question. *)
Definition researcher_request (question : string) : GenerateContentParameters :=
  {| model := "gemini-3-flash-preview";
     contents :=
       [ {| content_role := Some "user";
            content_parts :=
              Some [ {| part_text := Some ("Research this question: " +:+ question) |} ] |} ];
     config :=
       {| systemInstruction := researcher_instruction;
          maxOutputTokens := 8192;
          tools := Some [GoogleSearch];
          responseMimeType := None;
          responseJsonSchema := None |} |}.

(** The request of the coordinator for a topic, with the JSON schema that
    zod prints for the plan. *)
Definition coordinator_request (topic : string) (schema : JsValue) : GenerateContentParameters :=
  {| model := "gemini-3-flash-preview";
     contents :=
       [ {| content_role := Some "user";
            content_parts := Some [ {| part_text := Some ("Topic: " +:+ topic) |} ] |} ];
     config :=
       {| systemInstruction := coordinator_instruction;
          maxOutputTokens := 8192;
          tools := None;
          responseMimeType := Some "application/json";
          responseJsonSchema := Some schema |} |}.

(** ** Specifications of tasks *)

(** A list whose elements have weights that add up to [total]. *)
Inductive weighted {X} (R : nat -> X -> Prop) : nat -> list X -> Prop :=
| weighted_nil : weighted R 0 []
| weighted_cons b x total xs :
    R b x -> weighted R total xs -> weighted R (b + total) (x :: xs).

Section TaskSpecs.

Context `{host : Host}.

(** From [s] to [s'] the process has kept [I] and done events of [P] only. *)
Definition steps (I : State -> Prop) (P : Event -> Prop) (s s' : State) : Prop :=
  I s' /\ exists evs, trace s' = trace s ++ evs /\ Forall P evs.

(** A task that is resumed at most [n] times before it ends, whatever the
    process does in between as long as it keeps [I]; each of its parts
    keeps [I] and does events of [P] only; and it ends with a value of [V]
    or throws an error of [E], and does not end the process. *)
Fixpoint follows {A} (n : nat) (I : State -> Prop) (P : Event -> Prop)
    (V : A -> Prop) (E : JsValue -> Prop) (t : Task A) {struct t} : Prop :=
  match t with
  | Finished (Ok v) => V v
  | Finished (Throw e) => E e
  | Finished (Exit _) => False
  | Pending resume =>
      match n with
      | O => False
      | S n' =>
          forall s, I s ->
            steps I P s (snd (resume s)) /\ follows n' I P V E (fst (resume s))
      end
  end.

(** An async function whose first part and whose task are such. *)
Definition behaves {A} (n : nat) (I : State -> Prop) (P : Event -> Prop)
    (V : A -> Prop) (E : JsValue -> Prop) (m : Async A) : Prop :=
  forall s, I s -> steps I P s (snd (m s)) /\ follows n I P V E (fst (m s)).

(** A promise that waits, is resumed at most [b] times and behaves with
    [V index] and [E index]. *)
Definition waits_well {A} (I : State -> Prop) (P : Event -> Prop)
    (V : nat -> A -> Prop) (E : nat -> JsValue -> Prop)
    (b : nat) (ir : nat * (State -> Task A * State)) : Prop :=
  follows b I P (V (fst ir)) (E (fst ir)) (Pending (snd ir)).

(** How the loop of [Promise.all] ends: the promises at [indices] have
    stored their values and the other values are as they were, or one of
    the promises has thrown. *)
Definition loop_ends {A} (indices : list nat) (V : nat -> A -> Prop)
    (E : nat -> JsValue -> Prop) (values : list (option A))
    (r : Res (list (option A))) : Prop :=
  match r with
  | Ok vs =>
      length vs = length values
      /\ forall j,
           (j ∈ indices -> exists v, vs !! j = Some (Some v) /\ V j v)
           /\ (j ∉ indices -> vs !! j = values !! j)
  | Throw e => exists j, j ∈ indices /\ E j e
  | Exit _ => False
  end.

(** How [Promise.all] ends: with one value for each of the [count]
    promises, in their order, or with the error of one of them. *)
Definition all_end {A} (count : nat) (V : nat -> A -> Prop) (E : nat -> JsValue -> Prop)
    (r : Res (list A)) : Prop :=
  match r with
  | Ok results => length results = count /\ forall i v, results !! i = Some v -> V i v
  | Throw e => exists i, (i < count)%nat /\ E i e
  | Exit _ => False
  end.

(** The client settles a request this way, in some state of the world. *)
Definition answers (request : GenerateContentParameters)
    (outcome : Settled GenerateContentResponse) : Prop :=
  exists client promptId w, fst (client_generateContent client request promptId w) = outcome.

(** The creation of the client is rejected with [e]. *)
Definition creation_error (e : JsValue) : Prop :=
  (exists w, fst (createContentGeneratorConfig makeFakeConfig w) = Rejected e)
  \/ (exists config w, fst (createContentGenerator config makeFakeConfig w) = Rejected e).

(** A result of the researcher of [q]: what [runResearcher] makes of a
    response of the model to its request for [q]. *)
Definition researcher_result (q : string) (r : ResearchResult) : Prop :=
  exists response,
    answers (researcher_request q) (Fulfilled response)
    /\ r = {| question := q;
              findings := fst (read_response response);
              sources := extract_sources (snd (read_response response)) |}.

(** An error of the researcher of [q]: the model rejects its request for
    [q], or the creation of the client fails. *)
Definition researcher_error (q : string) (e : JsValue) : Prop :=
  answers (researcher_request q) (Rejected e) \/ creation_error e.

End TaskSpecs.

(** ** What a run does, taken together *)

Section RunSpecs.

Context `{host : Host}.

(** The file system events of a run that saves to [outputFile]: the
    directory is made, then the file is written with the text that was
    written with [process.stdout.write]; or the run ends before. *)
Definition saves_report (outputFile : string) (evs : list Event) : Prop :=
  fs_events evs `prefix_of`
    [Mkdir (path_dirname outputFile);
     WriteFile outputFile (String.concat "" (stdout_writes evs))].

(** A piece of the program that creates the client at most once: nothing is
    created when the client is cached, in which case the module variables
    keep their values; and after a creation, either the client is cached or
    the piece has not returned. *)
Definition creates_once {A} (m : Prog A) : Prop :=
  forall s,
    exists evs,
      trace (snd (m s)) = trace s ++ evs
      /\ (cached s ->
          creations evs = []
          /\ contentGenerator (snd (m s)) = contentGenerator s
          /\ generatorConfig (snd (m s)) = generatorConfig s)
      /\ creations evs `prefix_of` [CreateContentGeneratorConfig; CreateContentGenerator]
      /\ (creations evs <> [] -> cached (snd (m s)) \/ is_ok (fst (m s)) = false).

(** A call of the model that stays within the budget of the retry wrapper:
    at most 5 requests, and between them the first waits of the backoff,
    15 s at most in all. *)
Definition within_budget {A} (m : Prog A) (s : State) : Prop :=
  exists evs j,
    trace (snd (m s)) = trace s ++ evs
    /\ (length (requests evs) <= 5)%nat
    /\ (j <= 4)%nat
    /\ waits evs = take j [1000; 2000; 4000; 8000]
    /\ total_wait evs <= 15000.

End RunSpecs.

(** The events of a run in which all writing comes after all research. *)
Definition in_phases (evs : list Event) : Prop :=
  exists before after,
    evs = before ++ after
    /\ Forall (fun ev => is_writing ev = false) before
    /\ Forall (fun ev => is_research ev = false) after.

(** The text deltas of the parts of a full stream, in arrival order. *)
Definition text_deltas (parts : list V2.StreamPart) : list string :=
  omap (fun part => if String.eqb (V2.type part) "text-delta" then V2.textDelta part else None)
       parts.

(** ** A scripted host, for running the program on concrete inputs *)

Module Scripted.

(** What the outside will answer: the responses of the model to the
    successive requests, the streams it opens, the line typed at the
    prompt, the choices of the event loop, and a counter for operations
    that count their invocations. *)
Record Script := {
  responses : list (Settled GenerateContentResponse);
  streams : list (Settled ResponseStream);
  answer : string;
  settle_order : list nat;
  counter : nat
}.

Definition SyntaxError : JsValue := JObj [("name", JStr "SyntaxError")].

Definition next_response (w : Script) : Settled GenerateContentResponse * Script :=
  match responses w with
  | r :: rest =>
      (r, {| responses := rest; streams := streams w; answer := answer w;
             settle_order := settle_order w;
             counter := counter w |})
  | [] => (Rejected (JStr "no response scripted"), w)
  end.

Definition next_stream (w : Script) : Settled ResponseStream * Script :=
  match streams w with
  | r :: rest =>
      (r, {| responses := responses w; streams := rest; answer := answer w;
             settle_order := settle_order w;
             counter := counter w |})
  | [] => (Rejected (JStr "no stream scripted"), w)
  end.

Definition next_choice (w : Script) : nat * Script :=
  match settle_order w with
  | k :: rest =>
      (k, {| responses := responses w; streams := streams w; answer := answer w;
             settle_order := rest;
             counter := counter w |})
  | [] => (O, w)
  end.

Definition count (w : Script) : Script :=
  {| responses := responses w; streams := streams w; answer := answer w;
     settle_order := settle_order w;
     counter := S (counter w) |}.

Definition parse_known (known : list (string * JsValue)) (text : string) : Settled JsValue :=
  match Js.lookup_prop text known with
  | Some v => Fulfilled v
  | None => Rejected SyntaxError
  end.

(** The host reads its answers from the script; [JSON.parse] knows the
    documents of [known]. *)
Definition scripted_host (known : list (string * JsValue)) : Host :=
  {| World := Script;
     GcConfig := unit;
     ContentGeneratorConfig := unit;
     ContentGenerator := unit;
     makeFakeConfig := tt;
     createContentGeneratorConfig := fun _ w => (Fulfilled tt, w);
     createContentGenerator := fun _ _ w => (Fulfilled tt, w);
     client_generateContent := fun _ _ _ w => next_response w;
     client_generateContentStream := fun _ _ _ w => next_stream w;
     crypto_randomUUID := fun w => ("123e4567-e89b-42d3-a456-426614174000", w);
     rl_answer := fun _ w => (answer w, w);
     fs_mkdir := fun _ w => (Fulfilled tt, w);
     fs_writeFile := fun _ _ w => (Fulfilled tt, w);
     path_dirname := fun _ => "output";
     JSON_parse := parse_known known;
     z_toJSONSchema := fun _ => JObj [("type", JStr "object")];
     next_settled := fun _ w => next_choice w |}.

Definition script (rs : list (Settled GenerateContentResponse))
    (ss : list (Settled ResponseStream)) (typed : string) (order : list nat) : Script :=
  {| responses := rs; streams := ss; answer := typed; settle_order := order;
     counter := O |}.

Definition start `{host : Host} (w : World) : State :=
  {| world := w; trace := []; contentGenerator := None; generatorConfig := None |}.

End Scripted.

(** ** Scripted runs *)

Import Scripted.

Definition quoted (s : string) : string := DQ +:+ s +:+ DQ.

(** Two responses of the coordinator's model and the documents that
    [JSON.parse] makes of them: a plan without questions and a plan with
    two. *)
Definition empty_plan_text : string :=
  "{" +:+ quoted "questions" +:+ ":[]," +:+ quoted "rationale" +:+ ":"
  +:+ quoted "nothing to ask" +:+ "}".

Definition empty_plan_document : JsValue :=
  JObj [("questions", JArr []); ("rationale", JStr "nothing to ask")].

Definition plan_text : string :=
  "{" +:+ quoted "questions" +:+ ":[" +:+ quoted "What is it?" +:+ ","
  +:+ quoted "Who uses it?" +:+ "]," +:+ quoted "rationale" +:+ ":"
  +:+ quoted "two angles" +:+ "}".

Definition plan_document : JsValue :=
  JObj [("questions", JArr [JStr "What is it?"; JStr "Who uses it?"]);
        ("rationale", JStr "two angles")].

(** A response that is JSON of another shape. *)
Definition odd_plan_text : string :=
  "{" +:+ quoted "questions" +:+ ":" +:+ quoted "none" +:+ ","
  +:+ quoted "rationale" +:+ ":" +:+ quoted "nothing to ask" +:+ "}".

Definition odd_plan_document : JsValue :=
  JObj [("questions", JStr "none"); ("rationale", JStr "nothing to ask")].

Definition demo_host : Host :=
  scripted_host [(empty_plan_text, empty_plan_document);
                 (plan_text, plan_document);
                 (odd_plan_text, odd_plan_document)].

(** A response with one candidate that has one text part. *)
Definition text_response (text : string) (metadata : option GroundingMetadata)
  : GenerateContentResponse :=
  {| candidates :=
       Some [ {| candidate_content :=
                   Some {| content_role := Some "model";
                           content_parts := Some [ {| part_text := Some text |} ] |};
                 candidate_groundingMetadata := metadata |} ] |}.

(** Grounding metadata with three chunks, the second without a [web] field. *)
Definition demo_metadata : GroundingMetadata :=
  {| groundingChunks :=
       Some [ {| chunk_web := Some {| web_uri := Some "https://a.example";
                                      web_title := Some "A" |} |};
              {| chunk_web := None |};
              {| chunk_web := Some {| web_uri := Some "https://b.example";
                                      web_title := None |} |} ] |}.

(** A stream of four chunks: a fragment, a chunk without candidates, an
    empty fragment and a last fragment. *)
Definition demo_stream : ResponseStream :=
  {| stream_chunks :=
       [ text_response "# Report" None;
         {| candidates := None |};
         text_response "" None;
         text_response (LF +:+ "Body.") None ];
     stream_failure := None |}.

Definition demo_state (w : Script) : @State demo_host := @start demo_host w.

(** The state of a process that has created its client and done nothing
    else. *)
Definition ready_state (w : Script) : @State demo_host :=
  @Build_State demo_host w [] (Some tt) (Some tt).

(** A whole run: the plan with two questions, the answers to the two
    research requests in the order the model receives them (the second
    promise settles first), and the stream of the writer. *)
Definition full_script (typed : string) : Script :=
  script [ Fulfilled (text_response plan_text None);
           Fulfilled (text_response "It is a tool." (Some demo_metadata));
           Fulfilled (text_response "Researchers." None) ]
         [ Fulfilled demo_stream ] typed [1%nat; 0%nat].

Definition rate_limit_error : JsValue := JObj [("status", JNum 429%float)].

Definition server_error : JsValue := JObj [("status", JNum 500%float)].

(** An operation that is always rate limited, one that always fails
    otherwise, and one that is rate limited twice and then succeeds. *)
Definition always_limited (w : @World demo_host) : Settled string * @World demo_host :=
  (Rejected rate_limit_error, count w).

Definition always_broken (w : @World demo_host) : Settled string * @World demo_host :=
  (Rejected server_error, count w).

Definition limited_twice (w : @World demo_host) : Settled string * @World demo_host :=
  if (counter w <? 2)%nat then (Rejected rate_limit_error, count w)
  else (Fulfilled "done", count w).

(** The state of a process that has done nothing yet, with nothing scripted. *)
Definition idle : @State demo_host := demo_state (script [] [] "" []).

(** The research phase on two questions, the second of which settles
    first: the model answers the requests in the order it receives them. *)
Definition demo_questions : list string := ["What is it?"; "Who uses it?"].

Definition research_script : Script :=
  script [ Fulfilled (text_response "It is a tool." (Some demo_metadata));
           Fulfilled (text_response "Researchers." None) ]
         [] "" [1%nat; 0%nat].

Definition demo_research : Res (list ResearchResult) * @State demo_host :=
  @research_all demo_host demo_questions (ready_state research_script).

Definition demo_results : list ResearchResult :=
  match fst demo_research with Ok rs => rs | _ => [] end.

Definition values_with (topic : option string) : Values :=
  {| values_output := default_output; values_topic := topic |}.

(** The writer on the stream above, and the state in which its stream is
    open. *)
Definition writer_script : Script := script [] [Fulfilled demo_stream] "" [].

Definition writer_ready : Res ResponseStream * @State demo_host :=
  @request_stream demo_host writer_instruction (writer_prompt "cats" []) writer_options
    (log_events [ConsoleLog writer_banner] (demo_state writer_script)).

(** The researcher on a response with grounding metadata, and the state in
    which the response has arrived. *)
Definition researcher_script : Script :=
  script [Fulfilled (text_response "It is a tool." (Some demo_metadata))] [] "" [].

Definition researcher_ready : Res GenerateContentResponse * @State demo_host :=
  @request_content demo_host researcher_instruction (researcher_prompt "What is it?")
    researcher_options (demo_state researcher_script).

(** A scripted instance of the collaborators of the tool-calling variant:
    the search knows three queries, the coordinator agent answers with a
    plan of two questions, and every stream of an agent is the same. *)
Definition demo_hits : list V2.SearchResult :=
  [ {| V2.title := "A"; V2.description := "first"; V2.url := "https://a.example" |};
    {| V2.title := "B"; V2.description := "second"; V2.url := "https://b.example" |};
    {| V2.title := "C"; V2.description := "third"; V2.url := "https://c.example" |};
    {| V2.title := "D"; V2.description := "fourth"; V2.url := "https://d.example" |} ].

Definition demo_search (query : string) : Settled V2.SearchResults :=
  if String.eqb query "cats" then Fulfilled {| V2.results := Some demo_hits |}
  else if String.eqb query "busy" then
    Rejected (new_Error "DDG detected an anomaly in the request")
  else if String.eqb query "down" then Rejected (new_Error "socket hang up")
  else Rejected JNull.

Definition demo_fullStream : V2.AgentStream :=
  {| V2.fullStream :=
       [ {| V2.type := "tool-call"; V2.textDelta := None; V2.toolName := Some "search";
            V2.error := JUndefined |};
         {| V2.type := "text-delta"; V2.textDelta := Some "Cats "; V2.toolName := None;
            V2.error := JUndefined |};
         {| V2.type := "error"; V2.textDelta := None; V2.toolName := None;
            V2.error := JStr "overloaded" |};
         {| V2.type := "text-delta"; V2.textDelta := None; V2.toolName := None;
            V2.error := JUndefined |};
         {| V2.type := "text-delta"; V2.textDelta := Some "purr."; V2.toolName := None;
            V2.error := JUndefined |} ];
     V2.fullStream_failure := None |}.

Definition demo_sdk : @V2.Sdk demo_host :=
  {| V2.search := fun query _ w => (demo_search query, w);
     V2.agent_generate := fun _ _ w =>
       (Fulfilled {| V2.output := Some {| questions := demo_questions;
                                         rationale := "two angles" |} |}, w);
     V2.agent_stream := fun _ _ w => (Fulfilled demo_fullStream, w);
     V2.template_string := fun v => match v with JStr s => s | _ => "[object Object]" end |}.

(** A host without credentials: the config is created, the creation of the
    generator fails. *)
Definition offline_host : Host :=
  {| World := Script;
     GcConfig := unit;
     ContentGeneratorConfig := unit;
     ContentGenerator := unit;
     makeFakeConfig := tt;
     createContentGeneratorConfig := fun _ w => (Fulfilled tt, w);
     createContentGenerator := fun _ _ w => (Rejected (JStr "no credentials"), w);
     client_generateContent := fun _ _ _ w => next_response w;
     client_generateContentStream := fun _ _ _ w => next_stream w;
     crypto_randomUUID := fun w => ("123e4567-e89b-42d3-a456-426614174000", w);
     rl_answer := fun _ w => (answer w, w);
     fs_mkdir := fun _ w => (Fulfilled tt, w);
     fs_writeFile := fun _ _ w => (Fulfilled tt, w);
     path_dirname := fun _ => "output";
     JSON_parse := parse_known [];
     z_toJSONSchema := fun _ => JObj [("type", JStr "object")];
     next_settled := fun _ w => next_choice w |}.

Definition offline : @State offline_host := @start offline_host (script [] [] "" []).

(** The coordinator on a response whose JSON has another shape, and the
    state in which the response has arrived. *)
Definition odd_script : Script :=
  script [Fulfilled (text_response odd_plan_text None)] [] "" [].

Definition coordinator_ready : Res GenerateContentResponse * @State demo_host :=
  @request_content demo_host coordinator_instruction ("Topic: " +:+ "cats")
    (@coordinator_options demo_host)
    (log_events [ConsoleLog (coordinator_banner "cats")] (demo_state odd_script)).

(** A stream that breaks after its first fragment, with a rate-limit error. *)
Definition broken_stream : ResponseStream :=
  {| stream_chunks := [text_response "# Rep" None];
     stream_failure := Some rate_limit_error |}.

Definition broken_script : Script := script [] [Fulfilled broken_stream] "" [].

Definition writer_broken : Res ResponseStream * @State demo_host :=
  @request_stream demo_host writer_instruction (writer_prompt "cats" []) writer_options
    (log_events [ConsoleLog writer_banner] (demo_state broken_script)).

(** The research phase when the model refuses the second request, and the
    refusal arrives before the answer to the first. *)
Definition refused_script : Script :=
  script [ Fulfilled (text_response "It is a tool." None); Rejected server_error ]
         [] "" [1%nat].

Definition refused_research : Res (list ResearchResult) * @State demo_host :=
  @research_all demo_host demo_questions (ready_state refused_script).

(** The research phase when the first question settles first. *)
Definition in_order_research : Res (list ResearchResult) * @State demo_host :=
  @research_all demo_host demo_questions
    (ready_state
       (script [ Fulfilled (text_response "It is a tool." (Some demo_metadata));
                 Fulfilled (text_response "Researchers." None) ]
               [] "" [0%nat; 0%nat])).

(** The research phase when the requests for the first question are rate
    limited twice: the event loop resumes the first researcher twice (its
    request is rejected, its timer fires), then the second (its response
    arrives), then the first for the rest. *)
Definition retried_script : Script :=
  script [ Rejected rate_limit_error;
           Fulfilled (text_response "Researchers." None);
           Rejected rate_limit_error;
           Fulfilled (text_response "It is a tool." None) ]
         [] "" [0%nat; 0%nat; 1%nat; 0%nat; 0%nat; 0%nat].

Definition retried_research : Res (list ResearchResult) * @State demo_host :=
  @research_all demo_host demo_questions (ready_state retried_script).

Definition scripted_id : string := "123e4567-e89b-42d3-a456-426614174000".

(** The research phase in a process that has no client yet, which no run
    of [main] reaches. *)
Definition cold_research : Res (list ResearchResult) * @State demo_host :=
  @research_all demo_host demo_questions (demo_state research_script).

(** Options of [streamContent] that report grounding metadata on the console. *)
Definition grounding_options : @StreamOptions demo_host :=
  {| stream_useGoogleSearch := Some true;
     onText := None;
     onGrounding := Some (fun _ => console_log "grounded") |}.

Definition grounded_stream : ResponseStream :=
  {| stream_chunks :=
       [ text_response "It is " (Some demo_metadata);
         {| candidates := Some [] |};
         text_response "a tool." None ];
     stream_failure := None |}.

(** A full stream that breaks after its first text delta. *)
Definition broken_fullStream : V2.AgentStream :=
  {| V2.fullStream :=
       [ {| V2.type := "text-delta"; V2.textDelta := Some "Cats "; V2.toolName := None;
            V2.error := JUndefined |} ];
     V2.fullStream_failure := Some server_error |}.

(** The collaborators of the tool-calling variant when every stream of an
    agent breaks. *)
Definition broken_sdk : @V2.Sdk demo_host :=
  {| V2.search := fun query _ w => (demo_search query, w);
     V2.agent_generate := fun _ _ w => (Fulfilled {| V2.output := None |}, w);
     V2.agent_stream := fun _ _ w => (Fulfilled broken_fullStream, w);
     V2.template_string := fun v => match v with JStr s => s | _ => "[object Object]" end |}.

(** The loop over the questions of the tool-calling variant at the scripted
    agents. *)
Definition demo_loop : Res (list Finding) * @State demo_host :=
  @V2.research_loop demo_host demo_sdk demo_questions [] idle.

Definition demo_findings : list Finding :=
  match fst demo_loop with Ok fs => fs | _ => [] end.

(** * Properties *)

(** ** The retry wrapper *)

(** Property X1.  A thrown value is a rate-limit error exactly when it is an
    object whose [status] or [code] is the number 429: [null], a string, a
    number, and an object whose status is the string 429 are not. *)
Lemma isRateLimitError_spec error :
  isRateLimitError error = true
  <-> exists props,
        error = JObj props
        /\ (Js.strict_eq_num (Js.get error "status") 429%float = true
            \/ Js.strict_eq_num (Js.get error "code") 429%float = true).
Proof.
  unfold isRateLimitError. split.
  - destruct error as [| |b|n|str|items|props]; intros H.
    + discriminate H.
    + discriminate H.
    + destruct b; discriminate H.
    + cbn [Js.typeof] in H. change (String.eqb "number" "object") with false in H.
      rewrite andb_false_r in H. discriminate H.
    + cbn [Js.typeof] in H. change (String.eqb "string" "object") with false in H.
      rewrite andb_false_r in H. discriminate H.
    + discriminate H.
    + exists props. split; [reflexivity|]. apply orb_true_iff. exact H.
  - intros (props & -> & H). cbn [Js.truthy Js.typeof andb]. apply orb_true_iff. exact H.
Qed.

Section RetryFacts.

Context `{host : Host} {T : Type}.
Variables (label context : string) (oracle : World -> Settled T * World).

Lemma operation_run s :
  (operation label oracle) s = (res_of_settled (fst (oracle (world s))), invoked label oracle s).
Proof.
  unfold operation, bind, emit, await, invoked, set_world, log_events. simpl.
  destruct (oracle (world s)) as [[v|e] w]; reflexivity.
Qed.

Lemma loop_settles r a last s :
  rate_limited (fst (oracle (world s))) = false ->
  withRetry_loop (operation label oracle) context (S r) a last s
  = (res_of_settled (fst (oracle (world s))), invoked label oracle s).
Proof.
  intros Hrl. simpl. unfold try_catch. rewrite operation_run.
  destruct (fst (oracle (world s))) as [v|e]; simpl in *; [reflexivity|].
  rewrite Hrl. reflexivity.
Qed.

Lemma loop_retries r a last s e :
  fst (oracle (world s)) = Rejected e ->
  isRateLimitError e = true ->
  withRetry_loop (operation label oracle) context (S r) a last s
  = withRetry_loop (operation label oracle) context r (S a) e
      (log_events (backoff_events context a) (invoked label oracle s)).
Proof.
  intros He Hrl. simpl. unfold try_catch. rewrite operation_run, He. simpl.
  rewrite Hrl. simpl. unfold backoff_events, bind, sleep, console_log, emit, ret.
  change (MAX_RETRIES - 1)%nat with 4%nat.
  destruct (a <? 4)%nat; simpl.
  - unfold log_events; simpl. rewrite <- app_assoc. reflexivity.
  - unfold log_events, invoked, set_world; simpl. rewrite app_nil_r. reflexivity.
Qed.

Lemma nth_outcome_next i s' s :
  world s' = snd (oracle (world s)) ->
  nth_outcome oracle i (world s') = nth_outcome oracle (S i) (world s).
Proof. intros ->. reflexivity. Qed.

Lemma world_after_last n : forall w,
  world_after oracle (S n) w = snd (oracle (world_after oracle n w)).
Proof. induction n as [|n IH]; intros w; [reflexivity|]. apply (IH (snd (oracle w))). Qed.

Lemma loop_failures n :
  forall r a last s,
    (forall i, (i < n)%nat -> rate_limited (nth_outcome oracle i (world s)) = true) ->
    exists last',
      withRetry_loop (operation label oracle) context (n + r) a last s
      = withRetry_loop (operation label oracle) context r (n + a) last' (after_failures label context oracle n a s)
      /\ match n with
         | O => last' = last
         | S m => nth_outcome oracle m (world s) = Rejected last'
         end.
Proof.
  induction n as [|n IH]; intros r a last s Hfail.
  - exists last. split; reflexivity.
  - assert (H0 : rate_limited (nth_outcome oracle 0 (world s)) = true)
      by (apply Hfail; lia).
    unfold nth_outcome in H0. simpl in H0.
    destruct (fst (oracle (world s))) as [v|e] eqn:He; [discriminate|].
    simpl in H0.
    set (s1 := log_events (backoff_events context a) (invoked label oracle s)).
    destruct (IH r (S a) e s1) as (last' & Hloop & Hlast).
    { intros i Hi. rewrite (nth_outcome_next i s1 s) by reflexivity.
      apply Hfail. lia. }
    exists last'. split.
    + change (S n + r)%nat with (S (n + r)).
      rewrite (loop_retries _ _ _ _ e He H0). fold s1. rewrite Hloop.
      replace (n + S a)%nat with (S n + a)%nat by lia. reflexivity.
    + destruct n as [|m].
      * subst last'. unfold nth_outcome. simpl. exact He.
      * rewrite <- (nth_outcome_next m s1 s) by reflexivity. exact Hlast.
Qed.

Lemma world_after_failures n : forall a s,
  world (after_failures label context oracle n a s) = world_after oracle n (world s).
Proof. induction n as [|n IH]; intros a s; simpl; [reflexivity|]. rewrite IH. reflexivity. Qed.

Lemma trace_after_failures n : forall a s,
  trace (after_failures label context oracle n a s) = trace s ++ failures_trace label context n a.
Proof.
  induction n as [|n IH]; intros a s; simpl.
  - rewrite app_nil_r. reflexivity.
  - rewrite IH. simpl. rewrite <- !app_assoc. reflexivity.
Qed.

End RetryFacts.

Lemma waits_app tr1 tr2 : waits (tr1 ++ tr2) = waits tr1 ++ waits tr2.
Proof. apply omap_app. Qed.

Lemma invocations_app label tr1 tr2 :
  invocations label (tr1 ++ tr2) = (invocations label tr1 + invocations label tr2)%nat.
Proof. unfold invocations. rewrite List.filter_app, length_app. reflexivity. Qed.

Lemma invocations_invoke label : invocations label [Invoke label] = 1%nat.
Proof. unfold invocations. simpl. rewrite String.eqb_refl. reflexivity. Qed.

Lemma failures_trace_rounds label context n : forall a,
  (a + n <= 4)%nat ->
  failures_trace label context n a = concat (map (retry_round label context) (seq a n)).
Proof.
  induction n as [|n IH]; intros a Ha; [reflexivity|].
  cbn [failures_trace seq map concat]. rewrite IH by lia.
  unfold backoff_events. change (MAX_RETRIES - 1)%nat with 4%nat.
  destruct (Nat.ltb_spec a 4); [reflexivity|lia].
Qed.

Lemma invocations_rounds label context k : forall a,
  invocations label (concat (map (retry_round label context) (seq a k))) = k.
Proof.
  induction k as [|k IH]; intros a; [reflexivity|].
  cbn [seq map concat]. rewrite invocations_app, IH.
  unfold retry_round, invocations. cbn [List.filter is_invocation].
  rewrite String.eqb_refl. reflexivity.
Qed.

Lemma waits_rounds label context k : forall a,
  waits (concat (map (retry_round label context) (seq a k)))
  = map (fun a => 1000 * 2 ^ Z.of_nat a) (seq a k).
Proof.
  induction k as [|k IH]; intros a; [reflexivity|].
  cbn [seq map concat]. rewrite waits_app, IH. reflexivity.
Qed.

Lemma sum_backoff_delays n :
  foldr Z.add 0 (backoff_delays n) = 1000 * (2 ^ Z.of_nat n - 1).
Proof.
  unfold backoff_delays. induction n as [|n IH]; [reflexivity|].
  rewrite seq_S, map_app, foldr_app. simpl.
  assert (Hgen : forall l z, foldr Z.add z l = foldr Z.add 0 l + z).
  { induction l as [|x l IHl]; intros z; simpl; [lia|]. rewrite IHl. lia. }
  rewrite Hgen, IH. unfold retry_delay, INITIAL_DELAY_MS.
  rewrite Nat2Z.inj_succ, Z.pow_succ_r by lia. lia.
Qed.

Section RetryTheorems.

Context `{host : Host} {T : Type}.
Variables (label context : string) (oracle : World -> Settled T * World).

Lemma withRetry_settles n s :
  (n < MAX_RETRIES)%nat ->
  (forall i, (i < n)%nat -> rate_limited (nth_outcome oracle i (world s)) = true) ->
  rate_limited (nth_outcome oracle n (world s)) = false ->
  withRetry (operation label oracle) context s
  = (res_of_settled (nth_outcome oracle n (world s)),
     invoked label oracle (after_failures label context oracle n 0 s)).
Proof.
  intros Hn Hfail Hlast. unfold withRetry.
  destruct (loop_failures label context oracle n (MAX_RETRIES - n) 0 JUndefined s Hfail)
    as (last' & Hloop & _).
  replace (n + (MAX_RETRIES - n))%nat with MAX_RETRIES in Hloop by lia.
  rewrite Hloop.
  destruct (MAX_RETRIES - n)%nat as [|r] eqn:Hr; [lia|].
  unfold nth_outcome in *. rewrite <- world_after_failures with (label := label) (context := context) (a := O) in *.
  rewrite loop_settles by assumption. reflexivity.
Qed.

Lemma withRetry_exhausts s :
  (forall i, (i < MAX_RETRIES)%nat -> rate_limited (nth_outcome oracle i (world s)) = true) ->
  exists e,
    nth_outcome oracle (MAX_RETRIES - 1) (world s) = Rejected e
    /\ withRetry (operation label oracle) context s
       = (Throw e, after_failures label context oracle MAX_RETRIES 0 s).
Proof.
  intros Hfail. unfold withRetry.
  destruct (loop_failures label context oracle MAX_RETRIES 0 0 JUndefined s Hfail)
    as (last' & Hloop & Hlast).
  exists last'. split; [exact Hlast|].
  change (MAX_RETRIES + 0)%nat with MAX_RETRIES in Hloop. rewrite Hloop. reflexivity.
Qed.

End RetryTheorems.

Section RetryClaims.

Context `{host : Host} {T : Type}.
Variables (label context : string) (oracle : World -> Settled T * World).

Lemma settled_world n s :
  world (invoked label oracle (after_failures label context oracle n 0 s))
  = world_after oracle (S n) (world s).
Proof.
  rewrite world_after_last. unfold invoked, set_world. cbn [world].
  rewrite world_after_failures. reflexivity.
Qed.

Lemma settled_run n s :
  (n <= 4)%nat ->
  trace (invoked label oracle (after_failures label context oracle n 0 s))
  = trace s ++ retry_rounds label context n ++ [Invoke label].
Proof.
  intros Hn. unfold invoked, set_world, log_events. cbn [trace].
  rewrite trace_after_failures, <- app_assoc.
  rewrite (failures_trace_rounds label context n 0) by lia. reflexivity.
Qed.

Lemma exhausted_run s :
  trace (after_failures label context oracle MAX_RETRIES 0 s)
  = trace s ++ retry_rounds label context 4 ++ [Invoke label].
Proof.
  rewrite trace_after_failures. reflexivity.
Qed.

(** Claim C2.  When the first invocation fails with an error that is not a
    rate-limit error, the wrapper throws that error; what it did is the one
    invocation and nothing else: no retry, no message, no wait. *)
Theorem withRetry_other_error_once e s :
  nth_outcome oracle 0 (world s) = Rejected e ->
  isRateLimitError e = false ->
  exists s' evs,
    withRetry (operation label oracle) context s = (Throw e, s')
    /\ trace s' = trace s ++ evs
    /\ evs = [Invoke label]
    /\ invocations label evs = 1%nat
    /\ waits evs = []
    /\ world s' = world_after oracle 1 (world s).
Proof.
  intros He Hrl.
  rewrite (withRetry_settles label context oracle 0 s).
  - rewrite He. eexists. exists [Invoke label]. split; [reflexivity|].
    split; [reflexivity|]. split; [reflexivity|].
    split; [apply invocations_invoke|]. split; reflexivity.
  - unfold MAX_RETRIES. lia.
  - intros i Hi. lia.
  - rewrite He. exact Hrl.
Qed.

(** Claim C3.  When the first [n < 5] invocations fail with a rate-limit
    error and the next one returns [v], the wrapper returns [v] after
    [n + 1] invocations, each retry coming after its wait, and the time it
    waited is the sum of the first [n] delays, [1000 * 2 ^ a] for [a] from
    0 to [n - 1]. *)
Theorem withRetry_success_after_rate_limits n v s :
  (n < 5)%nat ->
  (forall i, (i < n)%nat -> rate_limited (nth_outcome oracle i (world s)) = true) ->
  nth_outcome oracle n (world s) = Fulfilled v ->
  exists s' evs,
    withRetry (operation label oracle) context s = (Ok v, s')
    /\ trace s' = trace s ++ evs
    /\ evs = retry_rounds label context n ++ [Invoke label]
    /\ invocations label evs = S n
    /\ waits evs = map (fun a => 1000 * 2 ^ Z.of_nat a) (seq 0 n)
    /\ total_wait evs = foldr Z.add 0 (map (fun a => 1000 * 2 ^ Z.of_nat a) (seq 0 n))
    /\ total_wait evs = 1000 * (2 ^ Z.of_nat n - 1)
    /\ world s' = world_after oracle (S n) (world s).
Proof.
  intros Hn Hfail Hok.
  rewrite (withRetry_settles label context oracle n s Hn Hfail)
    by (rewrite Hok; reflexivity).
  rewrite Hok. eexists. exists (retry_rounds label context n ++ [Invoke label]).
  split; [reflexivity|]. split; [apply settled_run; lia|]. split; [reflexivity|].
  rewrite settled_world.
  assert (Hw : waits (retry_rounds label context n ++ [Invoke label])
               = map (fun a => 1000 * 2 ^ Z.of_nat a) (seq 0 n)).
  { rewrite waits_app. unfold retry_rounds. rewrite waits_rounds. apply app_nil_r. }
  split.
  { rewrite invocations_app, invocations_invoke. unfold retry_rounds.
    rewrite invocations_rounds. lia. }
  split; [exact Hw|]. unfold total_wait. rewrite Hw. split; [reflexivity|].
  split; [apply (sum_backoff_delays n)|reflexivity].
Qed.

(** Claim C1, as amended.  Take an operation whose first [n] invocations
    fail with a rate-limit error ([n <= 5]) and whose next invocation, when
    one is permitted ([n < 5]), settles otherwise.  The wrapper invokes it
    [min (n + 1) 5] times: it retries at most 4 times.  Each retry comes
    after a wait of [1000 * 2 ^ a] ms, where [a] counts the retries from 0,
    so that the waits are the first [n] of 1s, 2s, 4s and 8s.  The wrapper
    ends as its last invocation does: when all 5 invocations are rate
    limited it throws the error of the fifth, after four waits. *)
Theorem withRetry_rate_limit_backoff n s :
  (n <= 5)%nat ->
  (forall i, (i < n)%nat -> rate_limited (nth_outcome oracle i (world s)) = true) ->
  ((n < 5)%nat -> rate_limited (nth_outcome oracle n (world s)) = false) ->
  exists s' evs,
    withRetry (operation label oracle) context s
    = (res_of_settled (nth_outcome oracle (n `min` 4) (world s)), s')
    /\ trace s' = trace s ++ evs
    /\ evs = retry_rounds label context (n `min` 4) ++ [Invoke label]
    /\ invocations label evs = (S n `min` 5)%nat
    /\ waits evs = take n [1000; 2000; 4000; 8000]
    /\ world s' = world_after oracle (S n `min` 5) (world s).
Proof.
  intros Hn Hfail Hlast.
  exists (if decide (n < 5)%nat
          then invoked label oracle (after_failures label context oracle n 0 s)
          else after_failures label context oracle MAX_RETRIES 0 s).
  exists (retry_rounds label context (n `min` 4) ++ [Invoke label]).
  assert (Hobs : invocations label (retry_rounds label context (n `min` 4) ++ [Invoke label])
                 = (S n `min` 5)%nat
                 /\ waits (retry_rounds label context (n `min` 4) ++ [Invoke label])
                    = take n [1000; 2000; 4000; 8000]).
  { rewrite invocations_app, invocations_invoke, waits_app. unfold retry_rounds.
    rewrite invocations_rounds, waits_rounds. split; [lia|].
    do 6 (destruct n as [|n]; [reflexivity|]). lia. }
  destruct (decide (n < 5)%nat) as [Hlt|Hge].
  - rewrite (withRetry_settles label context oracle n s Hlt Hfail (Hlast Hlt)).
    replace (n `min` 4)%nat with n in * by lia.
    split; [reflexivity|]. split; [apply settled_run; lia|].
    split; [reflexivity|]. split; [apply Hobs|]. split; [apply Hobs|].
    rewrite settled_world. f_equal. lia.
  - assert (n = 5)%nat as -> by lia.
    destruct (withRetry_exhausts label context oracle s Hfail) as (e & He & Hrun).
    rewrite Hrun. change (5 `min` 4)%nat with (MAX_RETRIES - 1)%nat. rewrite He.
    split; [reflexivity|]. split; [apply exhausted_run|].
    split; [reflexivity|]. split; [apply Hobs|]. split; [apply Hobs|].
    apply world_after_failures.
Qed.

End RetryClaims.

(** ** Trimming *)

Section Tokens.

Variable toks : list (list ascii).

Lemma strip_prefix_app tok s : strip_prefix tok (tok ++ s) = Some s.
Proof.
  induction tok as [|c tok IH]; simpl; [reflexivity|].
  rewrite Ascii.eqb_refl. exact IH.
Qed.

Lemma strip_prefix_Some tok : forall s r, strip_prefix tok s = Some r -> s = tok ++ r.
Proof.
  induction tok as [|c tok IH]; intros s r H; simpl in *.
  - congruence.
  - destruct s as [|d s]; [discriminate|].
    destruct (Ascii.eqb_spec c d) as [->|]; [|discriminate].
    f_equal. apply IH. exact H.
Qed.

Lemma strip_any_Some : forall s r,
  strip_any toks s = Some r -> exists tok, In tok toks /\ s = tok ++ r.
Proof.
  induction toks as [|t ts IH]; intros s r H; simpl in *; [discriminate|].
  destruct (strip_prefix t s) as [r'|] eqn:Ht.
  - injection H as ->. exists t. split; [left; reflexivity|].
    apply strip_prefix_Some. exact Ht.
  - destruct (IH s r H) as (tok & Hin & Heq). exists tok. auto.
Qed.

Lemma strip_any_In tok s :
  In tok toks -> exists r, strip_any toks (tok ++ s) = Some r.
Proof.
  induction toks as [|t ts IH]; intros Hin; simpl in *; [contradiction|].
  destruct (strip_prefix t (tok ++ s)) as [r'|] eqn:Ht; [eauto|].
  destruct Hin as [->|Hin]; [|auto].
  rewrite strip_prefix_app in Ht. discriminate.
Qed.

Lemma tokens_only_app s1 s2 :
  tokens_only toks s1 -> tokens_only toks s2 -> tokens_only toks (s1 ++ s2).
Proof.
  induction 1 as [|tok s Hin Hs IH]; intros H2; simpl; [exact H2|].
  rewrite <- app_assoc. constructor; auto.
Qed.

(** What [drop_tokens] drops is made of tokens. *)
Lemma drop_tokens_dropped fuel : forall s,
  exists w, tokens_only toks w /\ s = w ++ drop_tokens toks fuel s.
Proof.
  induction fuel as [|fuel IH]; intros s; simpl.
  - exists []. split; [constructor|reflexivity].
  - destruct (strip_any toks s) as [r|] eqn:Hs.
    + destruct (strip_any_Some s r Hs) as (tok & Hin & ->).
      destruct (IH r) as (w & Hw & Hr).
      exists (tok ++ w). split; [constructor; assumption|].
      rewrite <- app_assoc. rewrite <- Hr. reflexivity.
    + exists []. split; [constructor|reflexivity].
Qed.

Lemma drop_tokens_nil_tokens fuel s :
  drop_tokens toks fuel s = [] -> tokens_only toks s.
Proof.
  intros H. destruct (drop_tokens_dropped fuel s) as (w & Hw & Hs).
  rewrite H, app_nil_r in Hs. subst. exact Hw.
Qed.

Hypothesis Hfree : prefix_free toks = true.

Lemma token_nonempty tok : In tok toks -> (0 < length tok)%nat.
Proof.
  intros Hin. unfold prefix_free in Hfree.
  rewrite forallb_forall in Hfree. specialize (Hfree tok Hin).
  apply andb_true_iff in Hfree as [Hlen _].
  destruct tok; [discriminate|simpl; lia].
Qed.

Lemma strip_prefix_common t1 : forall t2 r1 r2,
  t1 ++ r1 = t2 ++ r2 ->
  (exists r, strip_prefix t1 t2 = Some r) \/ (exists r, strip_prefix t2 t1 = Some r).
Proof.
  induction t1 as [|c t1 IH]; intros t2 r1 r2 H; simpl.
  - left. eauto.
  - destruct t2 as [|d t2]; simpl.
    + right. eauto.
    + simpl in H. injection H as -> H. rewrite Ascii.eqb_refl.
      exact (IH t2 r1 r2 H).
Qed.

Lemma token_unique t1 t2 r1 r2 :
  In t1 toks -> In t2 toks -> t1 ++ r1 = t2 ++ r2 -> t1 = t2 /\ r1 = r2.
Proof.
  intros H1 H2 Heq.
  assert (Hpre : forall a b, In a toks -> In b toks ->
            forall r, strip_prefix a b = Some r -> b = a).
  { intros a b Ha Hb r Hr. unfold prefix_free in Hfree.
    rewrite forallb_forall in Hfree. specialize (Hfree a Ha).
    apply andb_true_iff in Hfree as [_ Hall].
    rewrite forallb_forall in Hall. specialize (Hall b Hb).
    rewrite Hr in Hall. apply Nat.eqb_eq in Hall.
    apply strip_prefix_Some in Hr. destruct r; [|discriminate].
    rewrite app_nil_r in Hr. exact Hr. }
  assert (t1 = t2) as ->.
  { destruct (strip_prefix_common t1 t2 r1 r2 Heq) as [[r Hr]|[r Hr]].
    - symmetry. eapply Hpre; eauto.
    - eapply Hpre; eauto. }
  split; [reflexivity|]. eapply app_inv_head. exact Heq.
Qed.

Lemma drop_tokens_tokens_only s :
  tokens_only toks s -> forall fuel, (length s <= fuel)%nat -> drop_tokens toks fuel s = [].
Proof.
  induction 1 as [|tok s Hin Hs IH]; intros fuel Hfuel.
  - destruct fuel as [|fuel]; [reflexivity|]. simpl.
    destruct (strip_any toks []) as [r|] eqn:Hr; [|reflexivity].
    destruct (strip_any_Some _ _ Hr) as (tok & Hin & Heq).
    pose proof (token_nonempty tok Hin) as Hlen.
    destruct tok; [simpl in Hlen; lia|discriminate].
  - pose proof (token_nonempty tok Hin) as Hlen.
    rewrite length_app in Hfuel.
    destruct fuel as [|fuel]; [lia|]. simpl.
    destruct (strip_any_In tok s Hin) as (r & Hr). rewrite Hr.
    destruct (strip_any_Some _ _ Hr) as (tok' & Hin' & Heq).
    destruct (token_unique tok tok' s r Hin Hin' Heq) as [_ <-].
    apply IH. lia.
Qed.

(** The fuel that [trimStart_bytes] and [trimEnd_bytes] give is enough:
    what is left starts with no token. *)
Lemma drop_tokens_done fuel : forall s,
  (length s <= fuel)%nat -> strip_any toks (drop_tokens toks fuel s) = None.
Proof.
  induction fuel as [|fuel IH]; intros s Hlen; simpl.
  - destruct s; [|simpl in Hlen; lia].
    destruct (strip_any toks []) as [r|] eqn:Hr; [|reflexivity].
    destruct (strip_any_Some _ _ Hr) as (tok & Hin & Heq).
    pose proof (token_nonempty tok Hin) as Htok.
    destruct tok; [simpl in Htok; lia|discriminate].
  - destruct (strip_any toks s) as [r|] eqn:Hr; [|exact Hr].
    destruct (strip_any_Some _ _ Hr) as (tok & Hin & ->).
    pose proof (token_nonempty tok Hin) as Htok.
    apply IH. rewrite length_app in Hlen. lia.
Qed.

End Tokens.

Lemma tokens_only_rev toks s :
  tokens_only (map (@rev ascii) toks) s -> tokens_only toks (rev s).
Proof.
  induction 1 as [|tok s Hin Hs IH]; simpl; [constructor|].
  rewrite rev_app_distr. apply tokens_only_app; [exact IH|].
  apply in_map_iff in Hin as (t & <- & Ht). rewrite rev_involutive.
  rewrite <- (app_nil_r t). constructor; [exact Ht|constructor].
Qed.

Lemma whitespace_prefix_free : prefix_free whitespace = true.
Proof. vm_compute. reflexivity. Qed.

Lemma trim_blank s : String.eqb (trim s) "" = true <-> blank s.
Proof.
  unfold trim, blank. set (l := String.list_ascii_of_string s).
  rewrite String.eqb_eq. split.
  - intros H.
    assert (Hl : trimEnd_bytes (trimStart_bytes l) = []).
    { destruct (trimEnd_bytes (trimStart_bytes l)); [reflexivity|discriminate]. }
    unfold trimEnd_bytes in Hl.
    apply (f_equal (@rev ascii)) in Hl. rewrite rev_involutive in Hl.
    change (@rev ascii []) with (@nil ascii) in Hl.
    apply drop_tokens_nil_tokens, tokens_only_rev in Hl. rewrite rev_involutive in Hl.
    unfold trimStart_bytes in *.
    destruct (drop_tokens_dropped whitespace (length l) l) as (w & Hw & Heq).
    rewrite Heq. apply tokens_only_app; assumption.
  - intros Hb.
    unfold trimStart_bytes.
    rewrite (drop_tokens_tokens_only whitespace whitespace_prefix_free l Hb) by lia.
    reflexivity.
Qed.

(** ** Choosing among the pending promises *)

Lemma take_nth_perm {A} k : forall (x : A) xs e r,
  take_nth k x xs = (e, r) -> x :: xs ≡ₚ e :: r.
Proof.
  induction k as [|k IH]; intros x xs e r H; simpl in H.
  - destruct xs; injection H as <- <-; reflexivity.
  - destruct xs as [|y ys]; [injection H as <- <-; reflexivity|].
    destruct (take_nth k y ys) as [e' r'] eqn:Hk. injection H as <- <-.
    rewrite (IH y ys e' r' Hk). apply perm_swap.
Qed.

Lemma take_nth_In {A} (x : A) : forall ps p,
  In x (p :: ps) -> exists k r, take_nth k p ps = (x, r).
Proof.
  induction ps as [|y ys IH]; intros p Hin.
  - destruct Hin as [->|[]]. exists O, []. reflexivity.
  - destruct Hin as [->|Hin].
    + exists O, (y :: ys). reflexivity.
    + destruct (IH y Hin) as (k & r & Hk). exists (S k), (p :: r).
      simpl. rewrite Hk. reflexivity.
Qed.

(** The event loop can settle the pending promises in any order. *)
Lemma every_order_is_possible {A} (order : list A) : forall pending,
  pending ≡ₚ order -> exists choices, settling_order choices pending = order.
Proof.
  induction order as [|x order IH]; intros pending Hperm.
  - exists []. reflexivity.
  - destruct pending as [|p ps].
    { apply Permutation_nil_l in Hperm. discriminate. }
    destruct (take_nth_In x ps p) as (k & r & Hk).
    { apply list_elem_of_In. rewrite Hperm. left. }
    pose proof (take_nth_perm k p ps x r Hk) as Hr.
    destruct (IH r) as (choices & Hchoices).
    { apply (Permutation_cons_inv (a := x)). rewrite <- Hr. exact Hperm. }
    exists (k :: choices). simpl. rewrite Hk, Hchoices. reflexivity.
Qed.

(** ** Tasks *)

Lemma all_settled {A} (vs : list (option A)) :
  (forall j, (j < length vs)%nat -> exists v, vs !! j = Some (Some v)) ->
  Some <$> omap id vs = vs.
Proof.
  induction vs as [|o vs IH]; intros H; [reflexivity|].
  destruct (H O) as [v Hv]; [simpl; lia|]. simpl in Hv. injection Hv as ->.
  cbn. f_equal. apply IH. intros j Hj. apply (H (S j)). simpl. lia.
Qed.

Lemma any_state_cache_only `{host : Host} : cache_only any_state.
Proof. intros s s' _ _ _. exact Logic.I. Qed.

Lemma weighted_eq {X} (R : nat -> X -> Prop) total total' xs :
  weighted R total xs -> total = total' -> weighted R total' xs.
Proof. intros H <-. exact H. Qed.

Lemma weighted_take_nth {X} (R : nat -> X -> Prop) k : forall x xs total e r,
  weighted R total (x :: xs) -> take_nth k x xs = (e, r) ->
  exists b total', total = (b + total')%nat /\ R b e /\ weighted R total' r.
Proof.
  induction k as [|k IH]; intros x xs total e r Hw Hk; simpl in Hk.
  - destruct xs; injection Hk as <- <-; inversion Hw; subst; eauto.
  - destruct xs as [|y ys]; [injection Hk as <- <-; inversion Hw; subst; eauto|].
    destruct (take_nth k y ys) as [e' r'] eqn:Hk'. injection Hk as <- <-.
    inversion Hw as [|b0 x0 t0 xs0 Hx Hrest]; subst.
    destruct (IH y ys t0 e' r' Hrest Hk') as (b & t' & -> & He & Hr).
    exists b, (b0 + t')%nat. split; [lia|]. split; [exact He|].
    constructor; assumption.
Qed.

Lemma weighted_put_back {X} (R : nat -> X -> Prop) x b : forall xs k total,
  R b x -> weighted R total xs -> weighted R (b + total) (put_back k x xs).
Proof.
  unfold put_back. induction xs as [|y ys IH]; intros k total Hx Hw.
  - rewrite take_nil, drop_nil. simpl. constructor; assumption.
  - destruct k as [|k]; simpl.
    + constructor; assumption.
    + inversion Hw as [|by0 y0 t0 ys0 Hy Hrest]; subst.
      eapply weighted_eq; [constructor; [exact Hy|apply (IH k t0 Hx Hrest)]|lia].
Qed.

Lemma weighted_uniform {X} (R : nat -> X -> Prop) n xs :
  Forall (R n) xs -> weighted R (n * length xs) xs.
Proof.
  induction 1 as [|x xs Hx _ IH]; simpl.
  - rewrite Nat.mul_0_r. constructor.
  - eapply weighted_eq; [constructor; [exact Hx|exact IH]|lia].
Qed.

Lemma put_back_perm {X} k (x : X) xs : put_back k x xs ≡ₚ x :: xs.
Proof.
  unfold put_back. rewrite <- Permutation_middle, take_drop. reflexivity.
Qed.

(** Induction on a task: what holds of the rest of a task, from whatever
    state it is resumed in, holds of the task. *)
Lemma task_induction `{host : Host} {A} (Q : Task A -> Prop) :
  (forall r, Q (Finished r)) ->
  (forall resume, (forall s, Q (fst (resume s))) -> Q (Pending resume)) ->
  forall t, Q t.
Proof.
  intros Hf Hp. fix IH 1. intros [r|resume].
  - apply Hf.
  - apply Hp. intros s. apply IH.
Qed.

Section TaskFacts.

Context `{host : Host}.
Variables (I : State -> Prop) (P : Event -> Prop).
Hypothesis Hcache : cache_only I.

Lemma steps_refl s : I s -> steps I P s s.
Proof. intros Hs. split; [exact Hs|]. exists []. rewrite app_nil_r. auto. Qed.

Lemma steps_trans s1 s2 s3 : steps I P s1 s2 -> steps I P s2 s3 -> steps I P s1 s3.
Proof.
  intros (_ & e1 & H1 & P1) (I3 & e2 & H2 & P2). split; [exact I3|].
  exists (e1 ++ e2). rewrite H2, H1, app_assoc. split; [reflexivity|].
  apply Forall_app; auto.
Qed.

Lemma follows_mono {A} (V V' : A -> Prop) (E E' : JsValue -> Prop) :
  (forall v, V v -> V' v) -> (forall e, E e -> E' e) ->
  forall t n n', (n <= n')%nat -> follows n I P V E t -> follows n' I P V' E' t.
Proof.
  intros HV HE t. induction t as [[v|e|c]|resume IH] using task_induction;
    intros n n' Hn H; simpl in *; auto.
  destruct n as [|n]; [contradiction|]. destruct n' as [|n']; [lia|].
  intros s Hs. destruct (H s Hs) as [Hst Hf]. split; [exact Hst|].
  apply (IH s n n'); [lia|exact Hf].
Qed.

Lemma behaves_mono {A} (V V' : A -> Prop) (E E' : JsValue -> Prop) n n' (m : Async A) :
  (forall v, V v -> V' v) -> (forall e, E e -> E' e) -> (n <= n')%nat ->
  behaves n I P V E m -> behaves n' I P V' E' m.
Proof.
  intros HV HE Hn Hm s Hs. destruct (Hm s Hs) as [Hst Hf]. split; [exact Hst|].
  eapply follows_mono; eauto.
Qed.

(** A piece that does not wait. *)
Lemma behaves_sync {A} (V : A -> Prop) (E : JsValue -> Prop) n (m : Prog A) :
  keeps I P m ->
  (forall s, I s -> match fst (m s) with
                    | Ok v => V v
                    | Throw e => E e
                    | Exit _ => False
                    end) ->
  behaves n I P V E (sync m).
Proof.
  intros Hk Hr s Hs. unfold sync. specialize (Hk s Hs). specialize (Hr s Hs).
  destruct (m s) as [r s1]. simpl in *. split; [exact Hk|]. exact Hr.
Qed.

Lemma behaves_ret {A} (V : A -> Prop) (E : JsValue -> Prop) n a :
  V a -> behaves n I P V E (sync (ret a)).
Proof. intros Ha s Hs. split; [apply steps_refl; exact Hs|exact Ha]. Qed.

Lemma behaves_throw {A} (V : A -> Prop) (E : JsValue -> Prop) n e :
  E e -> behaves n I P V E (sync (@throw _ A e)).
Proof. intros He s Hs. split; [apply steps_refl; exact Hs|exact He]. Qed.

Lemma behaves_emit (V : unit -> Prop) (E : JsValue -> Prop) n ev :
  P ev -> V tt -> behaves n I P V E (sync (emit ev)).
Proof.
  intros Hev Hv s Hs. split; [|exact Hv]. split.
  - eapply Hcache; [| |exact Hs]; reflexivity.
  - exists [ev]. split; [reflexivity|]. repeat constructor. exact Hev.
Qed.

Lemma behaves_ask {A} (V : A -> Prop) (E : JsValue -> Prop) n (oracle : World -> A * World) :
  (forall w, V (fst (oracle w))) -> behaves n I P V E (sync (ask oracle)).
Proof.
  intros Hv s Hs. unfold sync, ask. specialize (Hv (world s)).
  destruct (oracle (world s)) as [a w]. simpl in *. split; [|exact Hv]. split.
  - eapply Hcache; [| |exact Hs]; reflexivity.
  - exists []. rewrite app_nil_r. auto.
Qed.

(** An answer of the outside that is awaited. *)
Lemma behaves_settle {A} (V : A -> Prop) (E : JsValue -> Prop) n
    (oracle : World -> Settled A * World) :
  (forall w, match fst (oracle w) with
             | Fulfilled v => V v
             | Rejected e => E e
             end) ->
  behaves (S n) I P V E (settle oracle).
Proof.
  intros Hr s Hs. unfold settle. specialize (Hr (world s)).
  destruct (oracle (world s)) as [r w]. simpl in *. split.
  - split; [eapply Hcache; [| |exact Hs]; reflexivity|].
    exists []. rewrite app_nil_r. auto.
  - intros s' Hs'. split; [apply steps_refl; exact Hs'|].
    destruct r; exact Hr.
Qed.

Lemma behaves_sleep (V : unit -> Prop) (E : JsValue -> Prop) n ms :
  P (Sleep ms) -> V tt -> behaves (S n) I P V E (Concurrent.sleep ms).
Proof.
  intros HP Hv s Hs. unfold Concurrent.sleep, and_then, sync, emit. simpl. split.
  - split; [eapply Hcache; [| |exact Hs]; reflexivity|].
    exists [Sleep ms]. split; [reflexivity|]. repeat constructor. exact HP.
  - intros s' Hs'. split; [apply steps_refl; exact Hs'|exact Hv].
Qed.

Lemma follows_then {A B} (V1 : A -> Prop) (V2 : B -> Prop) (E : JsValue -> Prop) b
    (f : A -> Async B) :
  (forall v, V1 v -> behaves b I P V2 E (f v)) ->
  forall t a s, I s -> follows a I P V1 E t ->
    steps I P s (snd (task_then t f s))
    /\ follows (a + b) I P V2 E (fst (task_then t f s)).
Proof.
  intros Hf t. induction t as [[v|e|c]|resume IH] using task_induction;
    intros a s Hs Ht; simpl in *.
  - destruct (Hf v Ht s Hs) as [Hst Hfo]. split; [exact Hst|].
    eapply follows_mono; [| | |exact Hfo]; auto. lia.
  - split; [apply steps_refl; exact Hs|exact Ht].
  - contradiction.
  - destruct a as [|a]; [contradiction|]. split; [apply steps_refl; exact Hs|].
    simpl. intros s' Hs'. destruct (Ht s' Hs') as [Hst Hfo].
    destruct (resume s') as [t' s''] eqn:Hres. simpl in *.
    specialize (IH s'). rewrite Hres in IH. simpl in IH.
    destruct (IH a s'' (proj1 Hst) Hfo) as [Hst2 Hfo2].
    split; [eapply steps_trans; eauto|exact Hfo2].
Qed.

Lemma behaves_then {A B} (V1 : A -> Prop) (V2 : B -> Prop) (E : JsValue -> Prop) a b
    (m : Async A) (f : A -> Async B) :
  behaves a I P V1 E m ->
  (forall v, V1 v -> behaves b I P V2 E (f v)) ->
  behaves (a + b) I P V2 E (and_then m f).
Proof.
  intros Hm Hf s Hs. unfold and_then. destruct (Hm s Hs) as [Hst Hfo].
  destruct (m s) as [t s1]. simpl in *.
  destruct (follows_then V1 V2 E b f Hf t a s1 (proj1 Hst) Hfo) as [Hst2 Hfo2].
  split; [eapply steps_trans; eauto|exact Hfo2].
Qed.

Lemma follows_catch {A} (V : A -> Prop) (E1 E2 : JsValue -> Prop) b
    (h : JsValue -> Async A) :
  (forall e, E1 e -> behaves b I P V E2 (h e)) ->
  forall t a s, I s -> follows a I P V E1 t ->
    steps I P s (snd (task_catch t h s))
    /\ follows (a + b) I P V E2 (fst (task_catch t h s)).
Proof.
  intros Hh t. induction t as [[v|e|c]|resume IH] using task_induction;
    intros a s Hs Ht; simpl in *.
  - split; [apply steps_refl; exact Hs|exact Ht].
  - destruct (Hh e Ht s Hs) as [Hst Hfo]. split; [exact Hst|].
    eapply follows_mono; [| | |exact Hfo]; auto. lia.
  - contradiction.
  - destruct a as [|a]; [contradiction|]. split; [apply steps_refl; exact Hs|].
    simpl. intros s' Hs'. destruct (Ht s' Hs') as [Hst Hfo].
    destruct (resume s') as [t' s''] eqn:Hres. simpl in *.
    specialize (IH s'). rewrite Hres in IH. simpl in IH.
    destruct (IH a s'' (proj1 Hst) Hfo) as [Hst2 Hfo2].
    split; [eapply steps_trans; eauto|exact Hfo2].
Qed.

Lemma behaves_catching {A} (V : A -> Prop) (E1 E2 : JsValue -> Prop) a b
    (m : Async A) (h : JsValue -> Async A) :
  behaves a I P V E1 m ->
  (forall e, E1 e -> behaves b I P V E2 (h e)) ->
  behaves (a + b) I P V E2 (catching m h).
Proof.
  intros Hm Hh s Hs. unfold catching. destruct (Hm s Hs) as [Hst Hfo].
  destruct (m s) as [t s1]. simpl in *.
  destruct (follows_catch V E1 E2 b h Hh t a s1 (proj1 Hst) Hfo) as [Hst2 Hfo2].
  split; [eapply steps_trans; eauto|exact Hfo2].
Qed.

End TaskFacts.

(** *** [Promise.all] *)

Section PromiseAll.

Context `{host : Host} {A : Type}.
Variables (I : State -> Prop) (P : Event -> Prop).
Hypothesis Hcache : cache_only I.

(** The calls: every function is started, in order. *)
Lemma start_all_spec n : forall (fns : list (Async A)) (V : nat -> A -> Prop)
    (E : nat -> JsValue -> Prop) s,
  (forall i fn, fns !! i = Some fn -> behaves n I P (V i) (E i) fn) ->
  I s ->
  steps I P s (snd (start_all fns s))
  /\ match fst (start_all fns s) with
     | Ok tasks =>
         length tasks = length fns
         /\ forall i t, tasks !! i = Some t -> follows n I P (V i) (E i) t
     | _ => False
     end.
Proof.
  induction fns as [|fn fns IH]; intros V E s Hfns Hs; simpl.
  - split; [apply steps_refl; exact Hs|]. split; [reflexivity|]. intros i t [=].
  - unfold bind, run_part.
    destruct (Hfns O fn eq_refl s Hs) as [Hst Hfo].
    destruct (fn s) as [t s1]. simpl in Hst, Hfo.
    destruct (IH (fun i => V (S i)) (fun i => E (S i)) s1) as [Hst2 Hres].
    { intros i fn' Hi. apply (Hfns (S i)). exact Hi. }
    { exact (proj1 Hst). }
    destruct t as [[v|e|c]|resume]; simpl in Hfo; try contradiction.
    all: destruct (start_all fns s1) as [[tasks|e'|c'] s2]; simpl in *; try contradiction.
    all: split; [eapply steps_trans; eauto|]; destruct Hres as [Hlen Hall].
    all: split; [rewrite Hlen; reflexivity|].
    all: intros [|i] t' Hi; simpl in Hi; [injection Hi as <-; exact Hfo|apply Hall; exact Hi].
Qed.

Variables (V : nat -> A -> Prop) (E : nat -> JsValue -> Prop).

Lemma seen_at_once_spec n : forall (tasks : list (Task A)) index values,
  (forall i t, tasks !! i = Some t ->
     follows n I P (V (index + i)) (E (index + i)) t) ->
  (index + length tasks <= length values)%nat ->
  match seen_at_once index tasks values with
  | Ok (values', pending) =>
      length values' = length values
      /\ Forall (waits_well I P V E n) pending
      /\ (length pending <= length tasks)%nat
      /\ NoDup pending.*1
      /\ (forall j, j ∈ pending.*1 -> (index <= j < index + length tasks)%nat)
      /\ (forall j, j ∉ pending.*1 ->
            ((index <= j < index + length tasks)%nat ->
               exists v, values' !! j = Some (Some v) /\ V j v)
            /\ (~ (index <= j < index + length tasks)%nat -> values' !! j = values !! j))
  | Throw e => exists i, (i < length tasks)%nat /\ E (index + i)%nat e
  | Exit _ => False
  end.
Proof.
  induction tasks as [|task tasks IH]; intros index values Htasks Hlen; simpl.
  - split; [reflexivity|]. split; [constructor|]. split; [lia|]. split; [constructor|].
    split; [intros j Hj; inversion Hj|]. intros j _. split; [lia|reflexivity].
  - pose proof (Htasks O task eq_refl) as Hhead. rewrite Nat.add_0_r in Hhead.
    assert (Hrest : forall i t, tasks !! i = Some t ->
              follows n I P (V (S index + i)) (E (S index + i)) t).
    { intros i t Hi. replace (S index + i)%nat with (index + S i)%nat by lia.
      apply (Htasks (S i)). exact Hi. }
    simpl in Hlen.
    destruct task as [[v|e|c]|resume]; simpl in Hhead.
    + specialize (IH (S index) (<[index := Some v]> values) Hrest).
      rewrite length_insert in IH. specialize (IH ltac:(lia)).
      destruct (seen_at_once (S index) tasks (<[index := Some v]> values))
        as [[values' pending]|e|c]; [| |contradiction].
      * destruct IH as (Hl & Hall & Hn & Hnd & Hin & Hout).
        split; [exact Hl|]. split; [exact Hall|]. split; [lia|]. split; [exact Hnd|].
        split; [intros j Hj; specialize (Hin j Hj); lia|].
        intros j Hj. destruct (Hout j Hj) as [Hinside Houtside]. split.
        -- intros Hrange. destruct (decide (j = index)) as [->|Hne].
           ++ exists v. split; [|exact Hhead].
              rewrite Houtside by lia. apply list_lookup_insert_eq. lia.
           ++ apply Hinside. lia.
        -- intros Hrange. rewrite Houtside by lia. apply list_lookup_insert_ne. lia.
      * destruct IH as (i & Hi & He). exists (S i).
        split; [lia|]. replace (index + S i)%nat with (S index + i)%nat by lia. exact He.
    + exists O. split; [lia|]. rewrite Nat.add_0_r. exact Hhead.
    + contradiction.
    + specialize (IH (S index) values Hrest ltac:(lia)).
      destruct (seen_at_once (S index) tasks values) as [[values' pending]|e|c];
        [| |contradiction].
      * destruct IH as (Hl & Hall & Hn & Hnd & Hin & Hout).
        split; [exact Hl|]. split; [constructor; [exact Hhead|exact Hall]|].
        split; [simpl; lia|]. split.
        { simpl. constructor; [|exact Hnd]. intros Hj. specialize (Hin _ Hj). lia. }
        split.
        { intros j Hj. simpl in Hj. apply elem_of_cons in Hj as [->|Hj];
            [lia|specialize (Hin j Hj); lia]. }
        intros j Hj. simpl in Hj. apply not_elem_of_cons in Hj as [Hne Hj].
        destruct (Hout j Hj) as [Hinside Houtside]. split.
        -- intros Hrange. apply Hinside. lia.
        -- intros Hrange. apply Houtside. lia.
      * destruct IH as (i & Hi & He). exists (S i).
        split; [lia|]. replace (index + S i)%nat with (S index + i)%nat by lia. exact He.
Qed.

Lemma loop_ends_indices (indices indices' : list nat) values (r : Res (list (option A))) :
  (forall j, j ∈ indices <-> j ∈ indices') ->
  loop_ends indices V E values r -> loop_ends indices' V E values r.
Proof.
  intros Hiff. destruct r as [vs|e|c]; simpl; [| |auto].
  - intros [Hlen Hvs]. split; [exact Hlen|]. intros j. split.
    + intros Hj. apply (proj1 (Hvs j)). apply Hiff. exact Hj.
    + intros Hj. apply (proj2 (Hvs j)). intros Hj'. apply Hj, Hiff. exact Hj'.
  - intros (j & Hj & He). exists j. split; [apply Hiff; exact Hj|exact He].
Qed.

(** The loop: in whatever order the event loop resumes the promises that
    wait, each of them ends as it should, when the fuel covers their
    resumptions. *)
Lemma promise_all_loop_spec fuel :
  forall (pending : list (nat * (State -> Task A * State))) values s total,
    weighted (waits_well I P V E) total pending ->
    (total <= fuel)%nat ->
    NoDup pending.*1 ->
    (forall i, i ∈ pending.*1 -> (i < length values)%nat) ->
    I s ->
    steps I P s (snd (promise_all_loop pending fuel values s))
    /\ loop_ends pending.*1 V E values (fst (promise_all_loop pending fuel values s)).
Proof.
  assert (Hnil : forall fuel values s, I s ->
    steps I P s (snd (promise_all_loop [] fuel values s))
    /\ loop_ends [] V E values (fst (promise_all_loop [] fuel values s))).
  { intros f values s Hs. destruct f; simpl.
    all: split; [apply steps_refl; exact Hs|]; split; [reflexivity|].
    all: intros j; split; [intros Hj; inversion Hj|reflexivity]. }
  induction fuel as [|fuel IH]; intros pending values s total Hw Hle Hnd Hlt Hs.
  - destruct pending as [|p ps]; [apply Hnil; exact Hs|].
    exfalso. inversion Hw as [|b x t xs Hx Hrest]; subst.
    assert (b = O) by lia. subst b. exact Hx.
  - destruct pending as [|p ps]; [apply Hnil; exact Hs|].
    destruct (promise_all_loop (p :: ps) (S fuel) values s) as [res sf] eqn:Hrun.
    cbn [promise_all_loop] in Hrun. unfold bind at 1, ask in Hrun.
    destruct (next_settled (length (p :: ps)) (world s)) as [k w].
    set (s0 := {| world := w; trace := trace s;
                  contentGenerator := contentGenerator s;
                  generatorConfig := generatorConfig s |}) in *.
    assert (Hs0 : I s0) by (eapply Hcache; [| |exact Hs]; reflexivity).
    assert (Hst0 : steps I P s s0).
    { split; [exact Hs0|]. exists []. rewrite app_nil_r. auto. }
    destruct (take_nth k p ps) as [[index resume] others] eqn:Hk.
    pose proof (take_nth_perm k p ps _ _ Hk) as Hperm.
    assert (Hperm1 : (p :: ps).*1 ≡ₚ index :: others.*1).
    { rewrite Hperm. reflexivity. }
    destruct (weighted_take_nth _ k p ps total _ _ Hw Hk) as (b & total' & -> & Hb & Hw').
    unfold waits_well in Hb. simpl in Hb.
    destruct b as [|b]; [contradiction|].
    destruct (Hb s0 Hs0) as [Hst1 Hfo].
    unfold bind at 1, run_part in Hrun.
    destruct (resume s0) as [t s1]. simpl in Hst1, Hfo.
    pose proof Hnd as Hnd0. rewrite Hperm1 in Hnd0. apply NoDup_cons in Hnd0 as [Hfresh Hnd'].
    assert (Hindex : (index < length values)%nat).
    { apply Hlt. rewrite Hperm1. left. }
    destruct t as [[v|e|c]|resume']; simpl in Hfo.
    + destruct (IH others (<[index := Some v]> values) s1 total' Hw') as [Hst2 Hend];
        [lia|exact Hnd'| |exact (proj1 Hst1)|].
      { intros i Hi. rewrite length_insert. apply Hlt. rewrite Hperm1. right. exact Hi. }
      rewrite Hrun in Hst2, Hend. simpl in Hst2, Hend.
      split; [eapply steps_trans; [exact Hst0|]; eapply steps_trans; eauto|].
      destruct res as [vs|e|c]; simpl in *; [| |contradiction].
      * destruct Hend as [Hlenvs Hvs]. rewrite length_insert in Hlenvs.
        split; [exact Hlenvs|]. intros j. split.
        -- intros Hj. rewrite Hperm1 in Hj. apply elem_of_cons in Hj as [->|Hj].
           ++ exists v. split; [|exact Hfo].
              rewrite (proj2 (Hvs index) Hfresh). apply list_lookup_insert_eq. exact Hindex.
           ++ apply (proj1 (Hvs j) Hj).
        -- intros Hj. rewrite Hperm1 in Hj. apply not_elem_of_cons in Hj as [Hne Hj].
           rewrite (proj2 (Hvs j) Hj). apply list_lookup_insert_ne. congruence.
      * destruct Hend as (j & Hj & He). exists j. split; [|exact He].
        rewrite Hperm1. right. exact Hj.
    + unfold throw in Hrun. injection Hrun as <- <-. simpl.
      split; [exact (steps_trans I P s s0 s1 Hst0 Hst1)|].
      exists index. split; [|exact Hfo].
      rewrite Hperm1. left.
    + contradiction.
    + assert (Hback : (put_back k (index, resume') others).*1 ≡ₚ index :: others.*1).
      { rewrite put_back_perm. reflexivity. }
      destruct (IH (put_back k (index, resume') others) values s1 (b + total')%nat)
        as [Hst2 Hend].
      * apply weighted_put_back; [exact Hfo|exact Hw'].
      * lia.
      * rewrite Hback. apply NoDup_cons. split; assumption.
      * intros i Hi. apply Hlt. rewrite Hperm1, <- Hback. exact Hi.
      * exact (proj1 Hst1).
      * rewrite Hrun in Hst2, Hend. simpl in Hst2, Hend.
        split; [eapply steps_trans; [exact Hst0|]; eapply steps_trans; eauto|].
        eapply loop_ends_indices; [|exact Hend].
        intros j. rewrite Hback, Hperm1. reflexivity.
Qed.

(** [Promise.all]: when each function behaves and is resumed at most [n]
    times, and the fuel covers that, the functions are called, and then
    there is one value for each function, in the order of the functions, or
    the error of one of them. *)
Lemma promise_all_run n fuel (fns : list (Async A)) s :
  (forall i fn, fns !! i = Some fn -> behaves n I P (V i) (E i) fn) ->
  (n * length fns <= fuel)%nat ->
  I s ->
  steps I P s (snd (start_all fns s))
  /\ steps I P (snd (start_all fns s)) (snd (promise_all fuel fns s))
  /\ all_end (length fns) V E (fst (promise_all fuel fns s)).
Proof.
  intros Hfns Hfuel Hs.
  destruct (promise_all fuel fns s) as [res sf] eqn:Hrun.
  unfold promise_all in Hrun. unfold bind at 1 in Hrun.
  destruct (start_all_spec n fns V E s Hfns Hs) as [Hst Hres].
  destruct (start_all fns s) as [[tasks|e|c] s1]; simpl in Hst, Hres; try contradiction.
  split; [exact Hst|]. simpl.
  destruct Hres as [Hlen Hall].
  pose proof (seen_at_once_spec n tasks O (replicate (length fns) None)) as Hseen.
  simpl in Hseen. rewrite length_replicate, Hlen in Hseen.
  specialize (Hseen Hall (Nat.le_refl _)).
  destruct (seen_at_once 0 tasks (replicate (length fns) None))
    as [[values pending]|e|c]; [| |contradiction].
  - destruct Hseen as (Hl & Hwait & Hn & Hnd & Hin & Hout).
    destruct (promise_all_loop_spec fuel pending values s1 (n * length pending)%nat)
      as [Hst2 Hend].
    + apply weighted_uniform. exact Hwait.
    + etransitivity; [|exact Hfuel]. apply Nat.mul_le_mono_l. exact Hn.
    + exact Hnd.
    + intros i Hi. specialize (Hin i Hi). lia.
    + exact (proj1 Hst).
    + unfold bind in Hrun.
      destruct (promise_all_loop pending fuel values s1) as [[vs|e|c] s2];
        simpl in Hst2, Hend; try contradiction.
      * unfold ret in Hrun. injection Hrun as <- <-. split; [exact Hst2|].
        destruct Hend as [Hlenvs Hvs].
        assert (Hevery : forall j, (j < length vs)%nat ->
                  exists v, vs !! j = Some (Some v) /\ V j v).
        { intros j Hj. destruct (decide (j ∈ pending.*1)) as [Hp|Hp].
          - apply (proj1 (Hvs j) Hp).
          - rewrite (proj2 (Hvs j) Hp). apply (proj1 (Hout j Hp)). lia. }
        assert (Hsome : Some <$> omap id vs = vs).
        { apply all_settled. intros j Hj. destruct (Hevery j Hj) as (v & Hv & _). eauto. }
        split.
        -- transitivity (length (Some <$> omap id vs));
             [rewrite length_fmap; reflexivity|rewrite Hsome; lia].
        -- intros i v Hi.
           assert (Hvi : vs !! i = Some (Some v)).
           { rewrite <- Hsome, list_lookup_fmap, Hi. reflexivity. }
           destruct (Hevery i) as (v' & Hv' & HV); [eapply lookup_lt_Some; exact Hvi|].
           congruence.
      * injection Hrun as <- <-. split; [exact Hst2|].
        destruct Hend as (j & Hj & He). exists j. split; [|exact He].
        specialize (Hin j Hj). lia.
  - unfold throw in Hrun. injection Hrun as <- <-.
    split; [apply steps_refl; exact (proj1 Hst)|].
    destruct Hseen as (i & Hi & He). exists i. split; [lia|exact He].
Qed.

Lemma promise_all_spec n fuel (fns : list (Async A)) s :
  (forall i fn, fns !! i = Some fn -> behaves n I P (V i) (E i) fn) ->
  (n * length fns <= fuel)%nat ->
  I s ->
  steps I P s (snd (promise_all fuel fns s))
  /\ all_end (length fns) V E (fst (promise_all fuel fns s)).
Proof.
  intros Hfns Hfuel Hs.
  destruct (promise_all_run n fuel fns s Hfns Hfuel Hs) as (H1 & H2 & H3).
  split; [eapply steps_trans; eauto|exact H3].
Qed.

End PromiseAll.

(** *** The functions of the research phase as tasks *)

Section ConcurrentFacts.

Context `{host : Host}.
Variables (I : State -> Prop) (P : Event -> Prop).
Hypothesis Hcache : cache_only I.
Hypothesis Hlog : forall msg, P (ConsoleLog msg).
Hypothesis Hsleep : forall ms, P (Sleep ms).

(** The wrapper makes at most [remaining] invocations and sets at most as
    many timers. *)
Lemma behaves_withRetry_loop {T} (V : T -> Prop) (E : JsValue -> Prop)
    (fn : Async T) context :
  behaves 1 I P V E fn ->
  forall remaining attempt lastError,
    (remaining = O -> E lastError) ->
    behaves (2 * remaining) I P V E
      (Concurrent.withRetry_loop fn context remaining attempt lastError).
Proof.
  intros Hfn. induction remaining as [|r IH]; intros attempt lastError Hlast;
    cbn [Concurrent.withRetry_loop].
  - apply behaves_throw. auto.
  - apply (behaves_mono I P V V E E (1 + (1 + 2 * r))); auto; [lia|].
    apply (behaves_catching I P V E E 1 (1 + 2 * r) fn); [exact Hfn|].
    intros error Herror.
    destruct (negb (isRateLimitError error)).
    + apply behaves_throw. exact Herror.
    + apply (behaves_then I P (fun _ => True) V E 1 (2 * r)).
      * destruct (attempt <? MAX_RETRIES - 1)%nat.
        -- cbv zeta.
           apply (behaves_then I P (fun _ => True) (fun _ => True) E 0 1).
           ++ apply behaves_emit; auto.
           ++ intros _ _. apply behaves_sleep; auto.
        -- apply behaves_ret. exact Logic.I.
      * intros _ _. apply IH. intros _. exact Herror.
Qed.

Lemma behaves_withRetry {T} (V : T -> Prop) (E : JsValue -> Prop) (fn : Async T) context :
  behaves 1 I P V E fn ->
  behaves 10 I P V E (Concurrent.withRetry fn context).
Proof.
  intros Hfn. apply (behaves_withRetry_loop V E fn context Hfn 5 0 JUndefined).
  discriminate.
Qed.

Hypothesis Hinit :
  behaves 2 I P (fun _ => True) creation_error Concurrent.initializeClient.

Lemma behaves_generateContent sys prompt options :
  (forall promptId, P (GenerateContent (content_request sys prompt options) promptId)) ->
  behaves 12 I P
    (fun generated =>
       exists response,
         answers (content_request sys prompt options) (Fulfilled response)
         /\ generated = read_response response)
    (fun e => answers (content_request sys prompt options) (Rejected e) \/ creation_error e)
    (Concurrent.generateContent sys prompt options).
Proof.
  intros Hreq. unfold Concurrent.generateContent.
  apply (behaves_then I P (fun _ => True) _ _ 2 10).
  { eapply behaves_mono; [| | |exact Hinit]; auto. }
  intros [client config] _. cbv zeta.
  change {| model := DEFAULT_MODEL; contents := user_contents prompt; config := _ |}
    with (content_request sys prompt options).
  apply (behaves_then I P
           (fun response => answers (content_request sys prompt options) (Fulfilled response))
           _ _ 10 0).
  - apply behaves_withRetry.
    apply (behaves_then I P (fun _ => True) _ _ 0 1).
    { apply behaves_ask; auto. }
    intros promptId _.
    apply (behaves_then I P (fun _ => True) _ _ 0 1).
    { apply behaves_emit; auto. }
    intros _ _. apply behaves_settle; [exact Hcache|]. intros w.
    destruct (client_generateContent (fst (client, config))
                (content_request sys prompt options) promptId w) as [[response|e] w'] eqn:Hc;
      simpl.
    + exists client, promptId, w. simpl in Hc. rewrite Hc. reflexivity.
    + left. exists client, promptId, w. simpl in Hc. rewrite Hc. reflexivity.
  - intros response Hresponse. apply behaves_ret. exists response. auto.
Qed.

Lemma behaves_runResearcher q :
  (forall promptId, P (GenerateContent (researcher_request q) promptId)) ->
  behaves 12 I P (researcher_result q) (researcher_error q) (Concurrent.runResearcher q).
Proof.
  intros Hreq. unfold Concurrent.runResearcher.
  apply (behaves_then I P
           (fun generated =>
              exists response,
                answers (researcher_request q) (Fulfilled response)
                /\ generated = read_response response)
           (researcher_result q) (researcher_error q) 12 0).
  - apply (behaves_generateContent researcher_instruction (researcher_prompt q)
             researcher_options).
    exact Hreq.
  - intros generated (response & Hanswer & ->). cbv zeta. apply behaves_ret.
    exists response. split; [exact Hanswer|reflexivity].
Qed.

Hypothesis Hrequest : forall request promptId, P (GenerateContent request promptId).

(** The promises of the research phase. *)
Lemma behaves_researchers qs i fn :
  imap (fun index question =>
          result <~ Concurrent.runResearcher question ;;
          sync (console_log ("  ✓ Q" +:+ pretty (index + 1)%nat +:+ ": " +:+ question)) ;;~
          sync (ret result)) qs !! i = Some fn ->
  behaves 12 I P
    (fun r => exists q, qs !! i = Some q /\ researcher_result q r)
    (fun e => exists q, qs !! i = Some q /\ researcher_error q e)
    fn.
Proof.
  intros Hi. rewrite list_lookup_imap in Hi.
  destruct (qs !! i) as [q|] eqn:Hq; simpl in Hi; [|discriminate].
  injection Hi as <-.
  apply (behaves_then I P (researcher_result q) _ _ 12 0).
  - eapply behaves_mono; [| | |apply (behaves_runResearcher q)]; eauto.
  - intros r Hr. apply (behaves_then I P (fun _ => True) _ _ 0 0).
    + apply behaves_emit; auto.
    + intros _ _. apply behaves_ret. eauto.
Qed.

(** The research phase: what it does keeps [I] and is in [P]; and it ends
    with one result for each question, in the order of the questions, each
    made of a response to the request for its question, or with the error
    of one of the researchers. *)
Lemma research_all_spec qs s :
  I s ->
  steps I P s (snd (research_all qs s))
  /\ all_end (length qs)
       (fun i r => exists q, qs !! i = Some q /\ researcher_result q r)
       (fun i e => exists q, qs !! i = Some q /\ researcher_error q e)
       (fst (research_all qs s)).
Proof.
  intros Hs. unfold research_all.
  match goal with
  | |- context [promise_all ?fuel ?fns s] =>
      pose proof (promise_all_spec I P Hcache
                    (fun i r => exists q, qs !! i = Some q /\ researcher_result q r)
                    (fun i e => exists q, qs !! i = Some q /\ researcher_error q e)
                    12 fuel fns s) as Hall
  end.
  rewrite length_imap in Hall. apply Hall; [|reflexivity|exact Hs].
  intros i fn. apply behaves_researchers.
Qed.

End ConcurrentFacts.

Section InitializerFacts.

Context `{host : Host}.

Lemma keeps_read_any {A} (P : Event -> Prop) (read : State -> A) :
  keeps any_state P (fun s => (Ok (read s), s)).
Proof.
  intros s _. split; [exact Logic.I|]. exists []. simpl. rewrite app_nil_r. auto.
Qed.

(** The initializer as a task, when other tasks may create the client at the
    same time: it waits at most twice. *)
Lemma behaves_initializeClient_any (P : Event -> Prop) :
  P CreateContentGeneratorConfig -> P CreateContentGenerator ->
  behaves 2 any_state P (fun _ => True) creation_error Concurrent.initializeClient.
Proof.
  intros H1 H2.
  assert (Hcreate :
    behaves 2 any_state P (fun _ => True) creation_error
      (let gcConfig := makeFakeConfig in
       config <~ (sync (emit CreateContentGeneratorConfig) ;;~
                  settle (createContentGeneratorConfig gcConfig)) ;;
       sync (write_generatorConfig config) ;;~
       client <~ (sync (emit CreateContentGenerator) ;;~
                  settle (createContentGenerator config gcConfig)) ;;
       sync (write_contentGenerator client) ;;~
       stored_client <~ sync read_contentGenerator ;;
       stored_config <~ sync read_generatorConfig ;;
       sync (ret (default client stored_client, default config stored_config)))).
  { intros s _. unfold and_then, sync, settle, emit. simpl.
    destruct (createContentGeneratorConfig makeFakeConfig (world s)) as [[cfg|e] w] eqn:Hcfg;
      simpl.
    all: split; [split; [exact Logic.I|]; exists [CreateContentGeneratorConfig];
                 split; [reflexivity|repeat constructor; exact H1]|].
    all: intros s1 _; simpl.
    2: { split; [apply steps_refl; exact Logic.I|].
         left. exists (world s). rewrite Hcfg. reflexivity. }
    destruct (createContentGenerator cfg makeFakeConfig (world s1)) as [[cl|e] w1] eqn:Hcl;
      simpl.
    all: split; [split; [exact Logic.I|]; exists [CreateContentGenerator];
                 split; [reflexivity|repeat constructor; exact H2]|].
    all: intros s2 _; simpl.
    all: split; [split; [exact Logic.I|]; exists []; rewrite app_nil_r; auto|].
    - exact Logic.I.
    - right. exists cfg, (world s1). rewrite Hcl. reflexivity. }
  unfold Concurrent.initializeClient.
  apply (behaves_then any_state P (fun _ => True) _ _ 0 2).
  { apply behaves_sync; [apply keeps_read_any|]. intros s _. exact Logic.I. }
  intros cached_client _.
  apply (behaves_then any_state P (fun _ => True) _ _ 0 2).
  { apply behaves_sync; [apply keeps_read_any|]. intros s _. exact Logic.I. }
  intros cached_config _.
  destruct cached_client as [client|]; destruct cached_config as [config|];
    try exact Hcreate.
  apply behaves_ret. exact Logic.I.
Qed.

(** The initializer as a task, when the client is cached: it does not wait. *)
Lemma behaves_initializeClient_cached (P : Event -> Prop) client config n :
  behaves n (cache_is (Some client) (Some config)) P (fun _ => True) creation_error
    Concurrent.initializeClient.
Proof.
  intros s [Hc Hg].
  unfold Concurrent.initializeClient, and_then, sync, read_contentGenerator,
    read_generatorConfig. simpl. rewrite Hc, Hg. simpl.
  split; [apply steps_refl; split; assumption|exact Logic.I].
Qed.

End InitializerFacts.

(** *** A task that runs alone *)

Section AloneFacts.

Context `{host : Host}.

Lemma bind_ext {A B} (m m' : Prog A) (f f' : A -> Prog B) s :
  m s = m' s -> (forall a s', f a s' = f' a s') -> bind m f s = bind m' f' s.
Proof.
  intros Hm Hf. unfold bind. rewrite Hm. destruct (m' s) as [[a|e|c] s']; auto.
Qed.

Lemma bind_assoc {A B C} (m : Prog A) (f : A -> Prog B) (g : B -> Prog C) s :
  bind (bind m f) g s = bind m (fun a => bind (f a) g) s.
Proof. unfold bind. destruct (m s) as [[a|e|c] s']; reflexivity. Qed.

Lemma try_catch_ext {A} (m m' : Prog A) (h h' : JsValue -> Prog A) s :
  m s = m' s -> (forall e s', h e s' = h' e s') -> try_catch m h s = try_catch m' h' s.
Proof.
  intros Hm Hh. unfold try_catch. rewrite Hm. destruct (m' s) as [[a|e|c] s']; auto.
Qed.

Lemma alone_sync {A} (m : Prog A) s : alone (sync m) s = m s.
Proof. unfold alone, sync. destruct (m s) as [r s']. reflexivity. Qed.

Lemma alone_settle {A} (oracle : World -> Settled A * World) s :
  alone (settle oracle) s = await oracle s.
Proof.
  unfold alone, settle, await. destruct (oracle (world s)) as [[a|e] w]; reflexivity.
Qed.

Lemma alone_sleep ms s : alone (Concurrent.sleep ms) s = sleep ms s.
Proof. reflexivity. Qed.

Lemma run_task_then {A B} (f : A -> Async B) : forall (t : Task A) s,
  (let '(t', s') := task_then t f s in run_task t' s')
  = bind (run_task t) (fun a => alone (f a)) s.
Proof.
  intros t. induction t as [[a|e|c]|resume IH] using task_induction; intros s;
    try reflexivity.
  simpl. unfold bind. simpl. specialize (IH s).
  destruct (resume s) as [t' s'']. simpl in IH. apply IH.
Qed.

Lemma alone_then {A B} (m : Async A) (f : A -> Async B) s :
  alone (and_then m f) s = bind (alone m) (fun a => alone (f a)) s.
Proof.
  unfold alone at 1, and_then. unfold bind, alone at 1.
  destruct (m s) as [t s1]. rewrite run_task_then. reflexivity.
Qed.

Lemma run_task_catch {A} (h : JsValue -> Async A) : forall (t : Task A) s,
  (let '(t', s') := task_catch t h s in run_task t' s')
  = try_catch (run_task t) (fun e => alone (h e)) s.
Proof.
  intros t. induction t as [[a|e|c]|resume IH] using task_induction; intros s;
    try reflexivity.
  simpl. unfold try_catch. simpl. specialize (IH s).
  destruct (resume s) as [t' s'']. simpl in IH. apply IH.
Qed.

Lemma alone_catching {A} (m : Async A) (h : JsValue -> Async A) s :
  alone (catching m h) s = try_catch (alone m) (fun e => alone (h e)) s.
Proof.
  unfold alone at 1, catching. unfold try_catch, alone at 1.
  destruct (m s) as [t s1]. rewrite run_task_catch. reflexivity.
Qed.

Lemma alone_withRetry_loop {T} (fn : Async T) (fn' : Prog T) context :
  (forall s, alone fn s = fn' s) ->
  forall remaining attempt lastError s,
    alone (Concurrent.withRetry_loop fn context remaining attempt lastError) s
    = withRetry_loop fn' context remaining attempt lastError s.
Proof.
  intros Hfn. induction remaining as [|r IH]; intros attempt lastError s;
    cbn [Concurrent.withRetry_loop withRetry_loop].
  - apply alone_sync.
  - rewrite alone_catching. apply try_catch_ext; [apply Hfn|].
    intros error s1. destruct (negb (isRateLimitError error)); [apply alone_sync|].
    rewrite alone_then. apply bind_ext; [|intros; apply IH].
    destruct (attempt <? MAX_RETRIES - 1)%nat; [|apply alone_sync].
    cbv zeta. rewrite alone_then. apply bind_ext; [apply alone_sync|].
    intros; apply alone_sleep.
Qed.

Lemma alone_initializeClient s :
  alone Concurrent.initializeClient s = initializeClient s.
Proof.
  unfold Concurrent.initializeClient, initializeClient.
  rewrite alone_then. apply bind_ext; [apply alone_sync|]. intros cached_client s1.
  rewrite alone_then. apply bind_ext; [apply alone_sync|]. intros cached_config s2.
  assert (Hcreate : forall s3,
    alone
      (let gcConfig := makeFakeConfig in
       config <~ (sync (emit CreateContentGeneratorConfig) ;;~
                  settle (createContentGeneratorConfig gcConfig)) ;;
       sync (write_generatorConfig config) ;;~
       client <~ (sync (emit CreateContentGenerator) ;;~
                  settle (createContentGenerator config gcConfig)) ;;
       sync (write_contentGenerator client) ;;~
       stored_client <~ sync read_contentGenerator ;;
       stored_config <~ sync read_generatorConfig ;;
       sync (ret (default client stored_client, default config stored_config))) s3
    = (let gcConfig := makeFakeConfig in
       config <- (emit CreateContentGeneratorConfig ;;;
                  await (createContentGeneratorConfig gcConfig)) ;;
       write_generatorConfig config ;;;
       client <- (emit CreateContentGenerator ;;;
                  await (createContentGenerator config gcConfig)) ;;
       write_contentGenerator client ;;;
       ret (client, config)) s3).
  { intros s3. unfold alone, and_then, sync, settle, bind, emit, await. simpl.
    destruct (createContentGeneratorConfig makeFakeConfig (world s3)) as [[cfg|e] w];
      simpl; [|reflexivity].
    destruct (createContentGenerator cfg makeFakeConfig w) as [[cl|e] w']; reflexivity. }
  destruct cached_client; destruct cached_config; try apply Hcreate.
  apply alone_sync.
Qed.

Lemma alone_generateContent sys prompt options s :
  alone (Concurrent.generateContent sys prompt options) s
  = generateContent sys prompt options s.
Proof.
  unfold Concurrent.generateContent, generateContent, request_content.
  rewrite bind_assoc, alone_then. apply bind_ext; [apply alone_initializeClient|].
  intros initialized s1. cbv zeta.
  rewrite alone_then. apply bind_ext; [|intros; apply alone_sync].
  apply alone_withRetry_loop. intros s2.
  rewrite alone_then. apply bind_ext; [apply alone_sync|]. intros promptId s3.
  rewrite alone_then. apply bind_ext; [apply alone_sync|]. intros _ s4.
  apply alone_settle.
Qed.

(** A researcher that runs alone, resumed as soon as it waits, is the
    [runResearcher] of the first embedding. *)
Lemma alone_runResearcher q s :
  alone (Concurrent.runResearcher q) s = runResearcher q s.
Proof.
  unfold Concurrent.runResearcher, runResearcher.
  rewrite alone_then. apply bind_ext; [apply alone_generateContent|].
  intros generated s1. apply alone_sync.
Qed.

End AloneFacts.

(** *** The calls of the research phase *)

Section EagerStart.

Context `{host : Host}.

(** The first part of a researcher when the client is cached: its request
    is sent, and it waits for the response. *)
Lemma researcher_starts {B} q (k : ResearchResult -> Async B) s :
  cached s ->
  exists resume promptId s1,
    and_then (Concurrent.runResearcher q) k s = (Pending resume, s1)
    /\ trace s1 = trace s ++ [GenerateContent (researcher_request q) promptId]
    /\ contentGenerator s1 = contentGenerator s
    /\ generatorConfig s1 = generatorConfig s.
Proof.
  intros [[client Hc] [config Hg]].
  unfold and_then at 1, Concurrent.runResearcher, Concurrent.generateContent,
    Concurrent.initializeClient.
  unfold and_then, sync, read_contentGenerator, read_generatorConfig. simpl.
  rewrite Hc, Hg. simpl. unfold Concurrent.withRetry.
  change MAX_RETRIES with 5%nat. cbn [Concurrent.withRetry_loop].
  unfold catching, and_then, sync, ask, settle, emit. simpl.
  destruct (crypto_randomUUID (world s)) as [promptId w1]. simpl.
  match goal with
  | |- context [client_generateContent ?c ?r ?i ?w] =>
      destruct (client_generateContent c r i w) as [outcome w2]
  end.
  simpl. eexists. exists promptId. eexists. split; [reflexivity|]. simpl.
  split; [reflexivity|]. split; assumption.
Qed.

Lemma start_researchers : forall qs (k : nat -> string -> ResearchResult -> Async ResearchResult) s,
  cached s ->
  exists promptIds tasks s1,
    start_all (imap (fun i q => and_then (Concurrent.runResearcher q) (k i q)) qs) s
    = (Ok tasks, s1)
    /\ length promptIds = length qs
    /\ trace s1
       = trace s ++ zip_with (fun q id => GenerateContent (researcher_request q) id)
                      qs promptIds
    /\ cached s1.
Proof.
  induction qs as [|q qs IH]; intros k s Hs.
  - exists [], [], s. simpl. rewrite app_nil_r. auto.
  - rewrite imap_cons. cbn [start_all]. unfold bind at 1, run_part.
    destruct (researcher_starts q (k O q) s Hs) as (resume & id & s1 & -> & Htr & Hcg & Hcfg).
    assert (Hs1 : cached s1) by (unfold cached; rewrite Hcg, Hcfg; exact Hs).
    destruct (IH (fun i => k (S i)) s1 Hs1) as (ids & tasks & s2 & Hrest & Hlen & Htr2 & Hs2).
    unfold bind, compose. simpl in Hrest. rewrite Hrest.
    exists (id :: ids), (Pending resume :: tasks), s2.
    split; [reflexivity|]. split; [simpl; rewrite Hlen; reflexivity|].
    split; [|exact Hs2]. rewrite Htr2, Htr, <- app_assoc. reflexivity.
Qed.

End EagerStart.

(** ** What never ends the process *)

Section NoExit.

Context `{host : Host}.

Lemma no_exit_ret {A} (a : A) : no_exit (ret a).
Proof. intros s. reflexivity. Qed.

Lemma no_exit_throw {A} e : no_exit (@throw _ A e).
Proof. intros s. reflexivity. Qed.

Lemma no_exit_emit ev : no_exit (emit ev).
Proof. intros s. reflexivity. Qed.

Lemma no_exit_console_log msg : no_exit (console_log msg).
Proof. intros s. reflexivity. Qed.

Lemma no_exit_console_error msg d : no_exit (console_error msg d).
Proof. intros s. reflexivity. Qed.

Lemma no_exit_sleep ms : no_exit (sleep ms).
Proof. intros s. reflexivity. Qed.

Lemma no_exit_await {A} (oracle : World -> Settled A * World) : no_exit (await oracle).
Proof. intros s. unfold await. destruct (oracle (world s)) as [[a|e] w]; reflexivity. Qed.

Lemma no_exit_ask {A} (oracle : World -> A * World) : no_exit (ask oracle).
Proof. intros s. unfold ask. destruct (oracle (world s)) as [a w]; reflexivity. Qed.

Lemma no_exit_bind {A B} (m : Prog A) (f : A -> Prog B) :
  no_exit m -> (forall a, no_exit (f a)) -> no_exit (bind m f).
Proof.
  intros Hm Hf s. unfold bind. specialize (Hm s).
  destruct (m s) as [[a|e|c] s']; simpl in *; [apply Hf|reflexivity|discriminate].
Qed.

Lemma no_exit_try_catch {A} (m : Prog A) (h : JsValue -> Prog A) :
  no_exit m -> (forall e, no_exit (h e)) -> no_exit (try_catch m h).
Proof.
  intros Hm Hh s. unfold try_catch. specialize (Hm s).
  destruct (m s) as [[a|e|c] s']; simpl in *; [reflexivity|apply Hh|discriminate].
Qed.

Lemma no_exit_read_cg : no_exit read_contentGenerator.
Proof. intros s. reflexivity. Qed.
Lemma no_exit_read_cfg : no_exit read_generatorConfig.
Proof. intros s. reflexivity. Qed.
Lemma no_exit_write_cg c : no_exit (write_contentGenerator c).
Proof. intros s. reflexivity. Qed.
Lemma no_exit_write_cfg c : no_exit (write_generatorConfig c).
Proof. intros s. reflexivity. Qed.

End NoExit.

Create HintDb no_exit.
#[export] Hint Resolve no_exit_ret no_exit_throw no_exit_emit no_exit_console_log
  no_exit_console_error no_exit_sleep no_exit_await no_exit_ask
  no_exit_read_cg no_exit_read_cfg no_exit_write_cg no_exit_write_cfg : no_exit.

Ltac no_exit_step :=
  match goal with
  | |- no_exit (bind _ _) => apply no_exit_bind; [|intros ?]
  | |- no_exit (try_catch _ _) => apply no_exit_try_catch; [|intros ?]
  | |- no_exit (match ?x with _ => _ end) => destruct x
  | |- no_exit (let _ := _ in _) => cbv zeta
  | |- no_exit _ => solve [auto with no_exit]
  end.

Ltac no_exit := repeat no_exit_step.

Section NoExitProgram.

Context `{host : Host}.

Lemma no_exit_withRetry_loop {T} (fn : Prog T) context :
  no_exit fn -> forall remaining attempt lastError,
    no_exit (withRetry_loop fn context remaining attempt lastError).
Proof.
  intros Hfn. induction remaining as [|r IH]; intros attempt lastError; simpl.
  - no_exit.
  - apply no_exit_try_catch; [exact Hfn|]. intros e. no_exit.
Qed.

Lemma no_exit_withRetry {T} (fn : Prog T) context : no_exit fn -> no_exit (withRetry fn context).
Proof. intros H. apply no_exit_withRetry_loop. exact H. Qed.

Lemma no_exit_initializeClient : no_exit initializeClient.
Proof. unfold initializeClient. no_exit. Qed.

Hint Resolve no_exit_initializeClient : no_exit.

Lemma no_exit_request_content sys prompt options :
  no_exit (request_content sys prompt options).
Proof. unfold request_content. no_exit. apply no_exit_withRetry. no_exit. Qed.

Lemma no_exit_generateContent sys prompt options :
  no_exit (generateContent sys prompt options).
Proof. unfold generateContent. no_exit. apply no_exit_request_content. Qed.

Lemma no_exit_request_stream sys prompt options :
  no_exit (request_stream sys prompt options).
Proof. unfold request_stream. no_exit. apply no_exit_withRetry. no_exit. Qed.

Lemma no_exit_stream_parts options parts :
  quiet_callbacks options -> forall fullText, no_exit (stream_parts options parts fullText).
Proof.
  intros [Ht _]. induction parts as [|p parts IH]; intros fullText; simpl.
  - no_exit.
  - destruct (part_text p) as [text|]; [|apply IH].
    destruct (negb (String.eqb text "")); [|apply IH].
    apply no_exit_bind; [|intros; apply IH].
    unfold call_optional. destruct (onText options) eqn:E; [eapply Ht; eauto|no_exit].
Qed.

Lemma no_exit_stream_chunks_loop options chunks :
  quiet_callbacks options -> forall fullText, no_exit (stream_chunks_loop options chunks fullText).
Proof.
  intros Hq. induction chunks as [|c chunks IH]; intros fullText; simpl.
  - no_exit.
  - apply no_exit_bind.
    + destruct (candidate_parts (first_candidate c)); [|no_exit].
      apply no_exit_stream_parts. exact Hq.
    + intros t. apply no_exit_bind; [|intros; apply IH].
      destruct (first_candidate c) as [cand|]; [|no_exit].
      destruct (candidate_groundingMetadata cand) as [md|]; [|no_exit].
      unfold call_optional. destruct (onGrounding options) eqn:E; [|no_exit].
      destruct Hq as [_ Hg]. eapply Hg; eauto.
Qed.

Lemma no_exit_read_stream options stream :
  quiet_callbacks options -> no_exit (read_stream options stream).
Proof.
  intros Hq. unfold read_stream. apply no_exit_bind.
  - apply no_exit_stream_chunks_loop. exact Hq.
  - intros t. no_exit.
Qed.

Lemma no_exit_runCoordinator topic : no_exit (runCoordinator topic).
Proof. unfold runCoordinator. no_exit. apply no_exit_generateContent. Qed.

Lemma no_exit_runResearcher question : no_exit (runResearcher question).
Proof. unfold runResearcher. no_exit. apply no_exit_generateContent. Qed.

Lemma no_exit_runWriter topic findings : no_exit (runWriter topic findings).
Proof.
  unfold runWriter, streamContent. no_exit.
  - apply no_exit_request_stream.
  - apply no_exit_read_stream. split; simpl.
    + intros f text [= <-]. no_exit.
    + intros f md [=].
Qed.

Lemma no_exit_for_each {A} (l : list A) (body : A -> Prog unit) :
  (forall x, no_exit (body x)) -> no_exit (for_each l body).
Proof.
  intros Hb. induction l as [|x l IH]; simpl; [no_exit|].
  apply no_exit_bind; [apply Hb|intros; apply IH].
Qed.

Lemma no_exit_research_all questions : no_exit (research_all questions).
Proof.
  intros s.
  destruct (research_all_spec any_state (fun _ => True) any_state_cache_only
              (fun _ => Logic.I) (fun _ => Logic.I)
              (behaves_initializeClient_any _ Logic.I Logic.I)
              (fun _ _ => Logic.I) questions s Logic.I) as [_ Hend].
  destruct (fst (research_all questions s)); simpl in *; [reflexivity..|contradiction].
Qed.

Lemma no_exit_show_result result : no_exit (show_result result).
Proof.
  unfold show_result. no_exit. apply no_exit_for_each. intros x. no_exit.
Qed.

Lemma no_exit_pipeline topic outputFile : no_exit (pipeline topic outputFile).
Proof.
  unfold pipeline. no_exit.
  - apply no_exit_runCoordinator.
  - apply no_exit_for_each. intros x. no_exit.
  - apply no_exit_research_all.
  - apply no_exit_for_each. intros x. apply no_exit_show_result.
  - apply no_exit_runWriter.
Qed.

End NoExitProgram.

(** ** The client initializer, the researcher, the writer, the coordinator *)

(** *** The client initializer *)

Section AiFacts.

Context `{host : Host}.

Lemma initializeClient_cached s client config :
  contentGenerator s = Some client ->
  generatorConfig s = Some config ->
  initializeClient s = (Ok (client, config), s).
Proof.
  intros Hc Hg. unfold initializeClient, bind, read_contentGenerator, read_generatorConfig.
  rewrite Hc, Hg. reflexivity.
Qed.

Lemma initializeClient_stores s client config s1 :
  initializeClient s = (Ok (client, config), s1) ->
  contentGenerator s1 = Some client /\ generatorConfig s1 = Some config.
Proof.
  unfold initializeClient, bind, read_contentGenerator, read_generatorConfig.
  assert (Hcreate :
    (let gcConfig := makeFakeConfig in
     config0 <- (emit CreateContentGeneratorConfig ;;;
                 await (createContentGeneratorConfig gcConfig)) ;;
     write_generatorConfig config0 ;;;
     client0 <- (emit CreateContentGenerator ;;;
                 await (createContentGenerator config0 gcConfig)) ;;
     write_contentGenerator client0 ;;;
     ret (client0, config0)) s = (Ok (client, config), s1) ->
    contentGenerator s1 = Some client /\ generatorConfig s1 = Some config).
  { unfold bind, emit, await, write_generatorConfig, write_contentGenerator, ret. simpl.
    destruct (createContentGeneratorConfig makeFakeConfig (world s)) as [[cfg|e] w];
      [|discriminate].
    simpl.
    destruct (createContentGenerator cfg makeFakeConfig w) as [[cl|e] w']; [|discriminate].
    simpl. intros [= <- <- <-]. split; reflexivity. }
  destruct (contentGenerator s) as [cl|] eqn:Hc;
    destruct (generatorConfig s) as [cfg|] eqn:Hg; try exact Hcreate.
  unfold ret. intros [= <- <- <-]. split; assumption.
Qed.

End AiFacts.

Section AiClaims.

Context `{host : Host}.

(** Claim C9.  After a call of [initializeClient] that returned, another
    call returns the same client and the same config and leaves the state
    as it is (so it creates nothing); this holds in every later state in
    which the module variables are what the first call left; and calling
    twice in a row is the same as calling once. *)
Theorem initializeClient_memoized s client config s1 :
  initializeClient s = (Ok (client, config), s1) ->
  initializeClient s1 = (Ok (client, config), s1)
  /\ (forall s2,
        contentGenerator s2 = contentGenerator s1 ->
        generatorConfig s2 = generatorConfig s1 ->
        initializeClient s2 = (Ok (client, config), s2))
  /\ (initializeClient ;;; initializeClient) s = initializeClient s.
Proof.
  intros Hfirst. destruct (initializeClient_stores _ _ _ _ Hfirst) as [Hc Hg].
  split; [apply initializeClient_cached; assumption|].
  split.
  - intros s2 Hc2 Hg2. apply initializeClient_cached; congruence.
  - unfold bind at 1. rewrite Hfirst. apply initializeClient_cached; assumption.
Qed.

End AiClaims.

(** *** Strings *)

Lemma append_nil_r s : s +:+ "" = s.
Proof.
  induction s as [|c s IH]; [reflexivity|].
  change (String c s +:+ "") with (String c (s +:+ "")). rewrite IH. reflexivity.
Qed.

Lemma append_assoc s1 s2 s3 : (s1 +:+ s2) +:+ s3 = s1 +:+ (s2 +:+ s3).
Proof.
  induction s1 as [|c s1 IH]; [reflexivity|].
  change (String c ((s1 +:+ s2) +:+ s3) = String c (s1 +:+ (s2 +:+ s3))).
  rewrite IH. reflexivity.
Qed.

Lemma concat_empty_cons x l : String.concat "" (x :: l) = x +:+ String.concat "" l.
Proof. destruct l; simpl; [rewrite append_nil_r|]; reflexivity. Qed.

Lemma concat_empty_app l1 l2 :
  String.concat "" (l1 ++ l2) = String.concat "" l1 +:+ String.concat "" l2.
Proof.
  induction l1 as [|x l1 IH]; [reflexivity|].
  change ((x :: l1) ++ l2) with (x :: (l1 ++ l2)).
  rewrite !concat_empty_cons, IH, append_assoc. reflexivity.
Qed.

Lemma concat_empty_nonempty l :
  String.concat "" (List.filter nonempty l) = String.concat "" l.
Proof.
  induction l as [|x l IH]; [reflexivity|].
  cbn [List.filter]. unfold nonempty at 1.
  destruct (String.eqb_spec x "") as [->|Hx]; cbn [negb];
    rewrite !concat_empty_cons, IH; reflexivity.
Qed.

(** *** The researcher *)

Lemma push_sources_spec chunks : forall acc,
  push_sources chunks acc = acc ++ web_sources chunks.
Proof.
  induction chunks as [|chunk chunks IH]; intros acc; simpl.
  - rewrite app_nil_r. reflexivity.
  - destruct (chunk_web chunk) as [web|]; simpl.
    + rewrite IH, <- app_assoc. reflexivity.
    + apply IH.
Qed.

Lemma extract_sources_spec metadata :
  extract_sources metadata
  = match metadata with
    | Some meta =>
        match groundingChunks meta with
        | Some chunks => web_sources chunks
        | None => []
        end
    | None => []
    end.
Proof.
  unfold extract_sources. destruct metadata as [meta|]; [|reflexivity].
  destruct (groundingChunks meta) as [chunks|]; [|reflexivity].
  destruct chunks as [|c chunks]; [reflexivity|].
  cbn [length Nat.eqb negb]. apply push_sources_spec.
Qed.

Lemma read_response_metadata response :
  snd (read_response response) = response_metadata response.
Proof.
  unfold read_response, response_metadata, first_candidate. simpl.
  destruct (candidates response) as [[|c cs]|]; reflexivity.
Qed.

Section ResearcherClaims.

Context `{host : Host}.

(** Claim C10.  For the response that the researcher receives, the result
    has the question asked, the text of the response as findings, and as
    sources one entry (title, uri) for each grounding chunk with a [web]
    field, in the order of the chunks; there is no source when the response
    has no grounding metadata or the metadata has no chunks. *)
Theorem runResearcher_sources q s response s' :
  request_content researcher_instruction (researcher_prompt q)
    researcher_options s = (Ok response, s') ->
  exists r,
    runResearcher q s = (Ok r, s')
    /\ question r = q
    /\ findings r = fst (read_response response)
    /\ sources r
       = match response_metadata response with
         | Some meta =>
             match groundingChunks meta with
             | Some chunks => web_sources chunks
             | None => []
             end
         | None => []
         end.
Proof.
  intros Hreq. unfold runResearcher, generateContent, bind. rewrite Hreq.
  unfold ret. eexists. split; [reflexivity|]. cbn [question findings sources].
  split; [reflexivity|]. split; [reflexivity|].
  rewrite extract_sources_spec, read_response_metadata. reflexivity.
Qed.

Lemma runResearcher_question q s r s' :
  runResearcher q s = (Ok r, s') -> question r = q.
Proof.
  unfold runResearcher, bind.
  destruct (generateContent _ _ _ s) as [[g|e|c] s1]; [|discriminate..].
  unfold ret. intros [= <- _]. reflexivity.
Qed.

End ResearcherClaims.

(** *** The writer *)

Lemma stdout_writes_app tr1 tr2 :
  stdout_writes (tr1 ++ tr2) = stdout_writes tr1 ++ stdout_writes tr2.
Proof. apply omap_app. Qed.

Lemma stdout_writes_map l : stdout_writes (map StdoutWrite l) = l.
Proof. induction l as [|x l IH]; [reflexivity|]. cbn. f_equal. exact IH. Qed.

Lemma chunk_fragments_parts chunk :
  chunk_fragments chunk
  = match candidate_parts (first_candidate chunk) with
    | Some parts => omap part_text parts
    | None => []
    end.
Proof.
  unfold chunk_fragments, candidate_parts, first_candidate.
  destruct (candidates chunk) as [[|c cs]|]; try reflexivity. simpl.
  destruct (candidate_content c) as [content|]; [|reflexivity].
  destruct (content_parts content); reflexivity.
Qed.

Section WriterFacts.

Context `{host : Host}.

Lemma bind_emit {B} ev (f : Prog B) s : (emit ev ;;; f) s = f (log_events [ev] s).
Proof. reflexivity. Qed.

Lemma bind_ok {A B} (m : Prog A) (f : A -> Prog B) s a s' :
  m s = (Ok a, s') -> bind m f s = f a s'.
Proof. intros H. unfold bind. rewrite H. reflexivity. Qed.

Lemma log_events_app evs1 evs2 s :
  log_events evs2 (log_events evs1 s) = log_events (evs1 ++ evs2) s.
Proof. unfold log_events. simpl. rewrite <- app_assoc. reflexivity. Qed.

Lemma log_events_nil s : log_events [] s = s.
Proof. unfold log_events. rewrite app_nil_r. destruct s; reflexivity. Qed.

Lemma stream_parts_writer parts : forall fullText s,
  stream_parts writer_options parts fullText s
  = (Ok (fullText +:+ String.concat "" (omap part_text parts)),
     log_events (map StdoutWrite (List.filter nonempty (omap part_text parts))) s).
Proof.
  induction parts as [|part parts IH]; intros fullText s.
  - simpl. rewrite append_nil_r, log_events_nil. reflexivity.
  - cbn [stream_parts omap list_omap]. destruct (part_text part) as [text|]; [|apply IH].
    rewrite concat_empty_cons. cbn [List.filter]. unfold nonempty at 1.
    destruct (String.eqb_spec text "") as [->|Hne]; cbn [negb].
    + rewrite IH. reflexivity.
    + unfold bind, call_optional. cbn [onText writer_options emit].
      rewrite IH. rewrite append_assoc. f_equal.
      unfold log_events. cbn. rewrite <- app_assoc. reflexivity.
Qed.

Lemma stream_chunks_loop_writer chunks : forall fullText s,
  stream_chunks_loop writer_options chunks fullText s
  = (Ok (fullText +:+ String.concat "" (concat (map chunk_fragments chunks))),
     log_events
       (map StdoutWrite (List.filter nonempty (concat (map chunk_fragments chunks)))) s).
Proof.
  induction chunks as [|chunk chunks IH]; intros fullText s.
  - simpl. rewrite append_nil_r, log_events_nil. reflexivity.
  - cbn [stream_chunks_loop map concat]. unfold bind at 1.
    rewrite chunk_fragments_parts.
    assert (Hg : forall s0,
      match first_candidate chunk with
      | Some c =>
          match candidate_groundingMetadata c with
          | Some metadata => call_optional (onGrounding writer_options) metadata
          | None => ret tt
          end
      | None => ret tt
      end s0 = (Ok tt, s0)).
    { intros s0. destruct (first_candidate chunk) as [c|]; [|reflexivity].
      destruct (candidate_groundingMetadata c); reflexivity. }
    destruct (candidate_parts (first_candidate chunk)) as [parts|].
    + rewrite stream_parts_writer. unfold bind. rewrite Hg, IH.
      rewrite concat_empty_app, append_assoc, List.filter_app, map_app, log_events_app.
      reflexivity.
    + unfold ret at 1. unfold bind. rewrite Hg, IH. reflexivity.
Qed.

Lemma read_stream_writer stream s :
  stream_failure stream = None ->
  read_stream writer_options stream s
  = (Ok (String.concat "" (stream_fragments stream)),
     log_events (map StdoutWrite (List.filter nonempty (stream_fragments stream))) s).
Proof.
  intros Hend. unfold read_stream, bind. rewrite stream_chunks_loop_writer, Hend.
  reflexivity.
Qed.

Lemma read_stream_writer_failure stream s e :
  stream_failure stream = Some e ->
  read_stream writer_options stream s
  = (Throw e,
     log_events (map StdoutWrite (List.filter nonempty (stream_fragments stream))) s).
Proof.
  intros Hend. unfold read_stream, bind. rewrite stream_chunks_loop_writer, Hend.
  reflexivity.
Qed.

End WriterFacts.

Section WriterClaims.

Context `{host : Host}.

(** Claim C6.  When the stream opened for the writer ends normally, the
    writer returns the concatenation of all its text fragments in arrival
    order, and that is also the concatenation of what it wrote to the
    standard output (the fragments that are not empty, in the same order). *)
Theorem runWriter_returns_streamed_text topic findings s stream s1 :
  request_stream writer_instruction (writer_prompt topic findings) writer_options
    (log_events [ConsoleLog writer_banner] s) = (Ok stream, s1) ->
  stream_failure stream = None ->
  exists s' written,
    runWriter topic findings s = (Ok (String.concat "" (stream_fragments stream)), s')
    /\ stdout_writes (trace s') = stdout_writes (trace s1) ++ written
    /\ written = List.filter nonempty (stream_fragments stream)
    /\ String.concat "" written = String.concat "" (stream_fragments stream).
Proof.
  intros Hreq Hend. unfold runWriter, console_log. rewrite bind_emit.
  unfold streamContent.
  rewrite (bind_ok _ _ _ (String.concat "" (stream_fragments stream))
             (log_events (map StdoutWrite (List.filter nonempty (stream_fragments stream))) s1)).
  2:{ rewrite (bind_ok _ _ _ _ _ Hreq). apply read_stream_writer. exact Hend. }
  rewrite bind_emit. unfold ret.
  eexists. exists (List.filter nonempty (stream_fragments stream)).
  split; [reflexivity|]. cbn [emit trace log_events].
  rewrite !stdout_writes_app, stdout_writes_map. cbn [stdout_writes omap list_omap].
  rewrite app_nil_r. split; [reflexivity|]. split; [reflexivity|].
  apply concat_empty_nonempty.
Qed.

End WriterClaims.

(** *** The coordinator *)

Lemma z_array_string_parse items : forall qs,
  mapM (z_parse z_string) items = Some qs <-> items = map JStr qs.
Proof.
  induction items as [|v items IH]; intros qs.
  - simpl. split.
    + intros [= <-]. reflexivity.
    + destruct qs; [reflexivity|discriminate].
  - rewrite mapM_Some. split.
    + intros H. inversion H as [|? q ? qs' Hq Hrest]; subst.
      apply mapM_Some in Hrest. apply IH in Hrest as ->.
      destruct v; try discriminate. simpl in Hq. injection Hq as ->. reflexivity.
    + destruct qs as [|q qs]; [discriminate|]. intros [= -> Hitems].
      constructor; [reflexivity|]. apply mapM_Some, IH. exact Hitems.
Qed.

Lemma researchPlanSchema_parse document plan :
  z_parse researchPlanSchema document = Some plan
  <-> (exists props, document = JObj props)
      /\ Js.get document "questions" = JArr (map JStr (questions plan))
      /\ Js.get document "rationale" = JStr (rationale plan).
Proof.
  unfold researchPlanSchema, z_object2, z_describe, z_array. cbn [z_parse].
  split.
  - destruct document as [| | | | |items|props]; try discriminate.
    destruct (Js.get (JObj props) "questions") as [| | | | |items|ps] eqn:Hq; try discriminate.
    destruct (mapM (z_parse z_string) items) as [qs|] eqn:Hqs; [|discriminate].
    apply z_array_string_parse in Hqs as ->.
    destruct (Js.get (JObj props) "rationale") eqn:Hr; try discriminate.
    cbn [z_string z_parse]. intros [= <-]. cbn [questions rationale].
    split; [eauto|]. split; reflexivity.
  - intros ([props ->] & Hq & Hr). rewrite Hq, Hr.
    rewrite (proj2 (z_array_string_parse _ _) eq_refl). cbn [z_string z_parse].
    destruct plan; reflexivity.
Qed.

Section CoordinatorClaims.

Context `{host : Host}.

(** Claim C7, as amended.  The coordinator throws, or it returns a plan that
    is the validated JSON document of the response: the [questions] of the
    document are an array of strings, those of the plan in the same order
    (the array may be empty), and its [rationale] is a string, that of the
    plan.  The coordinator never ends the process. *)
Theorem runCoordinator_plan topic s :
  match runCoordinator topic s with
  | (Ok plan, s') =>
      exists response document,
        request_content coordinator_instruction ("Topic: " +:+ topic) coordinator_options
          (log_events [ConsoleLog (coordinator_banner topic)] s) = (Ok response, s')
        /\ JSON_parse (fst (read_response response)) = Fulfilled document
        /\ Js.get document "questions" = JArr (map JStr (questions plan))
        /\ Js.get document "rationale" = JStr (rationale plan)
  | (Throw _, _) => True
  | (Exit _, _) => False
  end.
Proof.
  unfold runCoordinator, console_log. rewrite bind_emit.
  unfold generateContent, bind.
  pose proof (no_exit_request_content coordinator_instruction ("Topic: " +:+ topic)
                coordinator_options
                (log_events [ConsoleLog (coordinator_banner topic)] s)) as Hne.
  destruct (request_content _ _ _ _) as [[response|e|c] s1] eqn:Hreq;
    [|exact I|discriminate].
  unfold ret, await. cbn [fst snd world].
  destruct (JSON_parse (fst (read_response response))) as [document|e] eqn:Hparse;
    [|exact I].
  destruct (z_parse researchPlanSchema document) as [plan|] eqn:Hplan; [|exact I].
  unfold ret. apply researchPlanSchema_parse in Hplan as (_ & Hq & Hr).
  exists response, document.
  split; [destruct s1; reflexivity|]. auto.
Qed.

End CoordinatorClaims.

(** ** [Promise.all] and the research phase *)

Section ResearchClaims.

Context `{host : Host}.

(** Claim C5.  Whatever order the event loop resumes the researchers in,
    when the research phase returns its results there is exactly one for
    each question, and the result at position [i] is that of the question
    at position [i]: it carries that question, and its findings and sources
    are read from a response of the model to the request for that
    question. *)
Theorem research_all_in_question_order qs s results s' :
  research_all qs s = (Ok results, s') ->
  length results = length qs
  /\ map question results = qs
  /\ forall i r, results !! i = Some r ->
       exists q, qs !! i = Some q /\ researcher_result q r.
Proof.
  intros Hrun.
  destruct (research_all_spec any_state (fun _ => True) any_state_cache_only
              (fun _ => Logic.I) (fun _ => Logic.I)
              (behaves_initializeClient_any _ Logic.I Logic.I)
              (fun _ _ => Logic.I) qs s Logic.I) as [_ Hend].
  rewrite Hrun in Hend. simpl in Hend. destruct Hend as [Hlen Hres].
  split; [exact Hlen|]. split; [|exact Hres].
  apply list_eq. intros i. rewrite list_lookup_fmap.
  destruct (results !! i) as [r|] eqn:Hr; simpl.
  - destruct (Hres i r Hr) as (q & Hq & response & _ & ->). rewrite Hq. reflexivity.
  - symmetry. apply lookup_ge_None. rewrite <- Hlen. apply lookup_ge_None. exact Hr.
Qed.

(** When nothing that a researcher asks of the outside is rejected, the
    research phase returns. *)
Lemma research_all_returns qs s :
  (forall q e, ~ researcher_error q e) ->
  exists results s', research_all qs s = (Ok results, s').
Proof.
  intros Hok.
  destruct (research_all_spec any_state (fun _ => True) any_state_cache_only
              (fun _ => Logic.I) (fun _ => Logic.I)
              (behaves_initializeClient_any _ Logic.I Logic.I)
              (fun _ _ => Logic.I) qs s Logic.I) as [_ Hend].
  destruct (research_all qs s) as [[results|e|c] s'] eqn:Hrun; simpl in Hend.
  - eauto.
  - destruct Hend as (i & _ & q & _ & He). destruct (Hok q e He).
  - contradiction.
Qed.

End ResearchClaims.

(** ** The driver *)

Section DriverFacts.

Context `{host : Host}.

Lemma network_calls_app tr1 tr2 :
  network_calls (tr1 ++ tr2) = network_calls tr1 ++ network_calls tr2.
Proof. apply List.filter_app. Qed.

Lemma read_topic_run values s :
  exists s0 evs,
    read_topic values s = (Ok (run_topic values (world s)), s0)
    /\ trace s0 = trace s ++ evs
    /\ network_calls evs = []
    /\ contentGenerator s0 = contentGenerator s
    /\ generatorConfig s0 = generatorConfig s.
Proof.
  unfold read_topic, run_topic.
  destruct (topic_missing (values_topic values)).
  - unfold rl_question, bind, emit, console_log, emit, ask. simpl.
    destruct (rl_answer topic_prompt (world s)) as [t w]. simpl.
    eexists. eexists. split; [reflexivity|]. simpl.
    rewrite <- !app_assoc. split; [reflexivity|]. repeat split.
  - unfold bind, emit, console_log, emit, ret. simpl.
    eexists. eexists. split; [reflexivity|]. simpl.
    rewrite <- !app_assoc. split; [reflexivity|]. repeat split.
Qed.

Lemma main_blank values s s0 :
  read_topic values s = (Ok (run_topic values (world s)), s0) ->
  blank (run_topic values (world s)) ->
  main values s = (Exit 1, log_events [ConsoleError "❌ Topic is required." None] s0).
Proof.
  intros Hread Hblank. apply trim_blank in Hblank.
  unfold main, bind. rewrite Hread, Hblank. reflexivity.
Qed.

Lemma main_not_blank values s s0 :
  read_topic values s = (Ok (run_topic values (world s)), s0) ->
  ~ blank (run_topic values (world s)) ->
  main values s
  = match pipeline (run_topic values (world s)) (values_output values) s0 with
    | (Ok _, s1) => (Exit 0, log_events [RlClose] s1)
    | (Throw e, s1) =>
        (Exit 0, log_events [ConsoleError (LF +:+ "❌ An error occurred:") (Some e); RlClose] s1)
    | (Exit c, s1) => (Exit c, s1)
    end.
Proof.
  intros Hread Hblank.
  destruct (String.eqb (trim (run_topic values (world s))) "") eqn:Htrim.
  { exfalso. apply Hblank, trim_blank. exact Htrim. }
  unfold main, bind at 1. rewrite Hread. unfold bind at 1. rewrite Htrim.
  unfold ret at 1. unfold try_finally, try_catch.
  destruct (pipeline (run_topic values (world s)) (values_output values) s0)
    as [[[]|e|c] s1]; try reflexivity.
  unfold console_error, bind, emit, process_exit, log_events. simpl.
  rewrite <- app_assoc. reflexivity.
Qed.

End DriverFacts.

Section DriverClaims.

Context `{host : Host}.

(** Claim C4, as amended.  When the topic of the run is empty or white space
    only (the value of [--topic] when that is not empty, otherwise the line
    typed at the prompt), [main] ends the process with code 1, and between
    its start and the exit there is no client initialization and no request
    to the model: the trace gains no network call and the module variables
    of the client are untouched. *)
Theorem main_blank_topic_exits values s :
  blank (run_topic values (world s)) ->
  exists s' evs,
    main values s = (Exit 1, s')
    /\ trace s' = trace s ++ evs
    /\ network_calls evs = []
    /\ contentGenerator s' = contentGenerator s
    /\ generatorConfig s' = generatorConfig s.
Proof.
  intros Hblank.
  destruct (read_topic_run values s) as (s0 & evs & Hread & Htr & Hnet & Hcg & Hcfg).
  rewrite (main_blank values s s0 Hread Hblank).
  eexists. exists (evs ++ [ConsoleError "❌ Topic is required." None]).
  split; [reflexivity|]. simpl. rewrite Htr, <- app_assoc.
  split; [reflexivity|]. rewrite network_calls_app, Hnet.
  repeat split; assumption.
Qed.

(** Claim C8, as amended.  The process exits with code 1 when the topic of
    the run is empty or white space only.  Otherwise it exits with code 0,
    whether the pipeline returns or throws; when it throws, the error is
    printed before the exit. *)
Theorem main_exit_code values s :
  (blank (run_topic values (world s)) -> exists s', main values s = (Exit 1, s'))
  /\ (~ blank (run_topic values (world s)) ->
      exists s0 s1 r,
        read_topic values s = (Ok (run_topic values (world s)), s0)
        /\ pipeline (run_topic values (world s)) (values_output values) s0 = (r, s1)
        /\ exits r = false
        /\ main values s
           = (Exit 0,
              log_events
                (match r with
                 | Throw e => [ConsoleError (LF +:+ "❌ An error occurred:") (Some e); RlClose]
                 | _ => [RlClose]
                 end) s1)).
Proof.
  destruct (read_topic_run values s) as (s0 & evs & Hread & _).
  split; intros Hblank.
  - rewrite (main_blank values s s0 Hread Hblank). eauto.
  - rewrite (main_not_blank values s s0 Hread Hblank).
    pose proof (no_exit_pipeline (run_topic values (world s)) (values_output values) s0) as Hne.
    destruct (pipeline (run_topic values (world s)) (values_output values) s0)
      as [r s1] eqn:Hp.
    exists s0, s1, r. simpl in Hne.
    split; [exact Hread|]. split; [exact Hp|]. split; [exact Hne|].
    destruct r as [[]|e|c]; [reflexivity|reflexivity|discriminate].
Qed.

End DriverClaims.

(** ** Programs by their traces *)

Section Keeps.

Context `{host : Host}.
Variables (I : State -> Prop) (P : Event -> Prop).
Hypothesis Hcache : cache_only I.

Lemma keeps_ret {A} (a : A) : keeps I P (ret a).
Proof. intros s Hs. split; [exact Hs|]. exists []. rewrite app_nil_r. auto. Qed.

Lemma keeps_throw {A} e : keeps I P (@throw _ A e).
Proof. intros s Hs. split; [exact Hs|]. exists []. rewrite app_nil_r. auto. Qed.

Lemma keeps_process_exit {A} c : keeps I P (@process_exit _ A c).
Proof. intros s Hs. split; [exact Hs|]. exists []. rewrite app_nil_r. auto. Qed.

Lemma keeps_emit ev : P ev -> keeps I P (emit ev).
Proof.
  intros Hev s Hs. split.
  - eapply Hcache; [| |exact Hs]; reflexivity.
  - exists [ev]. split; [reflexivity|]. constructor; [exact Hev|constructor].
Qed.

Lemma keeps_await {A} (oracle : World -> Settled A * World) : keeps I P (await oracle).
Proof.
  intros s Hs. unfold await. destruct (oracle (world s)) as [[a|e] w]; simpl.
  all: split; [eapply Hcache; [| |exact Hs]; reflexivity|].
  all: exists []; rewrite app_nil_r; auto.
Qed.

Lemma keeps_ask {A} (oracle : World -> A * World) : keeps I P (ask oracle).
Proof.
  intros s Hs. unfold ask. destruct (oracle (world s)) as [a w]; simpl.
  split; [eapply Hcache; [| |exact Hs]; reflexivity|].
  exists []; rewrite app_nil_r; auto.
Qed.

Lemma keeps_bind {A B} (m : Prog A) (f : A -> Prog B) :
  keeps I P m -> (forall a, keeps I P (f a)) -> keeps I P (bind m f).
Proof.
  intros Hm Hf s Hs. unfold bind.
  destruct (Hm s Hs) as (HI & evs & Ht & HP).
  destruct (m s) as [[a|e|c] s1]; simpl in *.
  - destruct (Hf a s1 HI) as (HI2 & evs2 & Ht2 & HP2).
    split; [exact HI2|]. exists (evs ++ evs2).
    rewrite Ht2, Ht, app_assoc. split; [reflexivity|]. apply Forall_app; auto.
  - split; [exact HI|]. exists evs. auto.
  - split; [exact HI|]. exists evs. auto.
Qed.

Lemma keeps_try_catch {A} (m : Prog A) (h : JsValue -> Prog A) :
  keeps I P m -> (forall e, keeps I P (h e)) -> keeps I P (try_catch m h).
Proof.
  intros Hm Hh s Hs. unfold try_catch.
  destruct (Hm s Hs) as (HI & evs & Ht & HP).
  destruct (m s) as [[a|e|c] s1]; simpl in *.
  - split; [exact HI|]. exists evs. auto.
  - destruct (Hh e s1 HI) as (HI2 & evs2 & Ht2 & HP2).
    split; [exact HI2|]. exists (evs ++ evs2).
    rewrite Ht2, Ht, app_assoc. split; [reflexivity|]. apply Forall_app; auto.
  - split; [exact HI|]. exists evs. auto.
Qed.

Lemma keeps_try_finally {A} (m : Prog A) (cleanup : Prog unit) :
  keeps I P m -> keeps I P cleanup -> keeps I P (try_finally m cleanup).
Proof.
  intros Hm Hc s Hs. unfold try_finally.
  destruct (Hm s Hs) as (HI & evs & Ht & HP).
  destruct (m s) as [[a|e|c] s1]; simpl in *.
  3: { split; [exact HI|]. exists evs. auto. }
  all: destruct (Hc s1 HI) as (HI2 & evs2 & Ht2 & HP2).
  all: destruct (cleanup s1) as [[[]|e2|c2] s2]; simpl in *.
  all: split; [exact HI2|]; exists (evs ++ evs2).
  all: rewrite Ht2, Ht, app_assoc; split; [reflexivity|]; apply Forall_app; auto.
Qed.

End Keeps.

Ltac keeps_side := first [assumption | reflexivity | solve [auto]].

Ltac keeps_step :=
  lazymatch goal with
  | |- keeps _ _ (bind _ _) => apply keeps_bind; [|intros ?]
  | |- keeps _ _ (try_catch _ _) => apply keeps_try_catch; [|intros ?]
  | |- keeps _ _ (try_finally _ _) => apply keeps_try_finally
  | |- keeps _ _ (ret _) => apply keeps_ret
  | |- keeps _ _ (throw _) => apply keeps_throw
  | |- keeps _ _ (process_exit _) => apply keeps_process_exit
  | |- keeps _ _ (console_log _) => apply keeps_emit; keeps_side
  | |- keeps _ _ (console_error _ _) => apply keeps_emit; keeps_side
  | |- keeps _ _ (sleep _) => apply keeps_emit; keeps_side
  | |- keeps _ _ (emit _) => apply keeps_emit; keeps_side
  | |- keeps _ _ (await _) => apply keeps_await; keeps_side
  | |- keeps _ _ (ask _) => apply keeps_ask; keeps_side
  | |- keeps _ _ (match ?x with _ => _ end) => destruct x
  | |- keeps _ _ (let _ := _ in _) => cbv zeta
  | |- keeps _ _ _ => solve [auto]
  end.

Ltac keeps := repeat keeps_step.

Section KeepsProgram.

Context `{host : Host}.
Variables (I : State -> Prop) (P : Event -> Prop).
Hypothesis Hcache : cache_only I.
Hypothesis Hlog : forall msg, P (ConsoleLog msg).
Hypothesis Hsleep : forall ms, P (Sleep ms).

Lemma keeps_withRetry_loop {T} (fn : Prog T) context :
  keeps I P fn -> forall remaining attempt lastError,
    keeps I P (withRetry_loop fn context remaining attempt lastError).
Proof.
  intros Hfn. induction remaining as [|r IH]; intros attempt lastError; simpl.
  - keeps.
  - apply keeps_try_catch; [exact Hfn|]. intros e. keeps.
Qed.

Lemma keeps_withRetry {T} (fn : Prog T) context :
  keeps I P fn -> keeps I P (withRetry fn context).
Proof. intros H. apply keeps_withRetry_loop. exact H. Qed.

Hypothesis Hinit : keeps I P initializeClient.

Lemma keeps_request_content sys prompt options :
  (forall promptId, P (GenerateContent (content_request sys prompt options) promptId)) ->
  keeps I P (request_content sys prompt options).
Proof.
  intros Hreq. unfold request_content. keeps. apply keeps_withRetry. keeps.
Qed.

Lemma keeps_generateContent sys prompt options :
  (forall promptId, P (GenerateContent (content_request sys prompt options) promptId)) ->
  keeps I P (generateContent sys prompt options).
Proof. intros Hreq. unfold generateContent. keeps. apply keeps_request_content, Hreq. Qed.

Hypothesis Hrequest : forall request promptId, P (GenerateContent request promptId).

Lemma keeps_runCoordinator topic : keeps I P (runCoordinator topic).
Proof. unfold runCoordinator. keeps. apply keeps_generateContent. intros; apply Hrequest. Qed.

Lemma keeps_runResearcher question : keeps I P (runResearcher question).
Proof. unfold runResearcher. keeps. apply keeps_generateContent. intros; apply Hrequest. Qed.

Lemma keeps_for_each {A} (l : list A) (body : A -> Prog unit) :
  (forall x, keeps I P (body x)) -> keeps I P (for_each l body).
Proof.
  intros Hb. induction l as [|x l IH]; simpl; [keeps|].
  apply keeps_bind; [apply Hb|intros; apply IH].
Qed.

Hypothesis Htask :
  behaves 2 I P (fun _ => True) creation_error Concurrent.initializeClient.

Lemma keeps_research_all questions : keeps I P (research_all questions).
Proof.
  intros s Hs.
  exact (proj1 (research_all_spec I P Hcache Hlog Hsleep Htask Hrequest questions s Hs)).
Qed.

Lemma keeps_show_result result : keeps I P (show_result result).
Proof. unfold show_result. keeps. apply keeps_for_each. intros x. keeps. Qed.

Hypothesis Hstream : forall request promptId, P (GenerateContentStream request promptId).

Lemma keeps_request_stream sys prompt options : keeps I P (request_stream sys prompt options).
Proof. unfold request_stream. keeps. apply keeps_withRetry. keeps. Qed.

Lemma keeps_stream_parts options parts :
  (forall f text, onText options = Some f -> keeps I P (f text)) ->
  forall fullText, keeps I P (stream_parts options parts fullText).
Proof.
  intros Ht. induction parts as [|p parts IH]; intros fullText; simpl.
  - keeps.
  - destruct (part_text p) as [text|]; [|apply IH].
    destruct (negb (String.eqb text "")); [|apply IH].
    apply keeps_bind; [|intros; apply IH].
    unfold call_optional. destruct (onText options) eqn:E; [eapply Ht; eauto|keeps].
Qed.

Lemma keeps_stream_chunks_loop options chunks :
  (forall f text, onText options = Some f -> keeps I P (f text)) ->
  (forall f md, onGrounding options = Some f -> keeps I P (f md)) ->
  forall fullText, keeps I P (stream_chunks_loop options chunks fullText).
Proof.
  intros Ht Hg. induction chunks as [|c chunks IH]; intros fullText; simpl.
  - keeps.
  - apply keeps_bind.
    + destruct (candidate_parts (first_candidate c)); [|keeps].
      apply keeps_stream_parts. exact Ht.
    + intros t. apply keeps_bind; [|intros; apply IH].
      destruct (first_candidate c) as [cand|]; [|keeps].
      destruct (candidate_groundingMetadata cand) as [md|]; [|keeps].
      unfold call_optional. destruct (onGrounding options) eqn:E; [|keeps].
      eapply Hg; eauto.
Qed.

Lemma keeps_read_stream options stream :
  (forall f text, onText options = Some f -> keeps I P (f text)) ->
  (forall f md, onGrounding options = Some f -> keeps I P (f md)) ->
  keeps I P (read_stream options stream).
Proof.
  intros Ht Hg. unfold read_stream. apply keeps_bind.
  - apply keeps_stream_chunks_loop; assumption.
  - intros t. keeps.
Qed.

Lemma keeps_runWriter topic findings :
  (forall text, P (StdoutWrite text)) -> keeps I P (runWriter topic findings).
Proof.
  intros Hwrite. unfold runWriter, streamContent. keeps.
  - apply keeps_request_stream.
  - apply keeps_read_stream; simpl.
    + intros f text [= <-]. keeps.
    + intros f md [=].
Qed.

Lemma keeps_pipeline topic outputFile :
  (forall text, P (StdoutWrite text)) ->
  P (Mkdir (path_dirname outputFile)) ->
  (forall report, P (WriteFile outputFile report)) ->
  keeps I P (pipeline topic outputFile).
Proof.
  intros Hwrite Hmkdir Hfile. unfold pipeline. keeps.
  - apply keeps_runCoordinator.
  - apply keeps_for_each. intros x. keeps.
  - apply keeps_research_all.
  - apply keeps_for_each. intros x. apply keeps_show_result.
  - apply keeps_runWriter. exact Hwrite.
Qed.

End KeepsProgram.

(** ** The driver by its traces *)

Lemma prompts_app tr1 tr2 : prompts (tr1 ++ tr2) = prompts tr1 ++ prompts tr2.
Proof. apply omap_app. Qed.

Section DriverTraces.

Context `{host : Host}.

(** What [main] does once the topic is known. *)
Lemma keeps_main_body (I : State -> Prop) (P : Event -> Prop) topic outputFile :
  cache_only I ->
  (forall ev, is_plain ev = true -> P ev) ->
  (forall text, P (StdoutWrite text)) ->
  P (Mkdir (path_dirname outputFile)) ->
  (forall report, P (WriteFile outputFile report)) ->
  keeps I P initializeClient ->
  behaves 2 I P (fun _ => True) creation_error Concurrent.initializeClient ->
  keeps I P
    ((if String.eqb (trim topic) "" then
        console_error "❌ Topic is required." None ;;;
        process_exit 1
      else ret tt) ;;;
     try_finally
       (try_catch (pipeline topic outputFile)
          (fun error => console_error (LF +:+ "❌ An error occurred:") (Some error)))
       (emit RlClose ;;; process_exit 0)).
Proof.
  intros Hcache Hplain Hwrite Hmkdir Hfile Hinit Htask.
  assert (Herr : forall msg d, keeps I P (console_error msg d)).
  { intros. apply keeps_emit; [exact Hcache|]. apply Hplain. reflexivity. }
  apply keeps_bind.
  - destruct (String.eqb (trim topic) "").
    + apply keeps_bind; [apply Herr|]. intros _. apply keeps_process_exit.
    + apply keeps_ret.
  - intros _. apply keeps_try_finally.
    + apply keeps_try_catch; [|intros e; apply Herr].
      apply keeps_pipeline; try assumption.
      all: intros; apply Hplain; reflexivity.
    + apply keeps_bind; [|intros; apply keeps_process_exit].
      apply keeps_emit; [exact Hcache|]. apply Hplain. reflexivity.
Qed.

(** The head of [main]: what it prints, and the one prompt when there is
    no topic on the command line. *)
Lemma read_topic_trace values s :
  exists s0 evs,
    read_topic values s = (Ok (run_topic values (world s)), s0)
    /\ trace s0 = trace s ++ evs
    /\ prompts evs = (if topic_missing (values_topic values) then [topic_prompt] else [])
    /\ stdout_writes evs = []
    /\ fs_events evs = []
    /\ creations evs = []
    /\ requests evs = []
    /\ Forall (fun ev => is_writing ev = false) evs
    /\ contentGenerator s0 = contentGenerator s
    /\ generatorConfig s0 = generatorConfig s.
Proof.
  unfold read_topic, run_topic.
  destruct (topic_missing (values_topic values)).
  - unfold rl_question, bind, emit, console_log, emit, ask. simpl.
    destruct (rl_answer topic_prompt (world s)) as [t w]. simpl.
    eexists. eexists. split; [reflexivity|]. simpl.
    rewrite <- !app_assoc. split; [reflexivity|]. repeat split; repeat constructor.
  - unfold bind, emit, console_log, emit, ret. simpl.
    eexists. eexists. split; [reflexivity|]. simpl.
    rewrite <- !app_assoc. split; [reflexivity|]. repeat split; repeat constructor.
Qed.

Lemma keeps_initializeClient_any (P : Event -> Prop) :
  P CreateContentGeneratorConfig -> P CreateContentGenerator ->
  keeps any_state P initializeClient.
Proof.
  intros H1 H2 s _. split; [exact Logic.I|].
  unfold initializeClient, bind, read_contentGenerator, read_generatorConfig.
  assert (Hcreate : exists evs,
    trace (snd ((let gcConfig := makeFakeConfig in
     config0 <- (emit CreateContentGeneratorConfig ;;;
                 await (createContentGeneratorConfig gcConfig)) ;;
     write_generatorConfig config0 ;;;
     client0 <- (emit CreateContentGenerator ;;;
                 await (createContentGenerator config0 gcConfig)) ;;
     write_contentGenerator client0 ;;;
     ret (client0, config0)) s)) = trace s ++ evs /\ Forall P evs).
  { unfold bind, emit, await, write_generatorConfig, write_contentGenerator, ret. simpl.
    destruct (createContentGeneratorConfig makeFakeConfig (world s)) as [[cfg|e] w]; simpl.
    2: { exists [CreateContentGeneratorConfig]. split; [reflexivity|]. repeat constructor; auto. }
    destruct (createContentGenerator cfg makeFakeConfig w) as [[cl|e] w']; simpl.
    all: exists [CreateContentGeneratorConfig; CreateContentGenerator].
    all: rewrite <- app_assoc; split; [reflexivity|]; repeat constructor; auto. }
  destruct (contentGenerator s) as [cl|] eqn:Hc;
    destruct (generatorConfig s) as [cfg|] eqn:Hg; try exact Hcreate.
  exists []. simpl. rewrite app_nil_r. auto.
Qed.

End DriverTraces.

Section DriverExtras.

Context `{host : Host}.

(** Property X12.  [main] shows the prompt exactly once when there is no topic
    on the command line (or an empty one), and never otherwise. *)
Theorem main_prompts_once values s :
  exists evs,
    trace (snd (main values s)) = trace s ++ evs
    /\ prompts evs = (if topic_missing (values_topic values) then [topic_prompt] else []).
Proof.
  destruct (read_topic_trace values s) as (s0 & evs0 & Hread & Htr & Hprompts & _).
  unfold main. rewrite (bind_ok _ _ _ _ _ Hread).
  destruct (keeps_main_body any_state (fun ev => prompts [ev] = [])
              (run_topic values (world s)) (values_output values)
              any_state_cache_only) with (s := s0) as (_ & evs & Hevs & Hall).
  - intros [] Hp; try reflexivity; discriminate.
  - reflexivity.
  - reflexivity.
  - reflexivity.
  - apply keeps_initializeClient_any; reflexivity.
  - apply behaves_initializeClient_any; reflexivity.
  - exact Logic.I.
  - exists (evs0 ++ evs). rewrite Hevs, Htr, app_assoc. split; [reflexivity|].
    rewrite prompts_app, Hprompts.
    assert (Hnone : prompts evs = []).
    { clear Hevs. induction Hall as [|ev evs Hev _ IH]; [reflexivity|].
      change (ev :: evs) with ([ev] ++ evs). rewrite prompts_app, Hev, IH. reflexivity. }
    rewrite Hnone, app_nil_r. reflexivity.
Qed.

End DriverExtras.

(** ** The report that is saved *)

Lemma filter_none {A} (p : A -> bool) l :
  Forall (fun x => p x = false) l -> List.filter p l = [].
Proof. induction 1 as [|x l Hx _ IH]; simpl; [reflexivity|]. rewrite Hx. exact IH. Qed.

Lemma plain_stdout_writes evs : Forall plain evs -> stdout_writes evs = [].
Proof.
  induction 1 as [|ev evs Hev _ IH]; [reflexivity|].
  destruct ev; try discriminate; exact IH.
Qed.

Lemma plain_fs_events evs : Forall plain evs -> fs_events evs = [].
Proof.
  induction 1 as [|ev evs Hev _ IH]; [reflexivity|].
  destruct ev; try discriminate; exact IH.
Qed.

Lemma fs_events_app tr1 tr2 : fs_events (tr1 ++ tr2) = fs_events tr1 ++ fs_events tr2.
Proof. apply List.filter_app. Qed.

Lemma fs_events_writes l : fs_events (map StdoutWrite l) = [].
Proof. induction l; [reflexivity|exact IHl]. Qed.

Section Traces.

Context `{host : Host}.

Lemma bind_throw {A B} (m : Prog A) (f : A -> Prog B) s e s' :
  m s = (Throw e, s') -> bind m f s = (Throw e, s').
Proof. intros H. unfold bind. rewrite H. reflexivity. Qed.

Lemma bind_exit {A B} (m : Prog A) (f : A -> Prog B) s c s' :
  m s = (Exit c, s') -> bind m f s = (Exit c, s').
Proof. intros H. unfold bind. rewrite H. reflexivity. Qed.

(** A prefix of events that satisfy [P], when [R] does not mind them. *)
Lemma traces_after {A B} (P : Event -> Prop) (R : list Event -> Prop)
    (m : Prog A) (f : A -> Prog B) :
  (forall e1 e2, Forall P e1 -> R e2 -> R (e1 ++ e2)) -> R [] ->
  keeps any_state P m -> (forall a, traces R (f a)) ->
  traces R (bind m f).
Proof.
  intros Hpre Hnil Hm Hf s. unfold bind.
  destruct (Hm s Logic.I) as (_ & evs & Ht & HP).
  destruct (m s) as [[a|e|c] s1]; simpl in *.
  - destruct (Hf a s1) as (evs2 & Ht2 & HR).
    exists (evs ++ evs2). rewrite Ht2, Ht, app_assoc. split; [reflexivity|]. auto.
  - exists evs. split; [exact Ht|]. rewrite <- (app_nil_r evs). auto.
  - exists evs. split; [exact Ht|]. rewrite <- (app_nil_r evs). auto.
Qed.

End Traces.

Section ReportFacts.

Context `{host : Host}.

Lemma keeps_plain_initializeClient : keeps any_state plain initializeClient.
Proof. apply keeps_initializeClient_any; reflexivity. Qed.

(** The writer: what it writes with [process.stdout.write] is what it
    returns. *)
Lemma runWriter_trace topic findings s :
  exists e1 written e3,
    trace (snd (runWriter topic findings s)) = trace s ++ e1 ++ map StdoutWrite written ++ e3
    /\ Forall plain e1 /\ Forall plain e3
    /\ forall report, fst (runWriter topic findings s) = Ok report ->
         report = String.concat "" written.
Proof.
  unfold runWriter, console_log. rewrite bind_emit. unfold streamContent.
  destruct (keeps_request_stream any_state plain any_state_cache_only)
    with (sys := writer_instruction) (prompt := writer_prompt topic findings)
         (options := writer_options) (s := log_events [ConsoleLog writer_banner] s)
    as (_ & evs & Hevs & Hall); try (intros; reflexivity).
  { apply keeps_plain_initializeClient. }
  destruct (request_stream writer_instruction (writer_prompt topic findings) writer_options
              (log_events [ConsoleLog writer_banner] s)) as [[stream|e|c] s1] eqn:Hreq;
    simpl in Hevs.
  - destruct (stream_failure stream) as [e|] eqn:Hfail.
    + assert (Hin : (stream <- request_stream writer_instruction (writer_prompt topic findings)
                                 writer_options ;;
                     read_stream writer_options stream)
                      (log_events [ConsoleLog writer_banner] s)
                    = (Throw e, log_events (map StdoutWrite
                                  (List.filter nonempty (stream_fragments stream))) s1)).
      { rewrite (bind_ok _ _ _ _ _ Hreq). apply read_stream_writer_failure. exact Hfail. }
      rewrite (bind_throw _ _ _ _ _ Hin). simpl.
      exists (ConsoleLog writer_banner :: evs), (List.filter nonempty (stream_fragments stream)), [].
      rewrite Hevs, app_nil_r. simpl. rewrite <- !app_assoc. simpl.
      split; [reflexivity|]. split; [constructor; [reflexivity|exact Hall]|].
      split; [constructor|]. intros report [=].
    + assert (Hin : (stream <- request_stream writer_instruction (writer_prompt topic findings)
                                 writer_options ;;
                     read_stream writer_options stream)
                      (log_events [ConsoleLog writer_banner] s)
                    = (Ok (String.concat "" (stream_fragments stream)),
                       log_events (map StdoutWrite
                                  (List.filter nonempty (stream_fragments stream))) s1)).
      { rewrite (bind_ok _ _ _ _ _ Hreq). apply read_stream_writer. exact Hfail. }
      rewrite (bind_ok _ _ _ _ _ Hin). rewrite bind_emit. unfold ret. simpl.
      exists (ConsoleLog writer_banner :: evs), (List.filter nonempty (stream_fragments stream)),
        [ConsoleLog LF].
      rewrite Hevs. simpl. rewrite <- !app_assoc. simpl.
      split; [reflexivity|]. split; [constructor; [reflexivity|exact Hall]|].
      split; [repeat constructor|]. intros report [= <-].
      symmetry. apply concat_empty_nonempty.
  - assert (Hin : (stream <- request_stream writer_instruction (writer_prompt topic findings)
                               writer_options ;;
                   read_stream writer_options stream)
                    (log_events [ConsoleLog writer_banner] s) = (Throw e, s1)).
    { apply bind_throw. exact Hreq. }
    rewrite (bind_throw _ _ _ _ _ Hin). simpl.
    exists (ConsoleLog writer_banner :: evs), [], [].
    rewrite Hevs. simpl. rewrite <- !app_assoc, app_nil_r. simpl.
    split; [reflexivity|]. split; [constructor; [reflexivity|exact Hall]|].
    split; [constructor|]. intros report [=].
  - assert (Hin : (stream <- request_stream writer_instruction (writer_prompt topic findings)
                               writer_options ;;
                   read_stream writer_options stream)
                    (log_events [ConsoleLog writer_banner] s) = (Exit c, s1)).
    { apply bind_exit. exact Hreq. }
    rewrite (bind_exit _ _ _ _ _ Hin). simpl.
    exists (ConsoleLog writer_banner :: evs), [], [].
    rewrite Hevs. simpl. rewrite <- !app_assoc, app_nil_r. simpl.
    split; [reflexivity|]. split; [constructor; [reflexivity|exact Hall]|].
    split; [constructor|]. intros report [=].
Qed.

Lemma saves_report_nil outputFile : saves_report outputFile [].
Proof. apply prefix_nil. Qed.

Lemma saves_report_after outputFile e1 e2 :
  Forall plain e1 -> saves_report outputFile e2 -> saves_report outputFile (e1 ++ e2).
Proof.
  intros H1 H2. unfold saves_report.
  rewrite fs_events_app, stdout_writes_app, (plain_fs_events _ H1), (plain_stdout_writes _ H1).
  exact H2.
Qed.

Lemma saves_report_before outputFile e1 e2 :
  saves_report outputFile e1 -> Forall plain e2 -> saves_report outputFile (e1 ++ e2).
Proof.
  intros H1 H2. unfold saves_report.
  rewrite fs_events_app, stdout_writes_app, (plain_fs_events _ H2), (plain_stdout_writes _ H2).
  rewrite !app_nil_r. exact H1.
Qed.

(** The end of the pipeline: the writer, and the report saved. *)
Lemma save_trace topic findings outputFile :
  traces (saves_report outputFile)
    (report <- runWriter topic findings ;;
     (emit (Mkdir (path_dirname outputFile)) ;;; await (fs_mkdir (path_dirname outputFile))) ;;;
     (emit (WriteFile outputFile report) ;;; await (fs_writeFile outputFile report)) ;;;
     console_log (LF +:+ "📁 Report saved to: " +:+ outputFile) ;;;
     console_log (LF +:+ "✅ " +:+ ESC +:+ "[1mProcess Complete!" +:+ ESC +:+ "[0m")).
Proof.
  intros s.
  destruct (runWriter_trace topic findings s) as (e1 & written & e3 & Htr & H1 & H3 & Hrep).
  assert (Hw : saves_report outputFile (e1 ++ map StdoutWrite written ++ e3)).
  { apply saves_report_after; [exact H1|]. apply saves_report_before; [|exact H3].
    unfold saves_report. rewrite fs_events_writes. apply prefix_nil. }
  unfold bind at 1.
  destruct (runWriter topic findings s) as [[report|e|c] s1]; simpl in *.
  2, 3: eexists; split; [exact Htr|exact Hw].
  specialize (Hrep report eq_refl).
  assert (Hout : stdout_writes (e1 ++ map StdoutWrite written ++ e3) = written).
  { rewrite !stdout_writes_app, (plain_stdout_writes _ H1), (plain_stdout_writes _ H3),
      stdout_writes_map, app_nil_r. reflexivity. }
  assert (Hfs : fs_events (e1 ++ map StdoutWrite written ++ e3) = []).
  { rewrite !fs_events_app, (plain_fs_events _ H1), (plain_fs_events _ H3), fs_events_writes.
    reflexivity. }
  unfold bind, emit, await, console_log, emit. simpl.
  destruct (fs_mkdir (path_dirname outputFile) (world s1)) as [[[]|e] w1]; simpl.
  2: { exists ((e1 ++ map StdoutWrite written ++ e3) ++ [Mkdir (path_dirname outputFile)]).
       rewrite Htr, <- !app_assoc. split; [reflexivity|].
       unfold saves_report. rewrite !app_assoc, fs_events_app, <- !app_assoc, Hfs. simpl.
       exists [WriteFile outputFile
                 (String.concat ""
                    (stdout_writes (e1 ++ map StdoutWrite written ++ e3
                                      ++ [Mkdir (path_dirname outputFile)])))].
       reflexivity. }
  destruct (fs_writeFile outputFile report w1) as [[[]|e] w2]; simpl.
  - exists ((e1 ++ map StdoutWrite written ++ e3)
            ++ [Mkdir (path_dirname outputFile); WriteFile outputFile report;
                ConsoleLog (LF +:+ "📁 Report saved to: " +:+ outputFile);
                ConsoleLog (LF +:+ "✅ " +:+ ESC +:+ "[1mProcess Complete!" +:+ ESC +:+ "[0m")]).
    rewrite Htr, <- !app_assoc. split; [reflexivity|].
    unfold saves_report.
    rewrite !app_assoc, fs_events_app, stdout_writes_app, <- !app_assoc, Hfs, Hout. simpl.
    rewrite app_nil_r, Hrep. reflexivity.
  - exists ((e1 ++ map StdoutWrite written ++ e3)
            ++ [Mkdir (path_dirname outputFile); WriteFile outputFile report]).
    rewrite Htr, <- !app_assoc. split; [reflexivity|].
    unfold saves_report.
    rewrite !app_assoc, fs_events_app, stdout_writes_app, <- !app_assoc, Hfs, Hout. simpl.
    rewrite app_nil_r, Hrep. reflexivity.
Qed.

Lemma pipeline_saves_report topic outputFile :
  traces (saves_report outputFile) (pipeline topic outputFile).
Proof.
  assert (Hlog : forall msg, plain (ConsoleLog msg)) by reflexivity.
  assert (Hsleep : forall ms, plain (Sleep ms)) by reflexivity.
  assert (Hreq : forall r i, plain (GenerateContent r i)) by reflexivity.
  pose proof any_state_cache_only as Hc.
  pose proof keeps_plain_initializeClient as Hinit.
  assert (Htask : behaves 2 any_state plain (fun _ => True) creation_error
                    Concurrent.initializeClient).
  { apply behaves_initializeClient_any; reflexivity. }
  unfold pipeline.
  let rec peel n :=
    lazymatch n with
    | O => idtac
    | S ?k => apply (traces_after plain);
              [apply saves_report_after | apply saves_report_nil | | intros ?; peel k]
    end in
  peel 10%nat.
  all: try apply save_trace.
  all: try solve [keeps].
  - apply keeps_runCoordinator; assumption.
  - apply keeps_for_each; try assumption. intros x. keeps.
  - apply keeps_research_all; assumption.
  - apply keeps_for_each; try assumption. intros x. apply keeps_show_result; assumption.
Qed.

Lemma traces_finally {A} (P : Event -> Prop) (R : list Event -> Prop) (m : Prog A) h cleanup :
  (forall e1 e2, R e1 -> Forall P e2 -> R (e1 ++ e2)) ->
  traces R m -> (forall e, keeps any_state P (h e)) -> keeps any_state P cleanup ->
  traces R (try_finally (try_catch m h) cleanup).
Proof.
  intros Hsuf Hm Hh Hc s. unfold try_finally, try_catch.
  destruct (Hm s) as (evs & Ht & HR).
  destruct (m s) as [[a|e|c] s1]; simpl in *.
  - destruct (Hc s1 Logic.I) as (_ & evs2 & Ht2 & HP2).
    exists (evs ++ evs2). split; [|auto].
    destruct (cleanup s1) as [[[]|e2|c2] s2]; simpl in *; rewrite Ht2, Ht, app_assoc; reflexivity.
  - destruct (Hh e s1 Logic.I) as (_ & evs2 & Ht2 & HP2).
    destruct (h e s1) as [[a|e2|c2] s2]; simpl in *.
    3: { exists (evs ++ evs2). rewrite Ht2, Ht, app_assoc. auto. }
    all: destruct (Hc s2 Logic.I) as (_ & evs3 & Ht3 & HP3).
    all: exists (evs ++ evs2 ++ evs3); split; [|apply Hsuf; [exact HR|apply Forall_app; auto]].
    all: destruct (cleanup s2) as [[[]|e3|c3] s3]; simpl in *.
    all: rewrite Ht3, Ht2, Ht, !app_assoc; reflexivity.
  - exists evs. auto.
Qed.

End ReportFacts.

Section ReportExtras.

Context `{host : Host}.

(** Property X13.  All that a run does to the file system is to make the
    directory of the output file and then to write that file, once, with the
    text that the run wrote with [process.stdout.write] (the fragments of the
    report); a run that ends early does less of it. *)
Theorem main_saves_streamed_report values s :
  exists evs,
    trace (snd (main values s)) = trace s ++ evs
    /\ fs_events evs `prefix_of`
         [Mkdir (path_dirname (values_output values));
          WriteFile (values_output values) (String.concat "" (stdout_writes evs))].
Proof.
  destruct (read_topic_trace values s)
    as (s0 & evs0 & Hread & Htr & _ & Hout & Hfs & _).
  unfold main. rewrite (bind_ok _ _ _ _ _ Hread).
  assert (Hbody : traces (saves_report (values_output values))
            ((if String.eqb (trim (run_topic values (world s))) "" then
                console_error "❌ Topic is required." None ;;;
                process_exit 1
              else ret tt) ;;;
             try_finally
               (try_catch (pipeline (run_topic values (world s)) (values_output values))
                  (fun error => console_error (LF +:+ "❌ An error occurred:") (Some error)))
               (emit RlClose ;;; process_exit 0))).
  { assert (Herr : forall msg d, keeps any_state plain (console_error msg d)).
    { intros. apply keeps_emit; [apply any_state_cache_only|reflexivity]. }
    apply (traces_after plain);
      [apply saves_report_after | apply saves_report_nil | | intros _].
    - destruct (String.eqb _ ""); [|apply keeps_ret].
      apply keeps_bind; [apply Herr|intros; apply keeps_process_exit].
    - apply (traces_finally plain).
      + apply saves_report_before.
      + apply pipeline_saves_report.
      + intros e. apply Herr.
      + apply keeps_bind; [|intros; apply keeps_process_exit].
        apply keeps_emit; [apply any_state_cache_only|reflexivity]. }
  destruct (Hbody s0) as (evs & Hevs & Hsaves).
  exists (evs0 ++ evs). rewrite Hevs, Htr, app_assoc. split; [reflexivity|].
  unfold saves_report in Hsaves.
  rewrite fs_events_app, stdout_writes_app, Hout, Hfs. exact Hsaves.
Qed.

End ReportExtras.

(** ** The client is created at most once *)

Lemma creations_app tr1 tr2 : creations (tr1 ++ tr2) = creations tr1 ++ creations tr2.
Proof. apply List.filter_app. Qed.

Lemma nocreate_creations evs : Forall nocreate evs -> creations evs = [].
Proof. apply filter_none. Qed.

Section Once.

Context `{host : Host}.

Lemma cache_is_cache_only client config : cache_only (cache_is client config).
Proof. intros s s' Hc Hg [H1 H2]. split; congruence. Qed.

Lemma once_lift {A} (m : Prog A) :
  (forall I, cache_only I -> keeps I nocreate m) -> creates_once m.
Proof.
  intros H s.
  destruct (H _ (cache_is_cache_only (contentGenerator s) (generatorConfig s)) s)
    as ([Hc Hg] & evs & Ht & Hall); [split; reflexivity|].
  exists evs. rewrite (nocreate_creations _ Hall).
  split; [exact Ht|]. split; [auto|]. split; [apply prefix_nil|]. intros []. reflexivity.
Qed.

Lemma once_bind {A B} (m : Prog A) (f : A -> Prog B) :
  creates_once m -> (forall a, creates_once (f a)) -> creates_once (bind m f).
Proof.
  intros Hm Hf s. unfold bind.
  destruct (Hm s) as (evs1 & Ht1 & Hc1 & Hp1 & Hl1).
  destruct (m s) as [[a|e|c] s1]; simpl in *.
  2, 3: exists evs1; auto.
  destruct (Hf a s1) as (evs2 & Ht2 & Hc2 & Hp2 & Hl2).
  exists (evs1 ++ evs2). rewrite Ht2, Ht1, app_assoc, creations_app.
  split; [reflexivity|]. split; [|split].
  - intros Hs. destruct (Hc1 Hs) as (-> & Hcg & Hcfg).
    assert (Hs1 : cached s1) by (unfold cached; rewrite Hcg, Hcfg; exact Hs).
    destruct (Hc2 Hs1) as (-> & Hcg2 & Hcfg2). repeat split; congruence.
  - destruct (creations evs1) as [|ev1 c1] eqn:E1; [exact Hp2|].
    destruct Hl1 as [Hs1|Hno]; [discriminate| |discriminate].
    destruct (Hc2 Hs1) as (-> & _). rewrite app_nil_r. exact Hp1.
  - intros Hne. destruct (creations evs1) as [|ev1 c1] eqn:E1.
    + apply Hl2. exact Hne.
    + destruct Hl1 as [Hs1|Hno]; [discriminate| |discriminate].
      destruct (Hc2 Hs1) as (_ & Hcg2 & Hcfg2). left.
      unfold cached. rewrite Hcg2, Hcfg2. exact Hs1.
Qed.

Lemma once_initializeClient : creates_once initializeClient.
Proof.
  intros s.
  destruct (contentGenerator s) as [cl|] eqn:Hc;
    destruct (generatorConfig s) as [cfg|] eqn:Hg.
  { rewrite (initializeClient_cached s cl cfg Hc Hg). exists []. simpl.
    rewrite app_nil_r. split; [reflexivity|]. split; [auto|].
    split; [apply prefix_nil|]. intros []. reflexivity. }
  all: unfold initializeClient, bind, read_contentGenerator, read_generatorConfig.
  all: rewrite Hc, ?Hg.
  all: unfold bind, emit, await, write_generatorConfig, write_contentGenerator, ret; simpl.
  all: destruct (createContentGeneratorConfig makeFakeConfig (world s)) as [[cfg'|e] w]; simpl.
  all: try (exists [CreateContentGeneratorConfig]; split; [reflexivity|];
            split; [intros [[x Hx] [y Hy]]; congruence|];
            split; [exists [CreateContentGenerator]; reflexivity|];
            intros _; right; reflexivity).
  all: destruct (createContentGenerator cfg' makeFakeConfig w) as [[cl'|e] w']; simpl.
  all: exists [CreateContentGeneratorConfig; CreateContentGenerator].
  all: rewrite <- app_assoc; split; [reflexivity|].
  all: split; [intros [[x Hx] [y Hy]]; congruence|].
  all: split; [reflexivity|]; intros _.
  all: first [left; split; simpl; eauto; fail | right; reflexivity].
Qed.

End Once.

Ltac once_leaf := apply once_lift; intros ? ?; keeps.

Ltac once_step :=
  lazymatch goal with
  | |- creates_once (bind _ _) => apply once_bind; [|intros ?]
  | |- creates_once (match ?x with _ => _ end) => destruct x
  | |- creates_once (let _ := _ in _) => cbv zeta
  | |- creates_once initializeClient => apply once_initializeClient
  | |- creates_once _ => first [solve [auto] | solve [once_leaf]]
  end.

Ltac at_most_once := repeat once_step.

Section OnceProgram.

Context `{host : Host}.

Lemma once_request_content sys prompt options : creates_once (request_content sys prompt options).
Proof.
  unfold request_content. at_most_once. apply once_lift. intros I HI.
  apply keeps_withRetry; try keeps_side. keeps.
Qed.

Lemma once_generateContent sys prompt options : creates_once (generateContent sys prompt options).
Proof. unfold generateContent. at_most_once. apply once_request_content. Qed.

Lemma once_runCoordinator topic : creates_once (runCoordinator topic).
Proof. unfold runCoordinator. at_most_once. apply once_generateContent. Qed.

Lemma once_runResearcher question : creates_once (runResearcher question).
Proof. unfold runResearcher. at_most_once. apply once_generateContent. Qed.

Lemma once_request_stream sys prompt options : creates_once (request_stream sys prompt options).
Proof.
  unfold request_stream. at_most_once. apply once_lift. intros I HI.
  apply keeps_withRetry; try keeps_side. keeps.
Qed.

Lemma once_runWriter topic findings : creates_once (runWriter topic findings).
Proof.
  unfold runWriter, streamContent. at_most_once.
  - apply once_request_stream.
  - apply once_lift. intros I HI. apply keeps_read_stream; try keeps_side; simpl.
    + intros f text [= <-]. keeps.
    + intros f md [=].
Qed.

(** A call of the model that returns leaves the client cached. *)
Lemma request_content_caches sys prompt options s response s1 :
  request_content sys prompt options s = (Ok response, s1) -> cached s1.
Proof.
  unfold request_content. intros Hrun. unfold bind at 1 in Hrun.
  destruct (initializeClient s) as [[[client config]|e|c] s2] eqn:Hinit; try discriminate.
  apply initializeClient_stores in Hinit as [Hc Hg]. cbv zeta in Hrun.
  pose proof (cache_is_cache_only (Some client) (Some config)) as Hcache.
  match type of Hrun with
  | withRetry ?fn ?context s2 = _ =>
      assert (Hk : keeps (cache_is (Some client) (Some config)) (fun _ => True)
                     (withRetry fn context))
  end.
  { apply keeps_withRetry; first [exact Hcache | (intros; exact Logic.I) | idtac]. keeps. }
  destruct (Hk s2 (conj Hc Hg)) as [[Hc1 Hg1] _].
  rewrite Hrun in Hc1, Hg1. simpl in Hc1, Hg1. split; eauto.
Qed.

Lemma runCoordinator_caches topic s plan s1 :
  runCoordinator topic s = (Ok plan, s1) -> cached s1.
Proof.
  unfold runCoordinator, generateContent, console_log. intros Hrun.
  rewrite bind_emit in Hrun. unfold bind at 1 2 in Hrun.
  match type of Hrun with
  | context [request_content ?sys ?prompt ?options ?s0] =>
      destruct (request_content sys prompt options s0) as [[response|e|c] s2] eqn:Hreq;
        try discriminate
  end.
  apply request_content_caches in Hreq as [Hc Hg].
  unfold ret at 1 in Hrun. unfold bind, await in Hrun. cbn [fst snd] in Hrun.
  destruct (JSON_parse (fst (read_response response))) as [document|e]; [|discriminate].
  destruct (z_parse researchPlanSchema document); [|discriminate].
  unfold ret in Hrun. injection Hrun as _ <-. split; assumption.
Qed.

(** After a piece that leaves the client cached when it returns, what
    creates nothing once the client is cached creates nothing. *)
Lemma once_bind_cached {A B} (m : Prog A) (f : A -> Prog B) :
  creates_once m ->
  (forall s a s1, m s = (Ok a, s1) -> cached s1) ->
  (forall a client config, keeps (cache_is (Some client) (Some config)) nocreate (f a)) ->
  creates_once (bind m f).
Proof.
  intros Hm Hcached Hf s. unfold bind.
  destruct (Hm s) as (evs1 & Ht1 & Hc1 & Hp1 & Hl1).
  destruct (m s) as [[a|e|c] s1] eqn:Hms; simpl in *.
  2, 3: exists evs1; auto.
  destruct (Hcached s a s1 Hms) as [[client Hcl] [config Hcfg]].
  destruct (Hf a client config s1 (conj Hcl Hcfg)) as ([Hc2 Hg2] & evs2 & Ht2 & Hall2).
  exists (evs1 ++ evs2).
  rewrite Ht2, Ht1, app_assoc, creations_app, (nocreate_creations _ Hall2), app_nil_r.
  split; [reflexivity|]. split; [|split].
  - intros Hs. destruct (Hc1 Hs) as (-> & Hcg & Hcfg1).
    split; [reflexivity|]. split; congruence.
  - exact Hp1.
  - intros _. left. split; [rewrite Hc2|rewrite Hg2]; eauto.
Qed.

Lemma once_pipeline topic outputFile : creates_once (pipeline topic outputFile).
Proof.
  unfold pipeline. apply once_bind; [at_most_once|]. intros _.
  apply once_bind_cached.
  - apply once_runCoordinator.
  - intros s plan s1. apply runCoordinator_caches.
  - intros plan client config.
    pose proof (cache_is_cache_only (Some client) (Some config)) as Hcache.
    assert (Hinit : keeps (cache_is (Some client) (Some config)) nocreate initializeClient).
    { intros s [Hc Hg]. rewrite (initializeClient_cached s client config Hc Hg). simpl.
      split; [split; assumption|]. exists []. rewrite app_nil_r. auto. }
    keeps.
    + apply keeps_for_each; try keeps_side. intros x. keeps.
    + apply keeps_research_all; try keeps_side.
      apply behaves_initializeClient_cached.
    + apply keeps_for_each; try keeps_side.
      intros x. apply keeps_show_result; keeps_side.
    + apply keeps_runWriter; keeps_side.
Qed.

End OnceProgram.

Section ClientExtras.

Context `{host : Host}.

(** Property X4.  A run creates the client at most once: the config, then the
    generator, and nothing more of the kind before it ends; and when the
    client is cached at the start, the run creates nothing and leaves the
    module variables as they are. *)
Theorem main_creates_client_once values s :
  exists evs,
    trace (snd (main values s)) = trace s ++ evs
    /\ creations evs `prefix_of` [CreateContentGeneratorConfig; CreateContentGenerator]
    /\ (cached s ->
        creations evs = []
        /\ contentGenerator (snd (main values s)) = contentGenerator s
        /\ generatorConfig (snd (main values s)) = generatorConfig s).
Proof.
  destruct (read_topic_trace values s)
    as (s0 & evs0 & Hread & Htr & _ & _ & _ & Hcr & _ & _ & Hcg & Hcfg).
  destruct (String.eqb (trim (run_topic values (world s))) "") eqn:Htrim.
  - rewrite (main_blank values s s0 Hread (proj1 (trim_blank _) Htrim)). simpl.
    exists (evs0 ++ [ConsoleError "❌ Topic is required." None]).
    rewrite Htr, <- app_assoc, creations_app, Hcr. simpl.
    split; [reflexivity|]. split; [apply prefix_nil|]. auto.
  - assert (Hnb : ~ blank (run_topic values (world s))).
    { intros Hb. apply trim_blank in Hb. congruence. }
    rewrite (main_not_blank values s s0 Hread Hnb).
    destruct (once_pipeline (run_topic values (world s)) (values_output values) s0)
      as (evs & Ht & Hc & Hp & _).
    destruct (pipeline (run_topic values (world s)) (values_output values) s0)
      as [[[]|e|c] s1]; simpl in *.
    + exists (evs0 ++ evs ++ [RlClose]).
      rewrite Ht, Htr, <- !app_assoc, !creations_app, Hcr. simpl. rewrite app_nil_r.
      split; [reflexivity|]. split; [exact Hp|].
      intros Hs. rewrite <- Hcg, <- Hcfg. apply Hc.
      unfold cached. rewrite Hcg, Hcfg. exact Hs.
    + exists (evs0 ++ evs
              ++ [ConsoleError (LF +:+ "❌ An error occurred:") (Some e); RlClose]).
      rewrite Ht, Htr, <- !app_assoc, !creations_app, Hcr. simpl. rewrite app_nil_r.
      split; [reflexivity|]. split; [exact Hp|].
      intros Hs. rewrite <- Hcg, <- Hcfg. apply Hc.
      unfold cached. rewrite Hcg, Hcfg. exact Hs.
    + exists (evs0 ++ evs).
      rewrite Ht, Htr, <- !app_assoc, !creations_app, Hcr. simpl.
      split; [reflexivity|]. split; [exact Hp|].
      intros Hs. rewrite <- Hcg, <- Hcfg. apply Hc.
      unfold cached. rewrite Hcg, Hcfg. exact Hs.
Qed.

End ClientExtras.

(** ** The budget of a call of the model *)

Lemma requests_app tr1 tr2 : requests (tr1 ++ tr2) = requests tr1 ++ requests tr2.
Proof. apply List.filter_app. Qed.

Section Budget.

Context `{host : Host}.

(** The loop of the wrapper from iteration [attempt] on, around an
    operation that sends at most [k] requests and does not wait. *)
Lemma withRetry_loop_budget {T} (fn : Prog T) context k :
  (forall s, exists evs,
     trace (snd (fn s)) = trace s ++ evs
     /\ waits evs = [] /\ (length (requests evs) <= k)%nat) ->
  forall remaining attempt last s,
    exists evs j,
      trace (snd (withRetry_loop fn context remaining attempt last s)) = trace s ++ evs
      /\ (length (requests evs) <= k * remaining)%nat
      /\ (j = 0 \/ attempt + j <= 4)%nat
      /\ waits evs = map retry_delay (seq attempt j).
Proof.
  intros Hfn. induction remaining as [|r IH]; intros attempt last s; simpl.
  - exists [], 0%nat. rewrite app_nil_r. simpl. repeat split; [lia|auto].
  - unfold try_catch. destruct (Hfn s) as (evs1 & Ht1 & Hw1 & Hr1).
    assert (Hdone : exists evs j,
              trace (snd (fn s)) = trace s ++ evs
              /\ (length (requests evs) <= k * S r)%nat
              /\ (j = 0 \/ attempt + j <= 4)%nat
              /\ waits evs = map retry_delay (seq attempt j)).
    { exists evs1, 0%nat. split; [exact Ht1|]. split; [lia|]. split; [auto|exact Hw1]. }
    destruct (fn s) as [[v|e|c] s1]; simpl in *; try exact Hdone.
    destruct (isRateLimitError e); simpl; [|exact Hdone].
    unfold bind at 1. change (MAX_RETRIES - 1)%nat with 4%nat.
    destruct (attempt <? 4)%nat eqn:Hlt.
    + apply Nat.ltb_lt in Hlt.
      unfold bind, console_log, sleep, emit. simpl.
      match goal with
      | |- context [withRetry_loop fn context r (S attempt) e ?st] =>
          destruct (IH (S attempt) e st) as (evs2 & j2 & Ht2 & Hr2 & Hj2 & Hw2)
      end.
      exists (evs1 ++ [ConsoleLog (retry_message context (retry_delay attempt) attempt);
                       Sleep (retry_delay attempt)] ++ evs2), (S j2).
      rewrite Ht2. simpl. rewrite Ht1, <- !app_assoc. simpl.
      split; [reflexivity|].
      rewrite requests_app, length_app, !waits_app, Hw1. simpl.
      change (requests (ConsoleLog (retry_message context (retry_delay attempt) attempt)
                          :: Sleep (retry_delay attempt) :: evs2)) with (requests evs2).
      split; [lia|]. split; [lia|]. rewrite Hw2. reflexivity.
    + apply Nat.ltb_ge in Hlt.
      unfold ret at 1.
      destruct (IH (S attempt) e s1) as (evs2 & j2 & Ht2 & Hr2 & Hj2 & Hw2).
      assert (j2 = 0%nat) as -> by lia.
      exists (evs1 ++ evs2), 0%nat.
      rewrite Ht2, Ht1, <- app_assoc. split; [reflexivity|].
      rewrite requests_app, length_app, waits_app, Hw1, Hw2. simpl.
      split; [lia|]. auto.
Qed.

Lemma backoff_prefix j :
  (j <= 4)%nat ->
  map retry_delay (seq 0 j) = take j [1000; 2000; 4000; 8000]
  /\ foldr Z.add 0 (map retry_delay (seq 0 j)) <= 15000.
Proof.
  intros Hj. do 5 (destruct j as [|j]; [split; [reflexivity|vm_compute; discriminate]|]). lia.
Qed.

Lemma withRetry_budget {T} (fn : Prog T) context s0 s :
  (forall s, exists evs,
     trace (snd (fn s)) = trace s ++ evs
     /\ waits evs = [] /\ (length (requests evs) <= 1)%nat) ->
  (exists evs0, trace s = trace s0 ++ evs0 /\ waits evs0 = [] /\ requests evs0 = []) ->
  exists evs j,
    trace (snd (withRetry fn context s)) = trace s0 ++ evs
    /\ (length (requests evs) <= 5)%nat
    /\ (j <= 4)%nat
    /\ waits evs = take j [1000; 2000; 4000; 8000]
    /\ total_wait evs <= 15000.
Proof.
  intros Hfn (evs0 & Ht0 & Hw0 & Hr0).
  destruct (withRetry_loop_budget fn context 1 Hfn MAX_RETRIES 0 JUndefined s)
    as (evs & j & Ht & Hr & Hj & Hw).
  assert (Hj4 : (j <= 4)%nat) by lia.
  destruct (backoff_prefix j Hj4) as [Hpre Hsum].
  exists (evs0 ++ evs), j. unfold withRetry. rewrite Ht, Ht0, <- app_assoc.
  split; [reflexivity|]. unfold total_wait.
  rewrite requests_app, waits_app, Hr0, Hw0, Hw. simpl in *.
  repeat split; try assumption; lia.
Qed.

Lemma quiet_initializeClient s :
  exists evs,
    trace (snd (initializeClient s)) = trace s ++ evs
    /\ waits evs = [] /\ requests evs = [].
Proof.
  destruct (keeps_initializeClient_any
              (fun ev => waits [ev] = [] /\ requests [ev] = [])
              (conj eq_refl eq_refl) (conj eq_refl eq_refl) s Logic.I)
    as (_ & evs & Ht & Hall).
  exists evs. split; [exact Ht|]. clear Ht.
  induction Hall as [|ev evs [Hw Hr] _ [IHw IHr]]; [auto|].
  change (ev :: evs) with ([ev] ++ evs). rewrite waits_app, requests_app, Hw, Hr. auto.
Qed.

End Budget.

Section BudgetExtras.

Context `{host : Host}.

(** Property X2.  Whatever the model answers, one call of [generateContent]
    and one opening of a stream by [streamContent] send at most 5 requests
    each, and wait between them for the first delays of 1 s, 2 s, 4 s and 8 s:
    15 s at most. *)
Theorem model_call_budget sys prompt options stream_options s :
  within_budget (generateContent sys prompt options) s
  /\ within_budget (request_stream sys prompt stream_options) s.
Proof.
  split.
  - unfold generateContent, request_content.
    destruct (quiet_initializeClient s) as (evs0 & Ht0 & Hq0).
    unfold within_budget, bind at 1 2.
    destruct (initializeClient s) as [[init|e|c] s1]; simpl in Ht0.
    2, 3: exists evs0, 0%nat; destruct Hq0 as [Hw Hr]; unfold total_wait; rewrite Hw, Hr;
          simpl; repeat split; try assumption; lia.
    cbv zeta.
    match goal with
    | |- context [withRetry ?fn ?ctx s1] =>
        destruct (withRetry_budget fn ctx s s1) as (evs & j & Ht & H)
    end.
    + intros s2. unfold bind, ask, emit, await. simpl.
      destruct (crypto_randomUUID (world s2)) as [promptId w]. simpl.
      match goal with
      | |- context [client_generateContent ?c ?r ?i ?w] =>
          destruct (client_generateContent c r i w) as [[v|e] w']
      end; simpl; eexists; (split; [reflexivity|]); split; simpl; auto.
    + exists evs0. tauto.
    + exists evs, j. split; [|exact H].
      match goal with
      | |- context [withRetry ?fn ?ctx s1] => destruct (withRetry fn ctx s1) as [[v|e|c] s2]
      end; exact Ht.
  - unfold request_stream.
    destruct (quiet_initializeClient s) as (evs0 & Ht0 & Hq0).
    unfold within_budget, bind at 1.
    destruct (initializeClient s) as [[init|e|c] s1]; simpl in Ht0.
    2, 3: exists evs0, 0%nat; destruct Hq0 as [Hw Hr]; unfold total_wait; rewrite Hw, Hr;
          simpl; repeat split; try assumption; lia.
    cbv zeta.
    match goal with
    | |- context [withRetry ?fn ?ctx s1] =>
        destruct (withRetry_budget fn ctx s s1) as (evs & j & Ht & H)
    end.
    + intros s2. unfold bind, ask, emit, await. simpl.
      destruct (crypto_randomUUID (world s2)) as [promptId w]. simpl.
      match goal with
      | |- context [client_generateContentStream ?c ?r ?i ?w] =>
          destruct (client_generateContentStream c r i w) as [[v|e] w']
      end; simpl; eexists; (split; [reflexivity|]); split; simpl; auto.
    + exists evs0. tauto.
    + exists evs, j. split; [exact Ht|exact H].
Qed.

End BudgetExtras.

(** ** The requests of the agents, and a failed initialization *)

Lemma requests_all request evs :
  Forall (fun ev => match ev with
                    | GenerateContent r _ => r = request
                    | GenerateContentStream _ _ => False
                    | _ => True
                    end) evs ->
  exists promptIds, requests evs = map (GenerateContent request) promptIds.
Proof.
  induction 1 as [|ev evs Hev _ [ids IH]]; [exists []; reflexivity|].
  destruct ev as [ |msg|msg d|t|ms|p| | | |r i|r i|p|p d|l]; try (exists ids; exact IH).
  - subst. exists (i :: ids).
    change (requests (GenerateContent request i :: evs))
      with (GenerateContent request i :: requests evs).
    rewrite IH. reflexivity.
  - contradiction.
Qed.

Section RequestExtras.

Context `{host : Host}.

(** Property X5.  Every request that the researcher sends for a question,
    retries included, is a request to gemini-3-flash-preview with the Google
    Search tool and without a JSON schema, whose one user message is the
    question; the researcher opens no stream. *)
Theorem runResearcher_requests q s :
  exists evs promptIds,
    trace (snd (runResearcher q s)) = trace s ++ evs
    /\ requests evs = map (GenerateContent (researcher_request q)) promptIds.
Proof.
  destruct (keeps_bind any_state
              (fun ev => match ev with
                         | GenerateContent r _ => r = researcher_request q
                         | GenerateContentStream _ _ => False
                         | _ => True
                         end)
              (generateContent researcher_instruction (researcher_prompt q) researcher_options)
              (fun generated =>
                 ret {| question := q; findings := fst generated;
                        sources := extract_sources (snd generated) |}))
    with (s := s) as (_ & evs & Ht & Hall).
  - apply keeps_generateContent; try (intros; exact Logic.I).
    + apply any_state_cache_only.
    + apply keeps_initializeClient_any; exact Logic.I.
    + intros promptId. reflexivity.
  - intros generated. apply keeps_ret.
  - exact Logic.I.
  - destruct (requests_all _ _ Hall) as [ids Hids].
    exists evs, ids. split; [exact Ht|exact Hids].
Qed.

(** Property X6.  Every request that the coordinator sends for a topic,
    retries included, asks gemini-3-flash-preview for JSON that follows the
    schema of the plan, without the search tool; the coordinator opens no
    stream. *)
Theorem runCoordinator_requests topic s :
  Js.truthy (z_toJSONSchema (z_shape researchPlanSchema)) = true ->
  exists evs promptIds,
    trace (snd (runCoordinator topic s)) = trace s ++ evs
    /\ requests evs
       = map (GenerateContent
                (coordinator_request topic (z_toJSONSchema (z_shape researchPlanSchema))))
             promptIds.
Proof.
  intros Htruthy.
  assert (Hk : keeps any_state
            (fun ev => match ev with
                       | GenerateContent r _ =>
                           r = coordinator_request topic
                                 (z_toJSONSchema (z_shape researchPlanSchema))
                       | GenerateContentStream _ _ => False
                       | _ => True
                       end)
            (runCoordinator topic)).
  { pose proof any_state_cache_only as Hc.
    unfold runCoordinator. keeps; try exact Logic.I.
    apply keeps_generateContent; try (intros; exact Logic.I).
    - exact Hc.
    - apply keeps_initializeClient_any; exact Logic.I.
    - intros promptId. unfold content_request, coordinator_options, coordinator_request.
      cbn [jsonSchema useGoogleSearch]. rewrite Htruthy. reflexivity. }
  destruct (Hk s Logic.I) as (_ & evs & Ht & Hall).
  destruct (requests_all _ _ Hall) as [ids Hids].
  exists evs, ids. split; [exact Ht|exact Hids].
Qed.

End RequestExtras.

Section InitExtras.

Context `{host : Host}.

(** Property X3.  When the config is created and the creation of the generator
    then fails, [initializeClient] throws that error; the config stays in its
    module variable, but no client is cached: the next call creates a config
    again. *)
Theorem initializeClient_failed_generator s config w1 e w2 :
  contentGenerator s = None ->
  createContentGeneratorConfig makeFakeConfig (world s) = (Fulfilled config, w1) ->
  createContentGenerator config makeFakeConfig w1 = (Rejected e, w2) ->
  exists s1,
    initializeClient s = (Throw e, s1)
    /\ trace s1 = trace s ++ [CreateContentGeneratorConfig; CreateContentGenerator]
    /\ world s1 = w2
    /\ generatorConfig s1 = Some config
    /\ contentGenerator s1 = None
    /\ exists evs,
         trace (snd (initializeClient s1)) = trace s1 ++ CreateContentGeneratorConfig :: evs.
Proof.
  intros Hc Hcfg Hgen.
  unfold initializeClient at 1.
  unfold bind, read_contentGenerator, read_generatorConfig, emit, await,
    write_generatorConfig, write_contentGenerator, ret.
  rewrite Hc. simpl. rewrite Hcfg. simpl. rewrite Hgen. simpl.
  eexists. split; [reflexivity|]. simpl. rewrite <- app_assoc.
  split; [reflexivity|]. split; [reflexivity|]. split; [reflexivity|]. split; [exact Hc|].
  unfold initializeClient, bind, read_contentGenerator, read_generatorConfig, emit, await,
    write_generatorConfig, write_contentGenerator, ret.
  simpl. rewrite Hc. simpl.
  destruct (createContentGeneratorConfig makeFakeConfig w2) as [[cfg'|e'] w3]; simpl.
  2: { exists []. reflexivity. }
  destruct (createContentGenerator cfg' makeFakeConfig w3) as [[cl'|e'] w4]; simpl.
  all: exists [CreateContentGenerator]; rewrite <- !app_assoc; reflexivity.
Qed.

End InitExtras.

(** ** Streams, rejected plans and failed research *)

Lemma or_empty_Some s : or_empty (Some s) = s.
Proof.
  unfold or_empty. destruct (String.eqb s "") eqn:E; [|reflexivity].
  apply String.eqb_eq in E. subst. reflexivity.
Qed.

Lemma concat_or_empty parts :
  String.concat "" (map (fun p => or_empty (part_text p)) parts)
  = String.concat "" (omap part_text parts).
Proof.
  induction parts as [|p parts IH]; [reflexivity|].
  cbn [map]. rewrite concat_empty_cons, IH.
  destruct (part_text p) as [t|] eqn:E.
  - rewrite or_empty_Some.
    change (omap part_text (p :: parts))
      with (match part_text p with Some y => y :: omap part_text parts
            | None => omap part_text parts end).
    rewrite E, concat_empty_cons. reflexivity.
  - change (omap part_text (p :: parts))
      with (match part_text p with Some y => y :: omap part_text parts
            | None => omap part_text parts end).
    rewrite E. reflexivity.
Qed.

Lemma concat_empty_concat ls :
  String.concat "" (concat ls) = String.concat "" (map (String.concat "") ls).
Proof.
  induction ls as [|l ls IH]; [reflexivity|].
  cbn [concat map]. rewrite concat_empty_app, concat_empty_cons, IH. reflexivity.
Qed.

(** The text that [generateContent] reads from a response is the
    concatenation of its text fragments. *)
Lemma read_response_text response :
  fst (read_response response) = String.concat "" (chunk_fragments response).
Proof.
  rewrite chunk_fragments_parts. unfold read_response. cbn [fst].
  destruct (candidate_parts (first_candidate response)) as [parts|]; [|reflexivity].
  rewrite or_empty_Some. apply concat_or_empty.
Qed.

Section StreamFacts.

Context `{host : Host}.
Variable options : StreamOptions.
Hypothesis Htext : forall f text s1, onText options = Some f -> exists s2, f text s1 = (Ok tt, s2).
Hypothesis Hgrounding :
  forall f metadata s1, onGrounding options = Some f -> exists s2, f metadata s1 = (Ok tt, s2).

Lemma stream_parts_returns parts : forall fullText s,
  exists s', stream_parts options parts fullText s
             = (Ok (fullText +:+ String.concat "" (omap part_text parts)), s').
Proof.
  induction parts as [|p parts IH]; intros fullText s.
  - exists s. simpl. unfold ret. rewrite append_nil_r. reflexivity.
  - cbn [stream_parts omap list_omap]. destruct (part_text p) as [text|]; [|apply IH].
    rewrite concat_empty_cons.
    destruct (String.eqb_spec text "") as [->|Hne]; cbn [negb].
    + apply IH.
    + assert (Hcall : exists s1, call_optional (onText options) text s = (Ok tt, s1)).
      { unfold call_optional. destruct (onText options) as [f|] eqn:Ef.
        - eapply Htext. reflexivity.
        - exists s. reflexivity. }
      destruct Hcall as [s1 Hcall]. rewrite (bind_ok _ _ _ _ _ Hcall).
      destruct (IH (fullText +:+ text) s1) as [s' Hs']. exists s'.
      rewrite Hs', append_assoc. reflexivity.
Qed.

Lemma stream_chunks_loop_returns chunks : forall fullText s,
  exists s', stream_chunks_loop options chunks fullText s
             = (Ok (fullText +:+ String.concat "" (concat (map chunk_fragments chunks))), s').
Proof.
  induction chunks as [|c chunks IH]; intros fullText s.
  - exists s. simpl. unfold ret. rewrite append_nil_r. reflexivity.
  - cbn [stream_chunks_loop map concat]. rewrite concat_empty_app, chunk_fragments_parts.
    assert (Hparts : exists s1,
              match candidate_parts (first_candidate c) with
              | Some parts => stream_parts options parts fullText
              | None => ret fullText
              end s
              = (Ok (fullText +:+ String.concat ""
                       match candidate_parts (first_candidate c) with
                       | Some parts => omap part_text parts
                       | None => []
                       end), s1)).
    { destruct (candidate_parts (first_candidate c)) as [parts|].
      - apply stream_parts_returns.
      - exists s. unfold ret. simpl. rewrite append_nil_r. reflexivity. }
    destruct Hparts as [s1 Hparts]. rewrite (bind_ok _ _ _ _ _ Hparts).
    assert (Hcall : exists s2,
              match first_candidate c with
              | Some c0 =>
                  match candidate_groundingMetadata c0 with
                  | Some metadata => call_optional (onGrounding options) metadata
                  | None => ret tt
                  end
              | None => ret tt
              end s1 = (Ok tt, s2)).
    { destruct (first_candidate c) as [c0|]; [|exists s1; reflexivity].
      destruct (candidate_groundingMetadata c0) as [md|]; [|exists s1; reflexivity].
      unfold call_optional. destruct (onGrounding options) as [f|] eqn:Ef.
      - eapply Hgrounding. reflexivity.
      - exists s1. reflexivity. }
    destruct Hcall as [s2 Hcall]. rewrite (bind_ok _ _ _ _ _ Hcall).
    destruct (IH (fullText +:+ String.concat ""
                    match candidate_parts (first_candidate c) with
                    | Some parts => omap part_text parts
                    | None => []
                    end) s2) as [s' Hs'].
    exists s'. rewrite Hs', append_assoc. reflexivity.
Qed.

End StreamFacts.

Section StreamExtras.

Context `{host : Host}.

(** Property X9.  Whatever the callbacks, as long as they return: what
    [streamContent] returns for a stream that ends normally is the
    concatenation, over the chunks in arrival order, of the text that
    [generateContent] reads from a response. *)
Theorem streamContent_text options stream s :
  stream_failure stream = None ->
  (forall f text s1, onText options = Some f -> exists s2, f text s1 = (Ok tt, s2)) ->
  (forall f metadata s1, onGrounding options = Some f -> exists s2, f metadata s1 = (Ok tt, s2)) ->
  fst (read_stream options stream s)
  = Ok (String.concat ""
          (map (fun chunk => fst (read_response chunk)) (stream_chunks stream))).
Proof.
  intros Hfail Htext Hgrounding. unfold read_stream.
  destruct (stream_chunks_loop_returns options Htext Hgrounding (stream_chunks stream) "" s)
    as [s' Hs'].
  rewrite (bind_ok _ _ _ _ _ Hs'), Hfail. unfold ret. cbn [fst].
  f_equal. change ("" +:+ ?x) with x.
  rewrite concat_empty_concat, map_map. f_equal.
  apply map_ext. intros c. symmetry. apply read_response_text.
Qed.

(** Property X8.  When the request of [generateContent] is answered, the text
    it returns is the concatenation of the texts of the parts of the first
    candidate of the response (the empty string when there is no candidate, no
    content or no part), and the metadata is that of the first candidate; the
    other candidates are not read. *)
Theorem generateContent_text sys prompt options s response s' :
  request_content sys prompt options s = (Ok response, s') ->
  generateContent sys prompt options s
  = (Ok (String.concat "" (chunk_fragments response), response_metadata response), s').
Proof.
  intros Hreq. unfold generateContent. rewrite (bind_ok _ _ _ _ _ Hreq). unfold ret.
  rewrite <- read_response_text, <- read_response_metadata.
  destruct (read_response response); reflexivity.
Qed.

(** Property X10.  When the stream of the writer breaks, the writer throws the
    error of the stream; the fragments that had arrived are on the standard
    output, and nothing is printed after them. *)
Theorem runWriter_stream_failure topic findings s stream s1 e :
  request_stream writer_instruction (writer_prompt topic findings) writer_options
    (log_events [ConsoleLog writer_banner] s) = (Ok stream, s1) ->
  stream_failure stream = Some e ->
  runWriter topic findings s
  = (Throw e,
     log_events (map StdoutWrite (List.filter nonempty (stream_fragments stream))) s1).
Proof.
  intros Hreq Hfail. unfold runWriter, console_log. rewrite bind_emit.
  apply bind_throw. unfold streamContent. rewrite (bind_ok _ _ _ _ _ Hreq).
  apply read_stream_writer_failure. exact Hfail.
Qed.

End StreamExtras.

Section CoordinatorExtras.

Context `{host : Host}.

(** Property X7.  When the text of the response parses as JSON but the
    document has no list of strings under [questions] or no string under
    [rationale], the coordinator throws a ZodError, and the request is not
    repeated. *)
Theorem runCoordinator_rejects topic s response s' document :
  request_content coordinator_instruction ("Topic: " +:+ topic) coordinator_options
    (log_events [ConsoleLog (coordinator_banner topic)] s) = (Ok response, s') ->
  JSON_parse (fst (read_response response)) = Fulfilled document ->
  (forall qs, Js.get document "questions" <> JArr (map JStr qs))
  \/ (forall r, Js.get document "rationale" <> JStr r) ->
  runCoordinator topic s = (Throw ZodError, s').
Proof.
  intros Hreq Hparse Hbad.
  unfold runCoordinator, console_log. rewrite bind_emit.
  unfold generateContent.
  assert (Hgen : (response <- request_content coordinator_instruction ("Topic: " +:+ topic)
                                coordinator_options ;;
                  ret (read_response response))
                   (log_events [ConsoleLog (coordinator_banner topic)] s)
                 = (Ok (read_response response), s')).
  { rewrite (bind_ok _ _ _ _ _ Hreq). reflexivity. }
  rewrite (bind_ok _ _ _ _ _ Hgen). cbv zeta.
  assert (Hdoc : await (fun w => (JSON_parse (fst (read_response response)), w)) s'
                 = (Ok document, s')).
  { unfold await. rewrite Hparse. destruct s'; reflexivity. }
  rewrite (bind_ok _ _ _ _ _ Hdoc).
  destruct (z_parse researchPlanSchema document) as [plan|] eqn:Hplan; [|reflexivity].
  exfalso. apply researchPlanSchema_parse in Hplan as (_ & Hq & Hr).
  destruct Hbad as [Hbad|Hbad]; eapply Hbad; eassumption.
Qed.

End CoordinatorExtras.

Section ResearchExtras.

Context `{host : Host}.

(** Property X11.  When the research phase fails, its error is the error of
    the researcher of one of the questions: the rejection of a request for
    that question, or of the creation of the client. *)
Theorem research_all_rejects qs s e s' :
  research_all qs s = (Throw e, s') ->
  exists q, q ∈ qs /\ researcher_error q e.
Proof.
  intros Hrun.
  destruct (research_all_spec any_state (fun _ => True) any_state_cache_only
              (fun _ => Logic.I) (fun _ => Logic.I)
              (behaves_initializeClient_any _ Logic.I Logic.I)
              (fun _ _ => Logic.I) qs s Logic.I) as [_ Hend].
  rewrite Hrun in Hend. simpl in Hend. destruct Hend as (i & _ & q & Hq & He).
  exists q. split; [|exact He]. eapply list_elem_of_lookup_2. exact Hq.
Qed.

(** Property X24.  When the client is cached, as it is in a run once the
    coordinator has returned, the research phase first sends the requests
    of all the questions, in the order of the questions: no researcher goes
    on before the request of the last question is out, whatever the model
    answers and in whatever order the event loop resumes the researchers. *)
Theorem research_all_sends_requests_first qs s :
  cached s ->
  exists promptIds rest,
    length promptIds = length qs
    /\ trace (snd (research_all qs s))
       = trace s
         ++ zip_with (fun q id => GenerateContent (researcher_request q) id) qs promptIds
         ++ rest.
Proof.
  intros Hs.
  destruct (start_researchers qs
              (fun index question result =>
                 sync (console_log ("  ✓ Q" +:+ pretty (index + 1)%nat +:+ ": "
                                    +:+ question)) ;;~
                 sync (ret result)) s Hs)
    as (ids & tasks & s1 & Hstart & Hlen & Htr & _).
  unfold research_all.
  match goal with
  | |- context [promise_all ?fuel ?fns s] =>
      destruct (promise_all_run any_state (fun _ => True) any_state_cache_only
                  (fun i r => exists q, qs !! i = Some q /\ researcher_result q r)
                  (fun i e => exists q, qs !! i = Some q /\ researcher_error q e)
                  12 fuel fns s) as (_ & (_ & evs & Hevs & _) & _)
  end.
  - intros i fn. apply behaves_researchers; try (intros; exact Logic.I).
    + apply any_state_cache_only.
    + apply behaves_initializeClient_any; exact Logic.I.
  - rewrite length_imap. reflexivity.
  - exact Logic.I.
  - rewrite Hstart in Hevs. cbn [snd] in Hevs.
    exists ids, evs. split; [exact Hlen|]. rewrite Hevs, Htr, app_assoc. reflexivity.
Qed.

End ResearchExtras.

(** ** The phases of a run *)

Lemma in_phases_nil : in_phases [].
Proof. exists [], []. auto. Qed.

Lemma in_phases_after e1 e2 :
  Forall (fun ev => is_writing ev = false) e1 -> in_phases e2 -> in_phases (e1 ++ e2).
Proof.
  intros H1 (before & after & -> & Hb & Ha). exists (e1 ++ before), after.
  rewrite app_assoc. split; [reflexivity|]. split; [apply Forall_app; auto|exact Ha].
Qed.

Lemma in_phases_before e1 e2 :
  in_phases e1 -> Forall (fun ev => is_research ev = false) e2 -> in_phases (e1 ++ e2).
Proof.
  intros (before & after & -> & Hb & Ha) H2. exists before, (after ++ e2).
  rewrite app_assoc. split; [reflexivity|]. split; [exact Hb|apply Forall_app; auto].
Qed.

Section Phases.

Context `{host : Host}.

Lemma pipeline_in_phases topic outputFile : traces in_phases (pipeline topic outputFile).
Proof.
  pose proof any_state_cache_only as Hc.
  assert (Hinit1 : keeps any_state (fun ev => is_writing ev = false) initializeClient).
  { apply keeps_initializeClient_any; reflexivity. }
  assert (Hinit2 : keeps any_state (fun ev => is_research ev = false) initializeClient).
  { apply keeps_initializeClient_any; reflexivity. }
  assert (Htask : behaves 2 any_state (fun ev => is_writing ev = false) (fun _ => True)
                    creation_error Concurrent.initializeClient).
  { apply behaves_initializeClient_any; reflexivity. }
  unfold pipeline.
  let rec peel n :=
    lazymatch n with
    | O => idtac
    | S ?k => apply (traces_after (fun ev => is_writing ev = false));
              [apply in_phases_after | apply in_phases_nil | | intros ?; peel k]
    end in
  peel 10%nat.
  all: try solve [keeps].
  - apply keeps_runCoordinator; try assumption; reflexivity.
  - apply keeps_for_each; try assumption. intros x. keeps.
  - apply keeps_research_all; try assumption; reflexivity.
  - apply keeps_for_each; try assumption. intros x. apply keeps_show_result; try assumption.
    reflexivity.
  - intros s.
    match goal with
    | |- context [bind ?m ?f s] =>
        destruct (keeps_bind any_state (fun ev => is_research ev = false) m f) with (s := s)
          as (_ & evs & Ht & Hall)
    end.
    + apply keeps_runWriter; try assumption; reflexivity.
    + intros report. keeps.
    + exact Logic.I.
    + exists evs. split; [exact Ht|]. exists [], evs. auto.
Qed.

End Phases.

Section PhaseExtras.

Context `{host : Host}.

(** Property X14.  In a run, all writing comes after all research: the events
    of the run split in two parts, the first without a request for a stream, a
    [process.stdout.write] or an event of the file system, and the second
    without a request for content. *)
Theorem main_in_phases values s :
  exists before after,
    trace (snd (main values s)) = trace s ++ before ++ after
    /\ Forall (fun ev => is_writing ev = false) before
    /\ Forall (fun ev => is_research ev = false) after.
Proof.
  destruct (read_topic_trace values s)
    as (s0 & evs0 & Hread & Htr & _ & _ & _ & _ & _ & Hevs0 & _).
  unfold main. rewrite (bind_ok _ _ _ _ _ Hread).
  assert (Hbody : traces in_phases
            ((if String.eqb (trim (run_topic values (world s))) "" then
                console_error "❌ Topic is required." None ;;;
                process_exit 1
              else ret tt) ;;;
             try_finally
               (try_catch (pipeline (run_topic values (world s)) (values_output values))
                  (fun error => console_error (LF +:+ "❌ An error occurred:") (Some error)))
               (emit RlClose ;;; process_exit 0))).
  { pose proof any_state_cache_only as Hc.
    apply (traces_after (fun ev => is_writing ev = false));
      [apply in_phases_after | apply in_phases_nil | | intros _].
    - destruct (String.eqb _ ""); keeps.
    - apply (traces_finally (fun ev => is_research ev = false)).
      + apply in_phases_before.
      + apply pipeline_in_phases.
      + intros e. keeps.
      + keeps. }
  destruct (Hbody s0) as (evs & Hevs & before & after & -> & Hb & Ha).
  exists (evs0 ++ before), after. rewrite Hevs, Htr, <- !app_assoc.
  split; [reflexivity|]. split; [apply Forall_app; auto|exact Ha].
Qed.

End PhaseExtras.

(** ** The tool-calling variant *)

Lemma prefix_spec needle : forall hay,
  String.prefix needle hay = true <-> exists rest, hay = needle +:+ rest.
Proof.
  induction needle as [|c needle IH]; intros hay.
  - destruct hay; simpl; split; eauto.
  - destruct hay as [|d hay]; simpl.
    + split; [discriminate|]. intros [rest H]. discriminate.
    + destruct (Ascii.ascii_dec c d) as [->|Hne].
      * rewrite IH. split; intros [rest H]; exists rest.
        -- rewrite H. reflexivity.
        -- change (String d needle +:+ rest) with (String d (needle +:+ rest)) in H.
           congruence.
      * split; [discriminate|]. intros [rest H].
        change (String c needle +:+ rest) with (String c (needle +:+ rest)) in H.
        congruence.
Qed.

(** [includes] is the test for a substring. *)
Lemma includes_spec needle : forall hay,
  includes needle hay = true <-> exists before after, hay = before +:+ needle +:+ after.
Proof.
  induction hay as [|d hay IH]; cbn [includes].
  - rewrite orb_false_r, prefix_spec. split.
    + intros [rest H]. exists "", rest. exact H.
    + intros (before & after & H). destruct before as [|b before]; [exists after; exact H|].
      change (String b before +:+ needle +:+ after)
        with (String b (before +:+ needle +:+ after)) in H.
      discriminate.
  - rewrite orb_true_iff, prefix_spec, IH. split.
    + intros [[rest H]|(before & after & H)].
      * exists "", rest. exact H.
      * exists (String d before), after. rewrite H. reflexivity.
    + intros (before & after & H). destruct before as [|b before].
      * left. exists after. exact H.
      * right. exists before, after.
        change (String b before +:+ needle +:+ after)
          with (String b (before +:+ needle +:+ after)) in H.
        congruence.
Qed.

Lemma map_SearchResult_id (l : list V2.SearchResult) :
  map (fun r => {| V2.title := V2.title r; V2.description := V2.description r;
                   V2.url := V2.url r |}) l = l.
Proof. induction l as [|[] l IH]; simpl; [|rewrite IH]; reflexivity. Qed.

Section SearchExtras.

Context `{host : Host} `{sdk : !V2.Sdk}.

(** The runs of the tool, by what the search answers. *)
Lemma execute_run query s :
  V2.execute V2.searchTool query s
  = let s1 :=
      set_world (snd (V2.search query {| V2.safeSearch := "STRICT" |} (world s)))
        (log_events
           [ConsoleLog (LF +:+ "[Tool] Searching for: " +:+ DQ +:+ query +:+ DQ +:+ "...");
            Sleep 3000] s) in
    match fst (V2.search query {| V2.safeSearch := "STRICT" |} (world s)) with
    | Fulfilled found =>
        (Ok (match V2.results found with
             | Some items =>
                 if (length items =? 0)%nat then V2.Message "No results found."
                 else V2.Hits (take 3 items)
             | None => V2.Message "No results found."
             end), s1)
    | Rejected error =>
        match message_includes error "anomaly" with
        | Raises => (Throw TypeError, s1)
        | Answers true =>
            (Ok (V2.Message V2.rate_limit_message),
             log_events
               [ConsoleError "[Tool] Rate limited by DuckDuckGo. Try again later." None] s1)
        | _ =>
            (Ok (V2.Message "An error occurred while searching."),
             log_events [ConsoleError "Search failed:" (Some error)] s1)
        end
    end.
Proof.
  cbn [V2.execute V2.searchTool].
  unfold try_catch, bind, console_log, console_error, V2.sleep, emit, await, set_world,
    log_events.
  simpl.
  destruct (V2.search query {| V2.safeSearch := "STRICT" |} (world s)) as [[found|e] w]; simpl.
  - destruct (V2.results found) as [items|]; simpl.
    + destruct (length items =? 0)%nat; simpl; rewrite <- ?app_assoc, ?map_SearchResult_id;
        reflexivity.
    + rewrite <- app_assoc. reflexivity.
  - destruct (message_includes e "anomaly") as [| |[|]]; simpl; rewrite <- ?app_assoc;
      reflexivity.
Qed.

(** Property X15.  Before every search the tool prints the query and pauses
    for 3 s, once; whatever the search does, the tool does not end the
    process. *)
Theorem searchTool_pauses query s :
  exists evs,
    trace (snd (V2.execute V2.searchTool query s))
    = trace s
      ++ ConsoleLog (LF +:+ "[Tool] Searching for: " +:+ DQ +:+ query +:+ DQ +:+ "...")
         :: Sleep 3000 :: evs
    /\ waits evs = []
    /\ exits (fst (V2.execute V2.searchTool query s)) = false.
Proof.
  rewrite execute_run. cbv zeta.
  destruct (fst (V2.search query {| V2.safeSearch := "STRICT" |} (world s))) as [found|e].
  - exists []. auto.
  - destruct (message_includes e "anomaly") as [| |[|]]; simpl.
    + exists []. auto.
    + eexists [_]. rewrite <- !app_assoc. simpl. auto.
    + eexists [_]. rewrite <- !app_assoc. simpl. auto.
    + eexists [_]. rewrite <- !app_assoc. simpl. auto.
Qed.

(** Property X16.  When the tool returns hits, they are the first results of
    the search, in their order, at least one and at most three. *)
Theorem searchTool_hits query s items s' :
  V2.execute V2.searchTool query s = (Ok (V2.Hits items), s') ->
  (0 < length items <= 3)%nat
  /\ exists found all,
       V2.search query {| V2.safeSearch := "STRICT" |} (world s) = (Fulfilled found, world s')
       /\ V2.results found = Some all
       /\ items = take 3 all.
Proof.
  rewrite execute_run. cbv zeta.
  destruct (V2.search query {| V2.safeSearch := "STRICT" |} (world s)) as [[found|e] w]; simpl.
  - destruct (V2.results found) as [all|] eqn:Hall; [|discriminate].
    destruct (length all =? 0)%nat eqn:Hlen; [discriminate|].
    intros [= <- <-]. simpl.
    apply Nat.eqb_neq in Hlen. split.
    + rewrite length_take. lia.
    + exists found, all. auto.
  - destruct (message_includes e "anomaly") as [| |[|]]; simpl; discriminate.
Qed.

(** Property X17.  When the search fails with an error that has a string as
    its message, the tool does not throw: it returns the message about rate
    limits when the message of the error contains anomaly, and the general
    message otherwise. *)
Theorem searchTool_search_fails query s error w message :
  V2.search query {| V2.safeSearch := "STRICT" |} (world s) = (Rejected error, w) ->
  Js.get error "message" = JStr message ->
  fst (V2.execute V2.searchTool query s)
  = Ok (V2.Message (if includes "anomaly" message then V2.rate_limit_message
                    else "An error occurred while searching."))
  /\ (includes "anomaly" message = true
      <-> exists before after, message = before +:+ "anomaly" +:+ after).
Proof.
  intros Hsearch Hmessage. split; [|apply includes_spec].
  rewrite execute_run, Hsearch. cbv zeta. cbn [fst snd].
  assert (Hinc : message_includes error "anomaly" = Answers (includes "anomaly" message)).
  { unfold message_includes. rewrite Hmessage.
    destruct error; try reflexivity; discriminate. }
  rewrite Hinc. destruct (includes "anomaly" message); reflexivity.
Qed.

(** Property X18.  The tool throws in one case only: the search failed with
    [undefined], with [null], or with an object whose message is a boolean, a
    number or an object, so that the test of the message in the handler throws
    a TypeError. *)
Theorem searchTool_throws query s e s' :
  V2.execute V2.searchTool query s = (Throw e, s') ->
  e = TypeError
  /\ exists error w,
       V2.search query {| V2.safeSearch := "STRICT" |} (world s) = (Rejected error, w)
       /\ (error = JUndefined \/ error = JNull
           \/ exists props, error = JObj props
                /\ match Js.get error "message" with
                   | JBool _ | JNum _ | JObj _ => True
                   | _ => False
                   end).
Proof.
  rewrite execute_run. cbv zeta.
  destruct (V2.search query {| V2.safeSearch := "STRICT" |} (world s)) as [[found|error] w];
    cbn [fst snd]; [discriminate|].
  destruct (message_includes error "anomaly") as [| |[|]] eqn:Hinc; try discriminate.
  intros [= <- <-]. split; [reflexivity|]. exists error, w.
  split; [reflexivity|].
  unfold message_includes in Hinc.
  destruct error as [| | | | | |props]; auto; try discriminate.
  right. right. exists props. split; [reflexivity|].
  destruct (Js.get (JObj props) "message"); try discriminate; exact Logic.I.
Qed.

End SearchExtras.

Section AgentStreamFacts.

Context `{host : Host} `{sdk : !V2.Sdk}.

Lemma text_deltas_one part :
  text_deltas [part]
  = if String.eqb (V2.type part) "text-delta"
    then match V2.textDelta part with Some delta => [delta] | None => [] end
    else [].
Proof.
  unfold text_deltas. cbn [omap list_omap].
  destruct (String.eqb (V2.type part) "text-delta"); reflexivity.
Qed.

(** One part of the full stream: a text delta goes to the standard output
    and to the text; any other part leaves both as they are and prints at
    most one line on the console. *)
Lemma stream_part_run part fullText s :
  exists s' evs,
    V2.stream_part part fullText s
    = (Ok (fullText +:+ String.concat "" (text_deltas [part])), s')
    /\ trace s' = trace s ++ evs
    /\ stdout_writes evs = List.filter nonempty (text_deltas [part])
    /\ world s' = world s.
Proof.
  rewrite text_deltas_one. unfold V2.stream_part.
  destruct (String.eqb (V2.type part) "text-delta") eqn:Htype; cbn [andb].
  - assert (Hother : forall t, String.eqb "text-delta" t = false ->
              String.eqb (V2.type part) t = false).
    { intros t Ht. apply String.eqb_eq in Htype. rewrite Htype. exact Ht. }
    destruct (V2.textDelta part) as [delta|].
    + change (default "" (Some delta)) with delta.
      unfold nonempty. cbn [List.filter].
      destruct (String.eqb_spec delta "") as [->|Hne]; cbn [negb].
      * rewrite !Hother by reflexivity.
        exists s, []. simpl. rewrite app_nil_r, append_nil_r. auto.
      * eexists. exists [StdoutWrite delta]. unfold bind, emit, ret. simpl. auto.
    + change (default "" (@None string)) with "".
      change (negb (String.eqb "" "")) with false. cbv iota.
      rewrite !Hother by reflexivity.
      exists s, []. simpl. rewrite app_nil_r, append_nil_r. auto.
  - simpl. rewrite append_nil_r.
    destruct (String.eqb (V2.type part) "tool-call");
      [eexists; eexists [_]; unfold bind, console_log, emit, ret; simpl; auto|].
    destruct (String.eqb (V2.type part) "tool-result");
      [eexists; eexists [_]; unfold bind, console_log, emit, ret; simpl; auto|].
    destruct (String.eqb (V2.type part) "error");
      [eexists; eexists [_]; unfold bind, console_error, emit, ret; simpl; auto|].
    exists s, []. rewrite app_nil_r. auto.
Qed.

Lemma text_deltas_cons part parts : text_deltas (part :: parts) = text_deltas [part] ++ text_deltas parts.
Proof.
  unfold text_deltas. cbn [omap list_omap].
  destruct (if String.eqb (V2.type part) "text-delta" then V2.textDelta part else None);
    reflexivity.
Qed.

Lemma stream_loop_run parts : forall fullText s,
  exists s' evs,
    V2.stream_loop parts fullText s
    = (Ok (fullText +:+ String.concat "" (text_deltas parts)), s')
    /\ trace s' = trace s ++ evs
    /\ stdout_writes evs = List.filter nonempty (text_deltas parts)
    /\ world s' = world s.
Proof.
  induction parts as [|part parts IH]; intros fullText s.
  - exists s, []. simpl. unfold ret. rewrite app_nil_r, append_nil_r. auto.
  - cbn [V2.stream_loop].
    destruct (stream_part_run part fullText s) as (s1 & evs1 & Hrun1 & Ht1 & Hw1 & Hworld1).
    rewrite (bind_ok _ _ _ _ _ Hrun1).
    destruct (IH (fullText +:+ String.concat "" (text_deltas [part])) s1)
      as (s2 & evs2 & Hrun2 & Ht2 & Hw2 & Hworld2).
    exists s2, (evs1 ++ evs2). rewrite Hrun2, Ht2, Ht1, <- app_assoc.
    rewrite (text_deltas_cons part parts), concat_empty_app, append_assoc.
    split; [reflexivity|]. split; [reflexivity|].
    rewrite stdout_writes_app, List.filter_app, Hw1, Hw2. split; [reflexivity|]. congruence.
Qed.

End AgentStreamFacts.

Section AgentStreamExtras.

Context `{host : Host} `{sdk : !V2.Sdk}.

(** Property X19.  When the agent opens its stream and the stream ends
    normally, [runAgentStream] returns the concatenation of the text deltas in
    arrival order, parts of other types (errors included) notwithstanding; it
    writes each delta to the standard output, and a line feed at the end. *)
Theorem runAgentStream_returns_deltas agent prompt s result w :
  V2.agent_stream agent prompt (world s) = (Fulfilled result, w) ->
  V2.fullStream_failure result = None ->
  exists s' evs,
    V2.runAgentStream agent prompt s
    = (Ok (String.concat "" (text_deltas (V2.fullStream result))), s')
    /\ trace s' = trace s ++ evs
    /\ stdout_writes evs = List.filter nonempty (text_deltas (V2.fullStream result)) ++ [LF]
    /\ world s' = w.
Proof.
  intros Hstream Hend. unfold V2.runAgentStream.
  assert (Hopen : await (V2.agent_stream agent prompt) s = (Ok result, set_world w s)).
  { unfold await. rewrite Hstream. reflexivity. }
  rewrite (bind_ok _ _ _ _ _ Hopen). unfold V2.read_fullStream. cbv zeta.
  destruct (stream_loop_run (V2.fullStream result) "" (set_world w s))
    as (s1 & evs & Hrun & Ht & Hw & Hworld).
  rewrite (bind_ok _ _ _ _ _ Hrun), Hend. unfold bind, emit, ret. simpl.
  eexists. exists (evs ++ [StdoutWrite LF]). split; [reflexivity|]. simpl.
  rewrite Ht, <- app_assoc, stdout_writes_app, Hw. simpl. auto.
Qed.

(** Property X20.  When the stream of the agent breaks, [runAgentStream]
    throws the error of the stream; the text deltas that had arrived are on
    the standard output, without a line feed after them. *)
Theorem runAgentStream_stream_failure agent prompt s result w e :
  V2.agent_stream agent prompt (world s) = (Fulfilled result, w) ->
  V2.fullStream_failure result = Some e ->
  exists s' evs,
    V2.runAgentStream agent prompt s = (Throw e, s')
    /\ trace s' = trace s ++ evs
    /\ stdout_writes evs = List.filter nonempty (text_deltas (V2.fullStream result)).
Proof.
  intros Hstream Hend. unfold V2.runAgentStream.
  assert (Hopen : await (V2.agent_stream agent prompt) s = (Ok result, set_world w s)).
  { unfold await. rewrite Hstream. reflexivity. }
  rewrite (bind_ok _ _ _ _ _ Hopen). unfold V2.read_fullStream. cbv zeta.
  destruct (stream_loop_run (V2.fullStream result) "" (set_world w s))
    as (s1 & evs & Hrun & Ht & Hw & Hworld).
  rewrite (bind_ok _ _ _ _ _ Hrun), Hend. unfold throw.
  exists s1, evs. auto.
Qed.

End AgentStreamExtras.

Section V2NoExit.

Context `{host : Host} `{sdk : !V2.Sdk}.





Lemma research_loop_order questions : forall acc s findings s',
  V2.research_loop questions acc s = (Ok findings, s') ->
  exists new,
    findings = acc ++ new
    /\ map finding_question new = questions
    /\ Forall (fun f =>
         exists s1 s2,
           V2.runAgentStream V2.researcherAgent
             ("Research this question: " +:+ finding_question f) s1
           = (Ok (finding_findings f), s2)) new.
Proof.
  induction questions as [|q questions IH]; intros acc s findings s' Hrun.
  - simpl in Hrun. injection Hrun as <- <-. exists []. rewrite app_nil_r. auto.
  - cbn [V2.research_loop] in Hrun. unfold console_log in Hrun. rewrite bind_emit in Hrun.
    unfold bind at 1 in Hrun.
    match type of Hrun with
    | context [V2.runAgentStream ?a ?p ?st] =>
        destruct (V2.runAgentStream a p st) as [[text|e|c] s1] eqn:Hagent
    end; try discriminate.
    cbv zeta in Hrun. rewrite bind_emit in Hrun.
    apply IH in Hrun as (new & -> & Hq & Hall).
    exists ({| finding_question := q; finding_findings := text |} :: new).
    rewrite <- app_assoc. split; [reflexivity|]. split; [simpl; congruence|].
    constructor; [|exact Hall]. eexists _, _. exact Hagent.
Qed.


End V2NoExit.

Section V2Extras.

Context `{host : Host} `{sdk : !V2.Sdk}.

(** Property X21.  The research of the tool-calling variant: when the loop
    over the questions returns, the findings stand in the order of the
    questions, one for each, and the text of each is what [runAgentStream]
    returned for the researcher agent on that question. *)
Theorem v2_research_in_question_order questions s findings s' :
  V2.research_loop questions [] s = (Ok findings, s') ->
  map finding_question findings = questions
  /\ Forall (fun f =>
       exists s1 s2,
         V2.runAgentStream V2.researcherAgent
           ("Research this question: " +:+ finding_question f) s1
         = (Ok (finding_findings f), s2)) findings.
Proof.
  intros Hrun. apply research_loop_order in Hrun as (new & -> & Hq & Hall). auto.
Qed.


End V2Extras.

(** ** The tool-calling variant saves no file *)

Section V2Keeps.

Context `{host : Host} `{sdk : !V2.Sdk}.
Variable P : Event -> Prop.
Hypothesis Hlog : forall msg, P (ConsoleLog msg).
Hypothesis Herror : forall msg detail, P (ConsoleError msg detail).
Hypothesis Hwrite : forall text, P (StdoutWrite text).

Lemma keeps_stream_loop parts : forall fullText,
  keeps any_state P (V2.stream_loop parts fullText).
Proof.
  pose proof any_state_cache_only as Hc.
  induction parts as [|part parts IH]; intros fullText; simpl; [keeps|].
  apply keeps_bind; [|intros; apply IH].
  unfold V2.stream_part. keeps.
Qed.

Lemma keeps_runAgentStream agent prompt : keeps any_state P (V2.runAgentStream agent prompt).
Proof.
  pose proof any_state_cache_only as Hc.
  unfold V2.runAgentStream, V2.read_fullStream. keeps. apply keeps_stream_loop.
Qed.

Lemma keeps_research_loop questions : forall findings,
  keeps any_state P (V2.research_loop questions findings).
Proof.
  pose proof any_state_cache_only as Hc.
  induction questions as [|q questions IH]; intros findings; simpl; [keeps|].
  keeps. apply keeps_runAgentStream.
Qed.

Lemma keeps_v2_pipeline topic : keeps any_state P (V2.pipeline topic).
Proof.
  pose proof any_state_cache_only as Hc.
  unfold V2.pipeline. keeps.
  - apply keeps_for_each; try assumption. intros x. keeps.
  - apply keeps_research_loop.
  - apply keeps_runAgentStream.
Qed.

Lemma keeps_v2_main :
  P ConsoleClear -> (forall prompt, P (RlQuestion prompt)) -> P RlClose ->
  keeps any_state P V2.main.
Proof.
  intros Hclear Hquestion Hclose. pose proof any_state_cache_only as Hc.
  unfold V2.main, rl_question. keeps. apply keeps_v2_pipeline.
Qed.

End V2Keeps.

Section V2OutwardExtras.

Context `{host : Host} `{sdk : !V2.Sdk}.

(** Property X23.  The driver of the tool-calling variant does nothing to the
    file system, whatever the agents answer: no directory is made and no file
    is written, and the report goes to the standard output only. *)
Theorem v2_main_saves_nothing s :
  exists evs,
    trace (snd (V2.main s)) = trace s ++ evs
    /\ fs_events evs = [].
Proof.
  destruct (keeps_v2_main (fun ev => is_fs_event ev = false)) with (s := s)
    as (_ & evs & Ht & Hall); try reflexivity.
  exists evs. split; [exact Ht|]. apply filter_none. exact Hall.
Qed.

End V2OutwardExtras.

(** ** The properties on scripted runs *)

(** Claim C1 at an operation that is always rate limited. *)
Lemma withRetry_rate_limit_backoff_witness :
  exists s' evs,
    @withRetry demo_host _ (operation "op" always_limited) "ctx" idle
    = (Throw rate_limit_error, s')
    /\ trace s' = trace idle ++ evs
    /\ evs = retry_rounds "op" "ctx" 4 ++ [Invoke "op"]
    /\ invocations "op" evs = 5%nat
    /\ waits evs = [1000; 2000; 4000; 8000]
    /\ world s' = world_after always_limited 5 (world idle).
Proof.
  apply (@withRetry_rate_limit_backoff demo_host string "op" "ctx" always_limited 5 idle).
  - lia.
  - intros i _. reflexivity.
  - intros H. lia.
Defined.

(** Claim C1 as stated fails: an operation that is always rate limited is
    invoked 5 times, which is 4 retries and not 5, and the waits are 1s,
    2s, 4s and 8s: the wrapper never waits 16s. *)
Lemma withRetry_no_fifth_retry :
  fst (@withRetry demo_host _ (operation "op" always_limited) "ctx" idle)
  = Throw rate_limit_error
  /\ invocations "op"
       (trace (snd (@withRetry demo_host _ (operation "op" always_limited) "ctx" idle)))
     = 5%nat
  /\ waits (trace (snd (@withRetry demo_host _ (operation "op" always_limited) "ctx" idle)))
     = [1000; 2000; 4000; 8000]
  /\ waits (trace (snd (@withRetry demo_host _ (operation "op" always_limited) "ctx" idle)))
     <> [1000; 2000; 4000; 8000; 16000]
  /\ ~ In 16000
        (waits (trace (snd (@withRetry demo_host _ (operation "op" always_limited) "ctx" idle)))).
Proof.
  split; [reflexivity|]. split; [reflexivity|]. split; [reflexivity|].
  split; vm_compute.
  - discriminate.
  - intros H. repeat (destruct H as [H|H]; [discriminate|]). exact H.
Qed.

(** Claim C2 at an operation that answers with status 500. *)
Lemma withRetry_other_error_once_witness :
  exists s' evs,
    @withRetry demo_host _ (operation "op" always_broken) "ctx" idle = (Throw server_error, s')
    /\ trace s' = trace idle ++ evs
    /\ evs = [Invoke "op"]
    /\ invocations "op" evs = 1%nat
    /\ waits evs = []
    /\ world s' = world_after always_broken 1 (world idle).
Proof.
  apply (@withRetry_other_error_once demo_host string "op" "ctx" always_broken server_error idle);
    reflexivity.
Defined.

(** Claim C3 at an operation that is rate limited twice. *)
Lemma withRetry_success_after_rate_limits_witness :
  exists s' evs,
    @withRetry demo_host _ (operation "op" limited_twice) "ctx" idle = (Ok "done", s')
    /\ trace s' = trace idle ++ evs
    /\ evs = retry_rounds "op" "ctx" 2 ++ [Invoke "op"]
    /\ invocations "op" evs = 3%nat
    /\ waits evs = [1000; 2000]
    /\ total_wait evs = 1000 + (2000 + 0)
    /\ total_wait evs = 3000
    /\ world s' = world_after limited_twice 3 (world idle).
Proof.
  apply (@withRetry_success_after_rate_limits demo_host string "op" "ctx" limited_twice 2 "done" idle).
  - lia.
  - intros i Hi. destruct i as [|[|i]]; [reflexivity|reflexivity|lia].
  - reflexivity.
Defined.

(** Claim C4 at a topic of three spaces given on the command line. *)
Lemma main_blank_topic_exits_witness :
  exists s' evs,
    @main demo_host (values_with (Some "   ")) idle = (Exit 1, s')
    /\ trace s' = trace idle ++ evs
    /\ network_calls evs = []
    /\ contentGenerator s' = contentGenerator idle
    /\ generatorConfig s' = generatorConfig idle.
Proof.
  apply (@main_blank_topic_exits demo_host (values_with (Some "   ")) idle).
  apply trim_blank. reflexivity.
Defined.

(** Claim C4 as stated fails: with an empty [--topic] the program asks for
    the topic; when a topic is typed, it runs the pipeline (6 network calls
    in this run) and exits with code 0. *)
Lemma main_empty_flag_prompts :
  values_topic (values_with (Some "")) = Some ""
  /\ fst (@main demo_host (values_with (Some "")) (demo_state (full_script "cats"))) = Exit 0
  /\ length (network_calls
               (trace (snd (@main demo_host (values_with (Some ""))
                              (demo_state (full_script "cats")))))) = 6%nat.
Proof. repeat split; vm_compute; reflexivity. Qed.

(** Claim C8 as stated fails: a topic of one space is not empty, and the
    process exits with code 1. *)
Lemma main_whitespace_topic_exits_1 :
  " " <> ""
  /\ fst (@main demo_host (values_with (Some " ")) (demo_state (full_script "cats"))) = Exit 1.
Proof. split; [discriminate|]. vm_compute. reflexivity. Qed.

(** Claim C7 as stated fails: a response whose JSON has an empty list of
    questions validates, and the coordinator returns a plan with no
    question. *)
Lemma runCoordinator_empty_plan :
  fst (@runCoordinator demo_host "cats"
         (demo_state (script [Fulfilled (text_response empty_plan_text None)] [] "" [])))
  = Ok {| questions := []; rationale := "nothing to ask" |}.
Proof. vm_compute. reflexivity. Qed.

(** Claim C5 at two questions, the second of which settles first. *)
Lemma research_all_in_question_order_witness :
  length demo_results = length demo_questions
  /\ map question demo_results = demo_questions
  /\ forall i r, demo_results !! i = Some r ->
       exists q, demo_questions !! i = Some q /\ @researcher_result demo_host q r.
Proof.
  apply (@research_all_in_question_order demo_host demo_questions
           (ready_state research_script) demo_results (snd demo_research)).
  vm_compute. reflexivity.
Defined.

(** Claim C6 at a stream of four chunks. *)
Lemma runWriter_returns_streamed_text_witness :
  exists s' written,
    @runWriter demo_host "cats" [] (demo_state writer_script)
    = (Ok (String.concat "" (stream_fragments demo_stream)), s')
    /\ stdout_writes (trace s') = stdout_writes (trace (snd writer_ready)) ++ written
    /\ written = List.filter nonempty (stream_fragments demo_stream)
    /\ String.concat "" written = String.concat "" (stream_fragments demo_stream).
Proof.
  apply (@runWriter_returns_streamed_text demo_host "cats" [] (demo_state writer_script)
           demo_stream (snd writer_ready)).
  - vm_compute. reflexivity.
  - reflexivity.
Defined.

(** Claim C9 at the first call of a run. *)
Lemma initializeClient_memoized_witness :
  @initializeClient demo_host (snd (@initializeClient demo_host idle))
  = (Ok (tt, tt), snd (@initializeClient demo_host idle))
  /\ (forall s2,
        contentGenerator s2 = contentGenerator (snd (@initializeClient demo_host idle)) ->
        generatorConfig s2 = generatorConfig (snd (@initializeClient demo_host idle)) ->
        @initializeClient demo_host s2 = (Ok (tt, tt), s2))
  /\ (@initializeClient demo_host ;;; @initializeClient demo_host) idle
     = @initializeClient demo_host idle.
Proof.
  apply (@initializeClient_memoized demo_host idle tt tt (snd (@initializeClient demo_host idle))).
  reflexivity.
Defined.

(** Claim C10 at a response with three grounding chunks, two with a [web] field. *)
Lemma runResearcher_sources_witness :
  exists r,
    @runResearcher demo_host "What is it?" (demo_state researcher_script)
    = (Ok r, snd researcher_ready)
    /\ question r = "What is it?"
    /\ findings r = "It is a tool."
    /\ sources r = [ {| title := Some "A"; uri := Some "https://a.example" |};
                     {| title := None; uri := Some "https://b.example" |} ].
Proof.
  apply (@runResearcher_sources demo_host "What is it?" (demo_state researcher_script)
           (text_response "It is a tool." (Some demo_metadata)) (snd researcher_ready)).
  vm_compute. reflexivity.
Defined.

(** The coordinator fails when the JSON of the response has another shape,
    and when the response has no candidate, so that its text is empty. *)
Example runCoordinator_failures :
  fst (@runCoordinator demo_host "cats"
         (demo_state (script [Fulfilled (text_response odd_plan_text None)] [] "" [])))
  = Throw ZodError
  /\ fst (@runCoordinator demo_host "cats"
            (demo_state (script [Fulfilled {| candidates := None |}] [] "" [])))
     = Throw SyntaxError.
Proof. split; vm_compute; reflexivity. Qed.

(** The scripted research phase: both requests are sent, in the order of
    the questions, before anything settles; the second question settles
    first; and each result is made of the answer to the request for its
    question. *)
Example demo_results_run :
  demo_results
  = [ {| question := "What is it?"; findings := "It is a tool.";
         sources := [ {| title := Some "A"; uri := Some "https://a.example" |};
                      {| title := None; uri := Some "https://b.example" |} ] |};
      {| question := "Who uses it?"; findings := "Researchers."; sources := [] |} ]
  /\ trace (snd demo_research)
     = [ GenerateContent (researcher_request "What is it?")
           "123e4567-e89b-42d3-a456-426614174000";
         GenerateContent (researcher_request "Who uses it?")
           "123e4567-e89b-42d3-a456-426614174000";
         ConsoleLog "  ✓ Q2: Who uses it?";
         ConsoleLog "  ✓ Q1: What is it?" ].
Proof. split; vm_compute; reflexivity. Qed.

(** When the first question settles first, the results are the same and
    the trace is another. *)
Example in_order_research_run :
  fst in_order_research = fst demo_research
  /\ trace (snd in_order_research) <> trace (snd demo_research).
Proof. split; vm_compute; [reflexivity|discriminate]. Qed.

(** Without a client, each of the researchers creates one. *)
Example cold_research_run :
  creations (trace (snd cold_research))
  = [ CreateContentGeneratorConfig; CreateContentGeneratorConfig;
      CreateContentGenerator; CreateContentGenerator ]
  /\ map question (match fst cold_research with Ok rs => rs | _ => [] end)
     = demo_questions.
Proof. split; vm_compute; reflexivity. Qed.

(** The researchers take turns: the retries of the first question go on
    while the second is answered, and each result is that of its question. *)
Example retried_research_run :
  fst retried_research
  = Ok [ {| question := "What is it?"; findings := "It is a tool."; sources := [] |};
         {| question := "Who uses it?"; findings := "Researchers."; sources := [] |} ]
  /\ trace (snd retried_research)
     = [ GenerateContent (researcher_request "What is it?") scripted_id;
         GenerateContent (researcher_request "Who uses it?") scripted_id;
         ConsoleLog (retry_message "generateContent" 1000 0);
         Sleep 1000;
         GenerateContent (researcher_request "What is it?") scripted_id;
         ConsoleLog "  ✓ Q2: Who uses it?";
         ConsoleLog (retry_message "generateContent" 2000 1);
         Sleep 2000;
         GenerateContent (researcher_request "What is it?") scripted_id;
         ConsoleLog "  ✓ Q1: What is it?" ].
Proof. split; vm_compute; reflexivity. Qed.

(** A whole scripted run with the topic on the command line: the report
    that was streamed is what is written to the default path, and the
    process exits with code 0. *)
Example main_run :
  fst (@main demo_host (values_with (Some "cats")) (demo_state (full_script "")))
  = Exit 0
  /\ In (WriteFile "output/output.md" ("# Report" +:+ LF +:+ "Body."))
       (trace (snd (@main demo_host (values_with (Some "cats"))
                      (demo_state (full_script ""))))).
Proof. split; vm_compute; [reflexivity|]. tauto. Qed.

(** A scripted run in which the model does not answer: the error is printed
    and the process exits with code 0. *)
Example main_failure_run :
  fst (@main demo_host (values_with (Some "cats")) idle) = Exit 0
  /\ In (ConsoleError (LF +:+ "❌ An error occurred:") (Some (JStr "no response scripted")))
       (trace (snd (@main demo_host (values_with (Some "cats")) idle))).
Proof. split; vm_compute; [reflexivity|]. tauto. Qed.

(** ** More scripted runs *)

(** The requests of the coordinator at the scripted host, whose JSON schema
    is an object. *)
Lemma runCoordinator_requests_witness :
  exists evs promptIds,
    trace (snd (@runCoordinator demo_host "cats" (demo_state odd_script)))
    = trace (demo_state odd_script) ++ evs
    /\ requests evs
       = map (GenerateContent
                (coordinator_request "cats" (JObj [("type", JStr "object")])))
             promptIds.
Proof.
  apply (@runCoordinator_requests demo_host "cats" (demo_state odd_script)).
  reflexivity.
Defined.

(** The client initializer at a host without credentials. *)
Lemma initializeClient_failed_generator_witness :
  exists s1,
    @initializeClient offline_host offline = (Throw (JStr "no credentials"), s1)
    /\ trace s1 = trace offline ++ [CreateContentGeneratorConfig; CreateContentGenerator]
    /\ world s1 = world offline
    /\ generatorConfig s1 = Some tt
    /\ contentGenerator s1 = None
    /\ exists evs,
         trace (snd (@initializeClient offline_host s1))
         = trace s1 ++ CreateContentGeneratorConfig :: evs.
Proof.
  apply (@initializeClient_failed_generator offline_host offline tt (world offline)
           (JStr "no credentials") (world offline)); reflexivity.
Defined.

(** [streamContent] with a callback for the grounding metadata, on a stream
    of three chunks. *)
Lemma streamContent_text_witness :
  fst (@read_stream demo_host grounding_options grounded_stream idle)
  = Ok (String.concat ""
          (map (fun chunk => fst (read_response chunk)) (stream_chunks grounded_stream))).
Proof.
  apply (@streamContent_text demo_host grounding_options grounded_stream idle).
  - reflexivity.
  - intros f text s1 H. discriminate H.
  - intros f metadata s1 H. injection H as <-. eexists. reflexivity.
Defined.

(** The writer on a stream that breaks with status 429 after one fragment. *)
Lemma runWriter_stream_failure_witness :
  @runWriter demo_host "cats" [] (demo_state broken_script)
  = (Throw rate_limit_error,
     log_events (map StdoutWrite (List.filter nonempty (stream_fragments broken_stream)))
       (snd writer_broken)).
Proof.
  apply (@runWriter_stream_failure demo_host "cats" [] (demo_state broken_script)
           broken_stream (snd writer_broken) rate_limit_error).
  - vm_compute. reflexivity.
  - reflexivity.
Defined.

(** The coordinator on a document whose [questions] is a string. *)
Lemma runCoordinator_rejects_witness :
  @runCoordinator demo_host "cats" (demo_state odd_script)
  = (Throw ZodError, snd coordinator_ready).
Proof.
  apply (@runCoordinator_rejects demo_host "cats" (demo_state odd_script)
           (text_response odd_plan_text None) (snd coordinator_ready) odd_plan_document).
  - vm_compute. reflexivity.
  - vm_compute. reflexivity.
  - left. intros qs. vm_compute. discriminate.
Defined.

(** The research phase when the second request is refused with status 500. *)
Lemma research_all_rejects_witness :
  exists q, q ∈ demo_questions /\ @researcher_error demo_host q server_error.
Proof.
  apply (@research_all_rejects demo_host demo_questions (ready_state refused_script)
           server_error (snd refused_research)).
  vm_compute. reflexivity.
Defined.

(** In that run both requests have been sent when the refusal arrives, and
    no researcher has finished. *)
Example refused_research_run :
  fst refused_research = Throw server_error
  /\ trace (snd refused_research)
     = [ GenerateContent (researcher_request "What is it?")
           "123e4567-e89b-42d3-a456-426614174000";
         GenerateContent (researcher_request "Who uses it?")
           "123e4567-e89b-42d3-a456-426614174000" ].
Proof. split; vm_compute; reflexivity. Qed.

(** The calls of the scripted research phase. *)
Lemma research_all_sends_requests_first_witness :
  exists promptIds rest,
    length promptIds = length demo_questions
    /\ trace (snd demo_research)
       = trace (ready_state research_script)
         ++ zip_with (fun q id => GenerateContent (researcher_request q) id)
              demo_questions promptIds
         ++ rest.
Proof.
  apply (@research_all_sends_requests_first demo_host demo_questions
           (ready_state research_script)).
  split; eexists; reflexivity.
Defined.

(** The search tool on a query with four results. *)
Lemma searchTool_hits_witness :
  (0 < length (take 3 demo_hits) <= 3)%nat
  /\ exists found all,
       @V2.search demo_host demo_sdk "cats" {| V2.safeSearch := "STRICT" |} (world idle)
       = (Fulfilled found,
          world (snd (@V2.execute demo_host (@V2.searchTool demo_host demo_sdk) "cats" idle)))
       /\ V2.results found = Some all
       /\ take 3 demo_hits = take 3 all.
Proof.
  apply (@searchTool_hits demo_host demo_sdk "cats" idle (take 3 demo_hits)
           (snd (@V2.execute demo_host (@V2.searchTool demo_host demo_sdk) "cats" idle))).
  vm_compute. reflexivity.
Defined.

(** The search tool when the search reports an anomaly. *)
Lemma searchTool_search_fails_witness :
  fst (@V2.execute demo_host (@V2.searchTool demo_host demo_sdk) "busy" idle)
  = Ok (V2.Message
          (if includes "anomaly" "DDG detected an anomaly in the request"
           then V2.rate_limit_message
           else "An error occurred while searching."))
  /\ (includes "anomaly" "DDG detected an anomaly in the request" = true
      <-> exists before after,
            "DDG detected an anomaly in the request" = before +:+ "anomaly" +:+ after).
Proof.
  apply (@searchTool_search_fails demo_host demo_sdk "busy" idle
           (new_Error "DDG detected an anomaly in the request") (world idle)
           "DDG detected an anomaly in the request"); reflexivity.
Defined.

(** The search tool when the search fails with [null]. *)
Lemma searchTool_throws_witness :
  TypeError = TypeError
  /\ exists error w,
       @V2.search demo_host demo_sdk "dogs" {| V2.safeSearch := "STRICT" |} (world idle)
       = (Rejected error, w)
       /\ (error = JUndefined \/ error = JNull
           \/ exists props, error = JObj props
                /\ match Js.get error "message" with
                   | JBool _ | JNum _ | JObj _ => True
                   | _ => False
                   end).
Proof.
  apply (@searchTool_throws demo_host demo_sdk "dogs" idle TypeError
           (snd (@V2.execute demo_host (@V2.searchTool demo_host demo_sdk) "dogs" idle))).
  vm_compute. reflexivity.
Defined.

(** [runAgentStream] on a stream with two text deltas, a tool call, an
    error and a delta without text. *)
Lemma runAgentStream_returns_deltas_witness :
  exists s' evs,
    @V2.runAgentStream demo_host demo_sdk (@V2.writerAgent demo_host) "Topic: cats" idle
    = (Ok (String.concat "" (text_deltas (V2.fullStream demo_fullStream))), s')
    /\ trace s' = trace idle ++ evs
    /\ stdout_writes evs
       = List.filter nonempty (text_deltas (V2.fullStream demo_fullStream)) ++ [LF]
    /\ world s' = world idle.
Proof.
  apply (@runAgentStream_returns_deltas demo_host demo_sdk (@V2.writerAgent demo_host)
           "Topic: cats" idle demo_fullStream (world idle)); reflexivity.
Defined.

(** [runAgentStream] on a stream that breaks after one text delta. *)
Lemma runAgentStream_stream_failure_witness :
  exists s' evs,
    @V2.runAgentStream demo_host broken_sdk (@V2.writerAgent demo_host) "Topic: cats" idle
    = (Throw server_error, s')
    /\ trace s' = trace idle ++ evs
    /\ stdout_writes evs = List.filter nonempty (text_deltas (V2.fullStream broken_fullStream)).
Proof.
  apply (@runAgentStream_stream_failure demo_host broken_sdk (@V2.writerAgent demo_host)
           "Topic: cats" idle broken_fullStream (world idle) server_error); reflexivity.
Defined.

(** [generateContent] for the researcher, on a response with one text part. *)
Lemma generateContent_text_witness :
  @generateContent demo_host researcher_instruction (researcher_prompt "What is it?")
    researcher_options (demo_state researcher_script)
  = (Ok (String.concat "" (chunk_fragments (text_response "It is a tool." (Some demo_metadata))),
         response_metadata (text_response "It is a tool." (Some demo_metadata))),
     snd researcher_ready).
Proof.
  apply (@generateContent_text demo_host researcher_instruction (researcher_prompt "What is it?")
           researcher_options (demo_state researcher_script)
           (text_response "It is a tool." (Some demo_metadata)) (snd researcher_ready)).
  vm_compute. reflexivity.
Defined.

(** The loop of the tool-calling variant over two questions. *)
Lemma v2_research_in_question_order_witness :
  map finding_question demo_findings = demo_questions
  /\ Forall (fun f =>
       exists s1 s2,
         @V2.runAgentStream demo_host demo_sdk (@V2.researcherAgent demo_host demo_sdk)
           ("Research this question: " +:+ finding_question f) s1
         = (Ok (finding_findings f), s2)) demo_findings.
Proof.
  apply (@v2_research_in_question_order demo_host demo_sdk demo_questions idle demo_findings
           (snd demo_loop)).
  vm_compute. reflexivity.
Defined.

(** Runs of the two variants on the scripted hosts. *)
Example searchTool_runs :
  fst (@V2.execute demo_host (@V2.searchTool demo_host demo_sdk) "cats" idle)
  = Ok (V2.Hits (take 3 demo_hits))
  /\ fst (@V2.execute demo_host (@V2.searchTool demo_host demo_sdk) "down" idle)
     = Ok (V2.Message "An error occurred while searching.")
  /\ fst (@V2.execute demo_host (@V2.searchTool demo_host demo_sdk) "busy" idle)
     = Ok (V2.Message V2.rate_limit_message)
  /\ fst (@V2.execute demo_host (@V2.searchTool demo_host demo_sdk) "dogs" idle)
     = Throw TypeError.
Proof. repeat split; vm_compute; reflexivity. Qed.

Example runAgentStream_run :
  fst (@V2.runAgentStream demo_host demo_sdk (@V2.writerAgent demo_host) "Topic: cats" idle)
  = Ok "Cats purr.".
Proof. vm_compute. reflexivity. Qed.

Example v2_main_runs :
  fst (@V2.main demo_host demo_sdk (demo_state (script [] [] "  " []))) = Exit 1
  /\ fst (@V2.main demo_host demo_sdk (demo_state (script [] [] "cats" []))) = Exit 0
  /\ fst (@V2.main demo_host broken_sdk (demo_state (script [] [] "cats" []))) = Exit 0
  /\ In (ConsoleError (LF +:+ "❌ An error occurred:")
           (Some (new_Error "Failed to generate a research plan.")))
        (trace (snd (@V2.main demo_host broken_sdk (demo_state (script [] [] "cats" []))))).
Proof. repeat split; vm_compute; try reflexivity. tauto. Qed.
